(** * DinoGame: the endless-runner component of bunny-mini-app

    A shallow embedding of [src/app/components/DinoGame.tsx] and the
    properties its specification states about it.

    Conventions of the model.
    - A JavaScript [number] is an exact rational ([Q]); the rounding of
      IEEE-754 doubles is not modelled.  [NaN] and the infinities appear
      only where the code can produce them from outside data (the stored
      high score), as the type [Js.num].  Module [Binary64] re-evaluates
      the constant products the properties rest on in double precision.
    - React state and refs are fields of one record, [World]; a handler or
      an effect of the component is a function on worlds.  A state update
      is applied at once.  The handlers are re-created at every render and
      are read at the world they are called in.  The animation-frame
      callback is not: it keeps the [isRunning], [score], [highScore] and
      [endGame] of the render its effect ran in.  [callback] takes these
      captured values as a [Closure]; [step] is the callback of the latest
      render.
    - [localStorage] is part of the world.  A stored text is represented
      by what the built-in decoder the code applies to it returns
      ([Number] for the high score, [JSON.parse] for the score list).
    - [Math.random()] is an input of the tick: one field of [Randoms] per
      call site.  So is the time stamp of the animation frame.  [frames]
      follows the frame requests one callback makes itself.  [Page] holds
      all pending frame requests, those of callbacks left over from earlier
      renders included, and [runEffect] the dependency list and the
      clean-up of the effect that requests the first frame.
    - The drawing phase of the tick (canvas calls, sprite frame counter,
      ground scroll offset) writes nothing the simulation reads; it is kept
      out of [step] and modelled on its own, as [render] over the state
      [Paint], with the calls on the 2d context as a list. *)

From Stdlib Require Import ZArith QArith Qround Qminmax.
From Stdlib Require Import List Bool String Lia Lqa.
From Stdlib Require Import Sorted Permutation.
From Stdlib Require Import PrimFloat FloatOps SpecFloat.
Import ListNotations.
Open Scope Q_scope.
Set Warnings "-inexact-float".

(** ** JavaScript built-ins *)

Module Js.

(** [a < b], [a <= b] on numbers; [a > b] is [ltb b a], [a >= b] is
    [leb b a]. *)
Definition leb (a b : Q) : bool := Qle_bool a b.
Definition ltb (a b : Q) : bool := negb (Qle_bool b a).

Definition floor (x : Q) : Q := inject_Z (Qfloor x).
Definition min (a b : Q) : Q := Qmin a b.
Definition max (a b : Q) : Q := Qmax a b.

(** Truthiness of a number: [0] is falsy. *)
Definition truthy (x : Q) : bool := negb (Qeq_bool x 0).

(** What [Number(s)] can return. *)
Inductive num : Type :=
| Num (q : Q)
| NaN
| Infinity (negative : bool).

(** [Math.max(prev, score)] with [score] finite. *)
Definition max_num (prev : num) (score : Q) : num :=
  match prev with
  | Num p => Num (max p score)
  | NaN => NaN
  | Infinity false => Infinity false
  | Infinity true => Num score
  end.

(** A computation that may throw. *)
Inductive result (A : Type) : Type :=
| Ok (a : A)
| Throw.
Arguments Ok {A} a.
Arguments Throw {A}.

Definition bind {A B : Type} (r : result A) (k : A -> result B) : result B :=
  match r with
  | Ok a => k a
  | Throw => Throw
  end.

(** [try { body } catch { }] around a body that computes the next world
    from [w]: a throw leaves what the body had not yet written, here the
    world before it. *)
Definition try_catch {A : Type} (w : A) (body : result A) : A :=
  match body with
  | Ok w' => w'
  | Throw => w
  end.

(** [arr.sort(compare)] on an array of integers: a stable sort; [a] stays
    before [b] unless [compare(a, b) > 0]. *)
Fixpoint insert (compare : Z -> Z -> Z) (a : Z) (arr : list Z) : list Z :=
  match arr with
  | [] => [a]
  | b :: rest =>
      if (compare a b <=? 0)%Z then a :: b :: rest
      else b :: insert compare a rest
  end.

Definition sort (compare : Z -> Z -> Z) (arr : list Z) : list Z :=
  fold_right (insert compare) [] arr.

(** The values [JSON.parse] returns, as far as the component tells them
    apart: an array of integers, a string, and the values that have neither
    [push] nor [slice] (null, a boolean, a number, an object).  Arrays with
    other elements are never written by the component and are not
    modelled. *)
Inductive json : Type :=
| Array (arr : list Z)
| String_ (s : string)
| OtherValue.

End Js.

Notation "x <- c ;; k" := (Js.bind c (fun x => k))
  (at level 61, c at next level, right associativity).

(** ** localStorage *)

Module Storage.

(** The value under a key: no entry ([getItem] returns [null]), the empty
    text, or a non-empty text, given by its decoding. *)
Inductive item (A : Type) : Type :=
| Absent
| Empty
| Text (decoded : A).
Arguments Absent {A}.
Arguments Empty {A}.
Arguments Text {A} decoded.

(** [raw ? ... : ...] and [if (saved)]: [null] and the empty text are falsy. *)
Definition truthy {A : Type} (i : item A) : bool :=
  match i with
  | Text _ => true
  | _ => false
  end.

(** The text under "dinoHighScore" is given by what [Number] returns for
    it, the text under "dinoScores" by what [JSON.parse] does with it:
    [Js.Throw] is its [SyntaxError]. *)
Record t : Type := mk {
  readable : bool;          (* [getItem] throws when false *)
  writable : bool;          (* [setItem] throws when false *)
  dinoHighScore : item Js.num;
  dinoScores : item (Js.result Js.json)
}.

Definition getHighScore (st : t) : Js.result (item Js.num) :=
  if readable st then Js.Ok (dinoHighScore st) else Js.Throw.

Definition getScores (st : t) : Js.result (item (Js.result Js.json)) :=
  if readable st then Js.Ok (dinoScores st) else Js.Throw.

(** [setItem("dinoHighScore", String(next))]: [Number] decodes the text
    [String(next)] back to [next]. *)
Definition setHighScore (next : Js.num) (st : t) : Js.result t :=
  if writable st
  then Js.Ok (mk (readable st) (writable st) (Text next) (dinoScores st))
  else Js.Throw.

(** [setItem("dinoScores", JSON.stringify(arr))]. *)
Definition setScores (arr : list Z) (st : t) : Js.result t :=
  if writable st
  then Js.Ok (mk (readable st) (writable st) (dinoHighScore st)
                 (Text (Js.Ok (Js.Array arr))))
  else Js.Throw.

End Storage.

(** ** The component *)

Module Image.
(** An [HTMLImageElement]: both dimensions are 0 until the image has
    loaded, and stay 0 when it fails to. *)
Record t : Type := mk { width : Z; height : Z }.
End Image.

Module Canvas.
(** The canvas element; [context2d] is false when [getContext("2d")]
    returns [null]. *)
Record t : Type := mk { width : Z; height : Z; context2d : bool }.
End Canvas.

Inductive Tree : Type := Tree1 | Tree2.

Module Obstacle.
(** [img] names the shared image object the obstacle was spawned with. *)
Record t : Type := mk { x : Q; width : Q; height : Q; img : option Tree }.
End Obstacle.

Module Cloud.
Record t : Type := mk { x : Q; y : Q; speed : Q; scale : Q }.
End Cloud.

Record Assets : Type := mkAssets {
  ground : option Image.t;
  cloud : option Image.t;
  tree1 : option Image.t;
  tree2 : option Image.t;
  character : option Image.t
}.

(** [img && img.width && img.height]: the image, when the test passes. *)
Definition loaded (img : option Image.t) : option Image.t :=
  match img with
  | Some i =>
      if negb (Image.width i =? 0)%Z && negb (Image.height i =? 0)%Z
      then Some i else None
  | None => None
  end.

Definition usable (img : option Image.t) : bool :=
  match loaded img with
  | Some _ => true
  | None => false
  end.

(** The value of the [topScores] state: an array, or, when the stored JSON
    is a string, the string [slice] returns for it. *)
Inductive TopScores : Type :=
| Nums (arr : list Z)
| Chars (s : string).

(** [useState] cells. *)
Record State : Type := mkState {
  isGameOver : bool;
  isRunning : bool;
  showMenu : bool;
  showLeaderboard : bool;
  topScores : TopScores;
  score : Z;
  highScore : Js.num
}.

(** [useRef] cells that are written after mount. *)
Record Refs : Type := mkRefs {
  canvasRef : option Canvas.t;
  playerYRef : Q;
  playerVyRef : Q;
  isOnGroundRef : bool;
  speedRef : Q;
  obstaclesRef : list Obstacle.t;
  spawnTimerRef : Q;
  cloudsRef : list Cloud.t;
  cloudSpawnTimerRef : Q;
  lastTimeRef : option Q;
  imagesRef : Assets
}.

Record World : Type := mkWorld {
  state : State;
  refs : Refs;
  localStorage : Storage.t
}.

(** Refs that are only ever read. *)
Definition gravityRef : Q := 1350.
Definition jumpVelocityRef : Q := -560.
Definition PLAYER_WIDTH : Q := 56.
Definition PLAYER_HEIGHT : Q := 64.
Definition RUN_FRAMES : Q := 4.

(** The state at mount, before any effect has run. *)
Definition initialState : State :=
  mkState false false true false (Nums []) 0%Z (Js.Num 0).

Definition initialRefs (canvas : option Canvas.t) : Refs :=
  mkRefs canvas 0 0 true 260 [] 0 [] 0 None
         (mkAssets None None None None None).

(** *** State setters *)

Definition setIsGameOver (b : bool) (s : State) : State :=
  mkState b (isRunning s) (showMenu s) (showLeaderboard s) (topScores s)
          (score s) (highScore s).
Definition setIsRunning (b : bool) (s : State) : State :=
  mkState (isGameOver s) b (showMenu s) (showLeaderboard s) (topScores s)
          (score s) (highScore s).
Definition setShowMenu (b : bool) (s : State) : State :=
  mkState (isGameOver s) (isRunning s) b (showLeaderboard s) (topScores s)
          (score s) (highScore s).
Definition setShowLeaderboard (b : bool) (s : State) : State :=
  mkState (isGameOver s) (isRunning s) (showMenu s) b (topScores s)
          (score s) (highScore s).
Definition setTopScores (v : TopScores) (s : State) : State :=
  mkState (isGameOver s) (isRunning s) (showMenu s) (showLeaderboard s) v
          (score s) (highScore s).
Definition setScore (v : Z) (s : State) : State :=
  mkState (isGameOver s) (isRunning s) (showMenu s) (showLeaderboard s)
          (topScores s) v (highScore s).
Definition setHighScore (v : Js.num) (s : State) : State :=
  mkState (isGameOver s) (isRunning s) (showMenu s) (showLeaderboard s)
          (topScores s) (score s) v.

Definition withState (f : State -> State) (w : World) : World :=
  mkWorld (f (state w)) (refs w) (localStorage w).
Definition withRefs (f : Refs -> Refs) (w : World) : World :=
  mkWorld (state w) (f (refs w)) (localStorage w).
Definition withStorage (st : Storage.t) (w : World) : World :=
  mkWorld (state w) (refs w) st.

(** *** Ref setters *)

Definition setPlayerY (v : Q) (r : Refs) : Refs :=
  mkRefs (canvasRef r) v (playerVyRef r) (isOnGroundRef r) (speedRef r)
         (obstaclesRef r) (spawnTimerRef r) (cloudsRef r)
         (cloudSpawnTimerRef r) (lastTimeRef r) (imagesRef r).
Definition setPlayerVy (v : Q) (r : Refs) : Refs :=
  mkRefs (canvasRef r) (playerYRef r) v (isOnGroundRef r) (speedRef r)
         (obstaclesRef r) (spawnTimerRef r) (cloudsRef r)
         (cloudSpawnTimerRef r) (lastTimeRef r) (imagesRef r).
Definition setIsOnGround (b : bool) (r : Refs) : Refs :=
  mkRefs (canvasRef r) (playerYRef r) (playerVyRef r) b (speedRef r)
         (obstaclesRef r) (spawnTimerRef r) (cloudsRef r)
         (cloudSpawnTimerRef r) (lastTimeRef r) (imagesRef r).
Definition setCanvas (c : option Canvas.t) (r : Refs) : Refs :=
  mkRefs c (playerYRef r) (playerVyRef r) (isOnGroundRef r) (speedRef r)
         (obstaclesRef r) (spawnTimerRef r) (cloudsRef r)
         (cloudSpawnTimerRef r) (lastTimeRef r) (imagesRef r).

(** [Math.floor(canvas.height / 2)] *)
Definition groundTop (canvas : Canvas.t) : Q :=
  Js.floor (inject_Z (Canvas.height canvas) / 2).

(** *** Assets (lines 78-100) *)

Inductive AssetKey : Type :=
| Ground | CloudImg | TreeOne | TreeTwo | Character.

Definition setImage (key : AssetKey) (img : option Image.t) (a : Assets)
  : Assets :=
  match key with
  | Ground => mkAssets img (cloud a) (tree1 a) (tree2 a) (character a)
  | CloudImg => mkAssets (ground a) img (tree1 a) (tree2 a) (character a)
  | TreeOne => mkAssets (ground a) (cloud a) img (tree2 a) (character a)
  | TreeTwo => mkAssets (ground a) (cloud a) (tree1 a) img (character a)
  | Character => mkAssets (ground a) (cloud a) (tree1 a) (tree2 a) img
  end.

Definition setImages (a : Assets) (r : Refs) : Refs :=
  mkRefs (canvasRef r) (playerYRef r) (playerVyRef r) (isOnGroundRef r)
         (speedRef r) (obstaclesRef r) (spawnTimerRef r) (cloudsRef r)
         (cloudSpawnTimerRef r) (lastTimeRef r) a.

(** The effect creates the five image objects; none has dimensions yet. *)
Definition loadImages (w : World) : World :=
  let blank := Some (Image.mk 0 0) in
  withRefs (setImages (mkAssets blank blank blank blank blank)) w.

(** An image finishes loading: the object gets its natural size. *)
Definition imageLoaded (key : AssetKey) (width height : Z) (w : World)
  : World :=
  withRefs (fun r => setImages
                       (setImage key (Some (Image.mk width height))
                                 (imagesRef r)) r) w.

(** *** Persistence: the load effects *)

(** Lines 70-75: the body of the [try], [if (saved)
    setHighScore(Number(saved))], and the effect around it. *)
Definition tryLoadHighScore (w : World) : Js.result World :=
  saved <- Storage.getHighScore (localStorage w) ;;
  match saved with
  | Storage.Text n => Js.Ok (withState (setHighScore n) w)
  | _ => Js.Ok w
  end.

Definition loadHighScore (w : World) : World :=
  Js.try_catch w (tryLoadHighScore w).

(** [raw ? JSON.parse(raw) : []] *)
Definition parseScores (raw : Storage.item (Js.result Js.json))
  : Js.result Js.json :=
  match raw with
  | Storage.Text decoded => decoded
  | _ => Js.Ok (Js.Array [])
  end.

(** [arr.slice(0, 10)]: arrays and strings have [slice]; on any other value
    the call throws a [TypeError]. *)
Definition slice10 (arr : Js.json) : Js.result TopScores :=
  match arr with
  | Js.Array l => Js.Ok (Nums (firstn 10 l))
  | Js.String_ s => Js.Ok (Chars (substring 0 10 s))
  | Js.OtherValue => Js.Throw
  end.

(** Lines 410-417, and the LEADERBOARD button: the body of the [try], and
    the [try] around it. *)
Definition tryLoadTopScores (w : World) : Js.result World :=
  raw <- Storage.getScores (localStorage w) ;;
  arr <- parseScores raw ;;
  top <- slice10 arr ;;
  Js.Ok (withState (setTopScores top) w).

Definition loadTopScores (w : World) : World :=
  Js.try_catch w (tryLoadTopScores w).

(** *** resetGame, endGame, jump *)

Definition resetGame (w : World) : World :=
  match canvasRef (refs w) with
  | None => w
  | Some canvas =>
      mkWorld
        (setIsRunning true (setScore 0%Z (setIsGameOver false (state w))))
        (mkRefs (canvasRef (refs w)) (groundTop canvas - PLAYER_HEIGHT) 0 true
                260 [] 0 [] 0 None (imagesRef (refs w)))
        (localStorage w)
  end.

(** [setHighScore((prev) => ...)]: the new high score, written to storage
    when storage accepts it. *)
Definition updateHighScore (score : Z) (w : World) : World :=
  let next := Js.max_num (highScore (state w)) (inject_Z score) in
  let st := Js.try_catch (localStorage w)
              (Storage.setHighScore next (localStorage w)) in
  withStorage st (withState (setHighScore next) w).

(** [arr.push(score); arr.sort((a, b) => b - a)]: only an array has [push]. *)
Definition pushAndSort (score : Z) (arr : Js.json) : Js.result (list Z) :=
  match arr with
  | Js.Array l => Js.Ok (Js.sort (fun a b => (b - a)%Z) (l ++ [score]))
  | _ => Js.Throw
  end.

(** Lines 133-140. *)
Definition recordScore (score : Z) (w : World) : World :=
  Js.try_catch w
    (raw <- Storage.getScores (localStorage w) ;;
     arr <- parseScores raw ;;
     sorted <- pushAndSort score arr ;;
     st <- Storage.setScores (firstn 10 sorted) (localStorage w) ;;
     Js.Ok (withState (setTopScores (Nums (firstn 10 sorted)))
                      (withStorage st w))).

(** [score] is the value the callback captured at the last render. *)
Definition endGame (score : Z) (w : World) : World :=
  recordScore score
    (updateHighScore score
       (withState (fun s => setIsRunning false (setIsGameOver true s)) w)).

Definition jump (w : World) : World :=
  if isOnGroundRef (refs w) && isRunning (state w)
     && negb (isGameOver (state w))
  then withRefs (fun r => setPlayerVy jumpVelocityRef (setIsOnGround false r)) w
  else w.

(** *** Input *)

Inductive KeyCode : Type := Space | ArrowUp | OtherKey.

Definition restartOrJump (w : World) : World :=
  if negb (isRunning (state w)) && isGameOver (state w)
  then resetGame w
  else jump w.

Definition handleKeyDown (code : KeyCode) (w : World) : World :=
  if showMenu (state w) || showLeaderboard (state w) then w
  else match code with
       | Space | ArrowUp => restartOrJump w
       | OtherKey => w
       end.

Definition handlePointer (w : World) : World :=
  if showMenu (state w) || showLeaderboard (state w) then w
  else restartOrJump w.

(** *** Buttons of the overlays *)

Definition clickStart (w : World) : World :=
  resetGame (withState (setShowMenu false) w).

Definition clickLeaderboard (w : World) : World :=
  loadTopScores (withState (setShowLeaderboard true) w).

Definition clickClose (w : World) : World :=
  withState (setShowLeaderboard false) w.

Definition clickMenu (w : World) : World :=
  withState (fun s => setShowMenu true (setShowLeaderboard false
                        (setIsRunning false (setIsGameOver false s)))) w.

(** *** Canvas sizing (lines 182-194) *)

Definition resize (parentWidth parentHeight : Z) (w : World) : World :=
  match canvasRef (refs w) with
  | None => w
  | Some canvas =>
      let aspect := 9 / 16 in
      let height := inject_Z parentHeight in
      let widthByHeight := Js.floor (height * aspect) in
      let width := Js.min (inject_Z parentWidth) widthByHeight in
      let canvas' := Canvas.mk (Qfloor width) parentHeight
                               (Canvas.context2d canvas) in
      withRefs (fun r => setPlayerY (groundTop canvas' - PLAYER_HEIGHT)
                           (setCanvas (Some canvas') r)) w
  end.

(** ** The tick (lines 209-404) *)

(** The values [Math.random()] returns at its seven call sites, in source
    order; each lies in [0, 1). *)
Record Randoms : Type := mkRandoms {
  rTree : Q;           (* line 232 *)
  rHeight : Q;         (* line 234 *)
  rSpawn : Q;          (* line 242 *)
  rCloudScale : Q;     (* line 255 *)
  rCloudY : Q;         (* line 256 *)
  rCloudSpeed : Q;     (* line 257 *)
  rCloudSpawn : Q      (* line 259 *)
}.

Record Rect : Type := mkRect { left : Q; top : Q; wide : Q; high : Q }.

(** Lines 210-211: [lastTimeRef.current] is replaced by [time] when it is
    [null] or 0; [dt] is clamped to 0.032. *)
Definition elapsed (time : Q) (last : option Q) : Q :=
  let last' := match last with
               | Some l => if Js.truthy l then l else time
               | None => time
               end in
  Js.min 0.032 ((time - last') / 1000).

(** Lines 219-228: gravity, then the clamp at the ground line.  The result is
    (playerY, playerVy, isOnGround). *)
Definition integrate (dt groundY : Q) (y vy : Q) (onGround : bool)
  : Q * Q * bool :=
  let vy1 := vy + gravityRef * dt in
  let y1 := y + vy1 * dt in
  if Js.leb groundY y1 then (groundY, 0, true) else (y1, vy1, onGround).

(** Lines 232-241: the obstacle pushed when the spawn timer expires. *)
Definition spawnObstacle (rnd : Randoms) (imgs : Assets) (canvas : Canvas.t)
  : Obstacle.t :=
  let useTree1 := Js.ltb (rTree rnd) 0.5 in
  let img := if useTree1 then tree1 imgs else tree2 imgs in
  let baseH := 48 + Js.floor (rHeight rnd * 28) in
  let x0 := inject_Z (Canvas.width canvas) + 10 in
  match loaded img with
  | Some i =>
      let scale := baseH / inject_Z (Image.height i) in
      let w := Js.max 10 (Js.floor (inject_Z (Image.width i) * scale)) in
      Obstacle.mk x0 w baseH (Some (if useTree1 then Tree1 else Tree2))
  | None => Obstacle.mk x0 18 baseH None
  end.

(** Lines 245-250. *)
Definition moveObstacle (distance : Q) (o : Obstacle.t) : Obstacle.t :=
  Obstacle.mk (Obstacle.x o - distance) (Obstacle.width o)
              (Obstacle.height o) (Obstacle.img o).

Definition onScreen (o : Obstacle.t) : bool :=
  Js.ltb 0 (Obstacle.x o + Obstacle.width o).

(** Lines 255-258. *)
Definition spawnCloud (rnd : Randoms) (speed : Q) (canvas : Canvas.t)
  : Cloud.t :=
  let scale := 0.6 + rCloudScale rnd * 0.6 in
  let y := 10 + rCloudY rnd
                * Js.max 10 (inject_Z (Canvas.height canvas) * 0.25) in
  let v := Js.max 20 (speed * 0.25 * (0.7 + rCloudSpeed rnd * 0.6)) in
  Cloud.mk (inject_Z (Canvas.width canvas) + 20) y v scale.

Definition moveCloud (dt : Q) (c : Cloud.t) : Cloud.t :=
  Cloud.mk (Cloud.x c - Cloud.speed c * dt) (Cloud.y c) (Cloud.speed c)
           (Cloud.scale c).

Definition cloudVisible (c : Cloud.t) : bool := Js.ltb (-200) (Cloud.x c).

(** Lines 266-283: the rectangle the character is drawn in.  [pw / swb] is
    [Infinity] when the sheet is narrower than four pixels, and [Math.min]
    then returns [ph / shb]. *)
Definition characterRect (img : option Image.t) (px py : Q) : Rect :=
  let pw := PLAYER_WIDTH in
  let ph := PLAYER_HEIGHT in
  match loaded img with
  | Some i =>
      let frameWb := Js.floor (inject_Z (Image.width i) / RUN_FRAMES) in
      let swb := frameWb in
      let shb := inject_Z (Image.height i) in
      let scaleB := if Js.truthy swb then Js.min (pw / swb) (ph / shb)
                    else ph / shb in
      let cdw := Js.floor (swb * scaleB) in
      let cdh := Js.floor (shb * scaleB) in
      let cdx := Js.floor (px + (pw - cdw) / 2) in
      let cdy := Js.floor (py + (ph - cdh)) in
      mkRect cdx cdy cdw cdh
  | None => mkRect px py pw ph
  end.

(** Lines 284-290. *)
Definition characterHitbox (draw : Rect) : Rect :=
  let charShrinkX := Js.floor (wide draw * 0.12) in
  let charShrinkY := Js.floor (high draw * 0.08) in
  mkRect (left draw + charShrinkX) (top draw + charShrinkY)
         (Js.max 1 (wide draw - charShrinkX * 2))
         (Js.max 1 (high draw - charShrinkY * 2)).

(** Lines 294-298: the rectangle of an obstacle, standing on the ground. *)
Definition obstacleRect (canvas : Canvas.t) (o : Obstacle.t) : Rect :=
  mkRect (Obstacle.x o) (groundTop canvas - Obstacle.height o)
         (Obstacle.width o) (Obstacle.height o).

(** Lines 299-305. *)
Definition obstacleHitbox (r : Rect) : Rect :=
  let obsShrinkX := Js.floor (wide r * 0.15) in
  let obsShrinkY := Js.floor (high r * 0.05) in
  mkRect (left r + obsShrinkX) (top r + obsShrinkY)
         (Js.max 1 (wide r - obsShrinkX * 2))
         (Js.max 1 (high r - obsShrinkY * 2)).

(** Line 307. *)
Definition noOverlap (c o : Rect) : bool :=
  Js.leb (left c + wide c) (left o)
  || Js.leb (left o + wide o) (left c)
  || Js.leb (top c + high c) (top o)
  || Js.leb (top o + high o) (top c).

(** The player's rectangle and collision box for a canvas, the character
    image and a vertical position. *)
Definition playerX (canvas : Canvas.t) : Q :=
  Js.floor ((inject_Z (Canvas.width canvas) - PLAYER_WIDTH) / 2).

Definition playerHitbox (canvas : Canvas.t) (imgs : Assets) (py : Q) : Rect :=
  characterHitbox (characterRect (character imgs) (playerX canvas) py).

Definition collides (canvas : Canvas.t) (player : Rect) (o : Obstacle.t)
  : bool :=
  negb (noOverlap player (obstacleHitbox (obstacleRect canvas o))).

(** Lines 210-264: what one tick writes to the refs. *)
Definition simulate (canvas : Canvas.t) (time : Q) (rnd : Randoms) (r : Refs)
  : Refs :=
  let dt := elapsed time (lastTimeRef r) in
  let speed := Js.min 560 (speedRef r + dt * 8) in
  let groundY := groundTop canvas - PLAYER_HEIGHT in
  let '(y, vy, onGround) :=
    integrate dt groundY (playerYRef r) (playerVyRef r) (isOnGroundRef r) in
  let spawnTimer := spawnTimerRef r - dt in
  let spawns := Js.leb spawnTimer 0 in
  let spawned :=
    if spawns then obstaclesRef r ++ [spawnObstacle rnd (imagesRef r) canvas]
    else obstaclesRef r in
  let obstacles := filter onScreen (map (moveObstacle (speed * dt)) spawned) in
  let cloudSpawnTimer := cloudSpawnTimerRef r - dt in
  let cloudSpawns := Js.leb cloudSpawnTimer 0 in
  let cloudsSpawned :=
    if cloudSpawns then cloudsRef r ++ [spawnCloud rnd speed canvas]
    else cloudsRef r in
  let clouds := filter cloudVisible (map (moveCloud dt) cloudsSpawned) in
  mkRefs (canvasRef r) y vy onGround speed obstacles
         (if spawns then 0.9 + rSpawn rnd * 0.9 else spawnTimer)
         clouds
         (if cloudSpawns then 2 + rCloudSpawn rnd * 3 else cloudSpawnTimer)
         (Some time) (imagesRef r).

(** What a tick did besides changing the world: whether it called [endGame],
    and whether it asked for another animation frame (line 403). *)
Record Tick : Type := mkTick {
  world : World;
  endGameCalled : bool;
  frameRequested : bool
}.

(** [step], the animation-frame callback, as created in the latest render:
    the [isRunning], [score] and [endGame] it has captured are those of the
    state it is called in.  [canvas] is the element the effect found in
    [canvasRef].  A callback created in an earlier render is [callback],
    further down. *)
Definition step (time : Q) (rnd : Randoms) (w : World) : Tick :=
  match canvasRef (refs w) with
  | None => mkTick w false false
  | Some canvas =>
      let running := isRunning (state w) in
      let dt := elapsed time (lastTimeRef (refs w)) in
      let st :=
        if running
        then setScore (score (state w) + Qfloor (dt * 100))%Z (state w)
        else state w in
      let r := simulate canvas time rnd (refs w) in
      let player := playerHitbox canvas (imagesRef r) (playerYRef r) in
      let w' := mkWorld st r (localStorage w) in
      if running && existsb (collides canvas player) (obstaclesRef r)
      then mkTick (endGame (score (state w)) w') true false
      else mkTick w' false running
  end.

(** Lines 203-208 and 406, the body of the effect: when the effect runs, it
    asks for a first frame unless the session is neither running nor in the
    menu, or there is nothing to draw on.  Whether the effect runs is
    decided by its dependency list (line 408), which is [effectRuns],
    further down. *)
Definition renderLoopStarts (w : World) : bool :=
  if negb (isRunning (state w)) && negb (showMenu (state w)) then false
  else match canvasRef (refs w) with
       | Some canvas => Canvas.context2d canvas
       | None => false
       end.

(** The ticks one run of the effect leads to through the callback it has
    created, given the time stamp and the random draws of each coming
    animation frame: the world after the last tick, and how many ticks ran.
    Each tick is taken with the values of the latest render; with older
    ones the tick differs in the score [endGame] records and in the two
    texts it draws (see [callback]). *)
Fixpoint frames (inputs : list (Q * Randoms)) (w : World) : World * nat :=
  match inputs with
  | [] => (w, O)
  | (time, rnd) :: rest =>
      let t := step time rnd w in
      if frameRequested t
      then let (w', n) := frames rest (world t) in (w', S n)
      else (world t, 1%nat)
  end.

Definition renderLoop (inputs : list (Q * Randoms)) (w : World)
  : World * nat :=
  if renderLoopStarts w then frames inputs w else (w, O).

(** A sequence of ticks, whoever scheduled them. *)
Fixpoint ticks (inputs : list (Q * Randoms)) (w : World) : World :=
  match inputs with
  | [] => w
  | (time, rnd) :: rest => ticks rest (world (step time rnd w))
  end.

(** ** The drawing phase of the tick (lines 315-401)

    The three refs only the drawing reads and writes, the theme colours, and
    the calls made on the 2d context, in order. *)

Record Paint : Type := mkPaint {
  runFrameRef : Q;
  runFrameTimerRef : Q;
  groundScrollRef : Js.num
}.

Definition RUN_FPS : Q := 10.

(** What [resetGame] writes to the three refs (lines 117-119). *)
Definition resetPaint : Paint := mkPaint 0 0 (Js.Num 0).

(** [Math.ceil], and [a % b] for a divisor that is not 0: the remainder has
    the sign of [a]. *)
Definition ceil (x : Q) : Q := inject_Z (Qceiling x).
Definition trunc (x : Q) : Q := if Js.leb 0 x then Js.floor x else ceil x.
Definition remainder (a b : Q) : Q := a - b * trunc (a / b).

(** [scroll + distance] and [scroll % tileW] on a ref that may hold [NaN]:
    a remainder by 0, and of what is not finite, is [NaN]. *)
Definition addNum (a : Js.num) (b : Q) : Js.num :=
  match a with
  | Js.Num p => Js.Num (p + b)
  | other => other
  end.

Definition remNum (a : Js.num) (b : Q) : Js.num :=
  match a with
  | Js.Num p => if Js.truthy b then Js.Num (remainder p b) else Js.NaN
  | _ => Js.NaN
  end.

(** The trimmed values of the three CSS variables. *)
Record Theme : Type := mkTheme {
  cardBorder : string;
  accent : string;
  foreground : string
}.

(** [value || fallback] on strings. *)
Definition orDefault (value fallback : string) : string :=
  if String.eqb value "" then fallback else value.

Inductive Label : Type :=
| ScoreLabel (score : Z)          (* `Score: ${score}` *)
| HighLabel (high : Js.num).      (* `High: ${highScore}` *)

Inductive Command : Type :=
| clearRect (x y w h : Q)
| fillStyle (color : string)
| fillRect (x y w h : Q)
| imageSmoothingEnabled (on : bool)
| globalAlpha (alpha : Q)
| drawImage (img : AssetKey) (dx dy dw dh : Q)
| drawImageFrame (img : AssetKey) (sx sy sw sh dx dy dw dh : Q)
| textBaseline (value : string)
| font (value : string)
| fillText (label : Label) (x y : Q).

(** Lines 329-338. *)
Definition drawClouds (imgs : Assets) (clouds : list Cloud.t)
  : list Command :=
  match loaded (cloud imgs) with
  | Some cloudImg =>
      flat_map
        (fun c =>
           let cw := inject_Z (Image.width cloudImg) * Cloud.scale c in
           let ch := inject_Z (Image.height cloudImg) * Cloud.scale c in
           [globalAlpha 0.9;
            drawImage CloudImg (Cloud.x c) (Cloud.y c) cw ch;
            globalAlpha 1])
        clouds
  | None => []
  end.

(** The loop of lines 350-353: the [drawX] of every iteration, for at most
    [fuel] iterations. *)
Fixpoint tileColumns (fuel : nat) (x limit tileW : Q) : list Q :=
  match fuel with
  | O => []
  | S fuel' =>
      if Js.ltb x limit
      then Js.floor x :: tileColumns fuel' (x + tileW) limit tileW
      else []
  end.

(** Iterations that suffice for the loop to leave by its condition when the
    tile width is positive. *)
Definition tileFuel (x limit tileW : Q) : nat :=
  Z.to_nat (Qceiling ((limit - x) / tileW)).

(** Lines 341-357: the new scroll offset and the calls. *)
Definition drawGround (colorBorder : string) (canvas : Canvas.t)
           (imgs : Assets) (speed dt : Q) (scroll : Js.num)
  : Js.num * list Command :=
  let groundTopY2 := groundTop canvas in
  let groundHeight2 := inject_Z (Canvas.height canvas) - groundTopY2 in
  match loaded (ground imgs) with
  | Some groundImg =>
      let scale := groundHeight2 / inject_Z (Image.height groundImg) in
      let tileW := ceil (inject_Z (Image.width groundImg) * scale) in
      let tileH := groundHeight2 in
      let scroll' := remNum (addNum scroll (speed * dt)) tileW in
      (scroll',
       match scroll' with
       | Js.Num offset =>
           let limit := inject_Z (Canvas.width canvas) + tileW in
           map (fun drawX =>
                  drawImage Ground drawX groundTopY2 (tileW + 1) tileH)
               (tileColumns (tileFuel (- offset) limit tileW)
                            (- offset) limit tileW)
       | _ => []
       end)
  | None =>
      (scroll,
       [fillStyle colorBorder;
        fillRect 0 groundTopY2 (inject_Z (Canvas.width canvas))
                 groundHeight2])
  end.

(** Lines 367-371: the frame of the sheet that is drawn. *)
Definition spriteFrame (img : Image.t) (frame : Q) : Rect :=
  let frameW := Js.floor (inject_Z (Image.width img) / RUN_FRAMES) in
  mkRect (frame * frameW) 0 frameW (inject_Z (Image.height img)).

(** Lines 360-382: the new frame counter and timer, and the calls.  [pw /
    sw] is [Infinity] for a frame of width 0, as on line 278. *)
Definition drawPlayer (colorAccent : string) (imgs : Assets) (dt px py : Q)
           (frame timer : Q) : Q * Q * list Command :=
  let pw := PLAYER_WIDTH in
  let ph := PLAYER_HEIGHT in
  match loaded (character imgs) with
  | Some charImg =>
      let timer1 := timer + dt in
      let advance := Js.leb (1 / RUN_FPS) timer1 in
      let timer2 := if advance then 0 else timer1 in
      let frame2 := if advance then remainder (frame + 1) RUN_FRAMES
                    else frame in
      let src := spriteFrame charImg frame2 in
      let sw := wide src in
      let sh := high src in
      let scale := if Js.truthy sw then Js.min (pw / sw) (ph / sh)
                   else ph / sh in
      let dw := Js.floor (sw * scale) in
      let dh := Js.floor (sh * scale) in
      let dx := Js.floor (px + (pw - dw) / 2) in
      let dy := Js.floor (py + (ph - dh)) in
      (frame2, timer2,
       [drawImageFrame Character (left src) (top src) sw sh dx dy dw dh])
  | None => (frame, timer, [fillStyle colorAccent; fillRect px py pw ph])
  end.

Definition treeKey (tree : Tree) : AssetKey :=
  match tree with
  | Tree1 => TreeOne
  | Tree2 => TreeTwo
  end.

Definition treeImage (imgs : Assets) (tree : Tree) : option Image.t :=
  match tree with
  | Tree1 => tree1 imgs
  | Tree2 => tree2 imgs
  end.

(** Lines 385-394, for one obstacle: [o.img] is the shared image object. *)
Definition drawObstacle (colorForeground : string) (canvas : Canvas.t)
           (imgs : Assets) (o : Obstacle.t) : list Command :=
  let oy := groundTop canvas - Obstacle.height o in
  match Obstacle.img o with
  | Some tree =>
      if usable (treeImage imgs tree)
      then [drawImage (treeKey tree) (Obstacle.x o) oy (Obstacle.width o)
                      (Obstacle.height o)]
      else [fillStyle colorForeground;
            fillRect (Obstacle.x o) oy (Obstacle.width o)
                     (Obstacle.height o)]
  | None =>
      [fillStyle colorForeground;
       fillRect (Obstacle.x o) oy (Obstacle.width o) (Obstacle.height o)]
  end.

(** Lines 315-401: everything a tick draws, given the refs the tick has
    just written, the [score] and [highScore] of the render, and the
    elapsed time. *)
Definition render (theme : Theme) (canvas : Canvas.t) (dt : Q) (r : Refs)
           (score : Z) (highScore : Js.num) (p : Paint)
  : Paint * list Command :=
  let cw := inject_Z (Canvas.width canvas) in
  let ch := inject_Z (Canvas.height canvas) in
  let colorBorder := orDefault (cardBorder theme) "#e5e7eb" in
  let colorAccent := orDefault (accent theme) "#0052FF" in
  let colorForeground := orDefault (foreground theme) "#111111" in
  let '(scroll, groundCalls) :=
    drawGround colorBorder canvas (imagesRef r) (speedRef r) dt
               (groundScrollRef p) in
  let '(frame, timer, playerCalls) :=
    drawPlayer colorAccent (imagesRef r) dt (playerX canvas) (playerYRef r)
               (runFrameRef p) (runFrameTimerRef p) in
  (mkPaint frame timer scroll,
   [clearRect 0 0 cw ch; fillStyle "#a6cff9"; fillRect 0 0 cw ch;
    imageSmoothingEnabled false]
   ++ drawClouds (imagesRef r) (cloudsRef r)
   ++ groundCalls
   ++ playerCalls
   ++ flat_map (drawObstacle colorForeground canvas (imagesRef r))
               (obstaclesRef r)
   ++ [fillStyle colorForeground; textBaseline "top";
       font "14px 'Press Start 2P', monospace";
       fillText (ScoreLabel score) 12 12;
       fillText (HighLabel highScore) 12 32]).

(** One tick of the callback of the latest render, drawing included: a tick
    that ends the game returns before it draws.  The two texts show the
    [score] and [highScore] the callback has captured, here those of the
    state it is called in. *)
Definition stepAndDraw (theme : Theme) (time : Q) (rnd : Randoms) (w : World)
           (p : Paint) : Tick * Paint * list Command :=
  let t := step time rnd w in
  match canvasRef (refs w) with
  | Some canvas =>
      if endGameCalled t then (t, p, [])
      else let '(p', calls) :=
             render theme canvas (elapsed time (lastTimeRef (refs w)))
                    (refs (world t)) (score (state w)) (highScore (state w))
                    p in
           (t, p', calls)
  | None => (t, p, [])
  end.

(** ** Notions the properties are stated with *)

(** Two rectangles overlap strictly on both axes. *)
Definition overlaps (a b : Rect) : Prop :=
  left b < left a + wide a /\ left a < left b + wide b
  /\ top b < top a + high a /\ top a < top b + high b.

(** Component-wise equality of rectangles, as numbers. *)
Definition sameRect (a b : Rect) : Prop :=
  left a == left b /\ top a == top b /\ wide a == wide b /\ high a == high b.

(** The ground line of a canvas. *)
Definition groundLine (canvas : Canvas.t) : Q :=
  groundTop canvas - PLAYER_HEIGHT.

(** Every tick of a run starts with a non-negative elapsed time. *)
Fixpoint forward (inputs : list (Q * Randoms)) (w : World) : Prop :=
  match inputs with
  | [] => True
  | (time, rnd) :: rest =>
      0 <= elapsed time (lastTimeRef (refs w))
      /\ forward rest (world (step time rnd w))
  end.

(** Time stamps that never go back, as the browser hands them out. *)
Fixpoint chronological (last : option Q) (inputs : list (Q * Randoms))
  : Prop :=
  match inputs with
  | [] => True
  | (time, _) :: rest =>
      match last with Some l => l <= time | None => True end
      /\ chronological (Some time) rest
  end.

(** The scroll speed before each tick of a run, and after the last. *)
Fixpoint speeds (inputs : list (Q * Randoms)) (w : World) : list Q :=
  speedRef (refs w) ::
  match inputs with
  | [] => []
  | (time, rnd) :: rest => speeds rest (world (step time rnd w))
  end.

(** Every tick of a run starts in a running session and has elapsed time
    [dt]. *)
Fixpoint runningTicks (dt : Q) (inputs : list (Q * Randoms)) (w : World)
  : bool :=
  match inputs with
  | [] => true
  | (time, rnd) :: rest =>
      isRunning (state w)
      && Qeq_bool (elapsed time (lastTimeRef (refs w))) dt
      && runningTicks dt rest (world (step time rnd w))
  end.

(** The effects that run once at mount, in source order, for a parent
    element of the given size. *)
Definition mount (parentWidth parentHeight : Z) (w : World) : World :=
  loadTopScores
    (resize parentWidth parentHeight (loadImages (loadHighScore w))).

(** A world to evaluate the component in: the component mounted in a
    720 x 1280 parent over an empty store, no image loaded yet; and one set
    of random draws. *)
Definition emptyStore : Storage.t :=
  Storage.mk true true Storage.Absent Storage.Absent.
Definition unmounted (st : Storage.t) : World :=
  mkWorld initialState (initialRefs (Some (Canvas.mk 300 150 true))) st.
Definition mounted : World := mount 720 1280 (unmounted emptyStore).
Definition demoCanvas : Canvas.t := Canvas.mk 720 1280 true.
Definition draws : Randoms := mkRandoms 0.3 0.5 0.5 0.5 0.5 0.5 0.5.

(** A running session with an obstacle standing where the player is. *)
Definition crashing : World :=
  mkWorld (state (resetGame mounted))
          (mkRefs (Some demoCanvas) 576 0 true 260
                  [Obstacle.mk 340 18 62 None] 1 [] 1 None
                  (imagesRef (refs mounted)))
          emptyStore.

(** A session whose player is in the air, and a session one tick old. *)
Definition airborne : World :=
  withRefs (setIsOnGround false) (resetGame mounted).
Definition started : World := world (step 1000 draws (resetGame mounted)).

(** The image objects exist, none has loaded. *)
Definition noImages : Assets := imagesRef (refs mounted).

(** A session with score 7, last drawn at 1000 ms, with an obstacle
    standing where the player is. *)
Definition lateCrash : World :=
  mkWorld (setScore 7%Z (state (resetGame mounted)))
          (mkRefs (Some demoCanvas) 576 0 true 260
                  [Obstacle.mk 340 18 62 None] 1 [] 1 (Some 1000)
                  (imagesRef (refs mounted)))
          emptyStore.

(** The same obstacle in a session begun with START, and the world after
    the tick that ends it. *)
Definition crashed : World :=
  world (step 1000 draws
              (mkWorld (state (clickStart mounted)) (refs crashing)
                       emptyStore)).

(** No CSS variable is set: the three fallback colours are used. *)
Definition plainTheme : Theme := mkTheme "" "" "".

(** Only the ground image has loaded, as a 128 x 64 tile. *)
Definition groundOnly : Assets :=
  setImage Ground (Some (Image.mk 128 64)) noImages.

(** Frames 20 ms apart, starting at [start] ms. *)
Definition every20ms (start : Q) (n : nat) : list (Q * Randoms) :=
  map (fun k => (start + 20 * inject_Z (Z.of_nat k), draws)) (seq 0 n).

(** The score list a working store holds: the stored array, or the empty
    array when there is no entry. *)
Definition storedScores (st : Storage.t) : option (list Z) :=
  if Storage.readable st && Storage.writable st
  then match Storage.dinoScores st with
       | Storage.Absent | Storage.Empty => Some []
       | Storage.Text (Js.Ok (Js.Array arr)) => Some arr
       | Storage.Text _ => None
       end
  else None.

(** The comparator of line 137, and the order it sorts into. *)
Definition descending (a b : Z) : Z := (b - a)%Z.
Definition atLeast (a b : Z) : Prop := (b <= a)%Z.

(** Games ending one after the other with the given scores. *)
Definition endGames (scores : list Z) (w : World) : World :=
  fold_left (fun w' s => endGame s w') scores w.

(** Stores whose entries are not what the component writes: a high score
    that is not a number (such as the text "abc"), a score list that is not
    JSON, and a score list that is a JSON string. *)
Definition badHighScore : Storage.t :=
  Storage.mk true true (Storage.Text Js.NaN) Storage.Absent.
Definition badScores : Storage.t :=
  Storage.mk true true Storage.Absent (Storage.Text Js.Throw).
Definition stringScores : Storage.t :=
  Storage.mk true true Storage.Absent
             (Storage.Text (Js.Ok (Js.String_ "oops"))).
Definition unreadable : Storage.t :=
  Storage.mk false false (Storage.Text (Js.Num 7))
             (Storage.Text (Js.Ok (Js.Array [7%Z]))).

(** ** Double precision

    The same constant arithmetic on IEEE-754 binary64 numbers, which is
    what the browser computes with. *)

Module Binary64.

(** [Math.floor] of a finite double, as an integer. *)
Definition floor (x : float) : option Z :=
  match Prim2SF x with
  | S754_zero _ => Some 0%Z
  | S754_finite negative m e =>
      if (0 <=? e)%Z
      then Some (if negative then - Z.shiftl (Zpos m) e
                 else Z.shiftl (Zpos m) e)%Z
      else Some (if negative
                 then - Z.shiftr (Zpos m + Z.shiftl 1 (- e) - 1) (- e)
                 else Z.shiftr (Zpos m) (- e))%Z
  | _ => None
  end.

(** [Math.min] on numbers that are not [NaN]. *)
Definition min (a b : float) : float :=
  if PrimFloat.ltb a b then a else b.

(** Line 211, then the argument of [setScore] on line 215. *)
Definition elapsed (time last : float) : float :=
  min 0.032%float (PrimFloat.div (PrimFloat.sub time last) 1000%float).

Definition points (dt : float) : option Z :=
  floor (PrimFloat.mul dt 100%float).

(** Lines 285, 286 and 300 on the fallback sizes. *)
Definition charShrinkX : option Z :=
  floor (PrimFloat.mul 56%float 0.12%float).
Definition charShrinkY : option Z :=
  floor (PrimFloat.mul 64%float 0.08%float).
Definition obsShrinkX : option Z :=
  floor (PrimFloat.mul 18%float 0.15%float).

End Binary64.

(** ** The mounted component as a transition system

    Every callback the component registers, as an event: the two input
    handlers, the animation-frame callback, the [onClick] of the buttons
    (PLAY AGAIN runs the code of START; a tap beside the leaderboard runs the
    code of CLOSE), the [ResizeObserver] callback, and the [onload] of an
    image. *)
Inductive Event : Type :=
| KeyDown (code : KeyCode)
| PointerDown
| AnimationFrame (time : Q) (rnd : Randoms)
| Start
| Leaderboard
| Close
| Menu
| Resized (parentWidth parentHeight : Z)
| ImageLoaded (key : AssetKey) (width height : Z).

Definition handle (e : Event) (w : World) : World :=
  match e with
  | KeyDown code => handleKeyDown code w
  | PointerDown => handlePointer w
  | AnimationFrame time rnd => world (step time rnd w)
  | Start => clickStart w
  | Leaderboard => clickLeaderboard w
  | Close => clickClose w
  | Menu => clickMenu w
  | Resized parentWidth parentHeight => resize parentWidth parentHeight w
  | ImageLoaded key width height => imageLoaded key width height w
  end.

Definition run (events : list Event) (w : World) : World :=
  fold_left (fun w' e => handle e w') events w.

(** The number of entries of the [topScores] state. *)
Definition entries (top : TopScores) : nat :=
  match top with
  | Nums arr => List.length arr
  | Chars s => String.length s
  end.

(** The random draws lie in [0, 1), as [Math.random()] promises. *)
Definition fraction (r : Q) : Prop := 0 <= r /\ r < 1.
Definition validDraws (rnd : Randoms) : Prop :=
  fraction (rTree rnd) /\ fraction (rHeight rnd) /\ fraction (rSpawn rnd)
  /\ fraction (rCloudScale rnd) /\ fraction (rCloudY rnd)
  /\ fraction (rCloudSpeed rnd) /\ fraction (rCloudSpawn rnd).

(** One rectangle lies inside another. *)
Definition inside (a b : Rect) : Prop :=
  left b <= left a /\ left a + wide a <= left b + wide b
  /\ top b <= top a /\ top a + high a <= top b + high b.

(** The player is on or above the ground line, its speed is what a fall from
    the top of a jump gives at most, and a grounded player rests on the
    line. *)
Definition arcOk (G y vy : Q) (onGround : bool) : Prop :=
  y <= G
  /\ vy * vy <= 2700 * (y - G) + 313600
  /\ (onGround = true -> y == G /\ vy == 0).

Definition physicsOk (w : World) : Prop :=
  match canvasRef (refs w) with
  | Some canvas =>
      arcOk (groundLine canvas) (playerYRef (refs w)) (playerVyRef (refs w))
            (isOnGroundRef (refs w))
  | None => True
  end.

(** How the high score of a later world relates to that of an earlier one:
    a number only grows, and what is not a number stays what it is. *)
Definition highScoreKept (before after : Js.num) : Prop :=
  match before with
  | Js.Num p => exists q : Q, after = Js.Num q /\ p <= q
  | Js.NaN => after = Js.NaN
  | Js.Infinity false => after = Js.Infinity false
  | Js.Infinity true => True
  end.

(** The refs with other clouds and another cloud timer. *)
Definition withClouds (clouds : list Cloud.t) (timer : Q) (r : Refs) : Refs :=
  mkRefs (canvasRef r) (playerYRef r) (playerVyRef r) (isOnGroundRef r)
         (speedRef r) (obstaclesRef r) (spawnTimerRef r) clouds timer
         (lastTimeRef r) (imagesRef r).

(** The random draws with other draws for the cloud. *)
Definition withCloudDraws (scale y speed spawn : Q) (rnd : Randoms)
  : Randoms :=
  mkRandoms (rTree rnd) (rHeight rnd) (rSpawn rnd) scale y speed spawn.

(** Two sets of refs agree on all but the clouds and their timer. *)
Definition sameGame (r1 r2 : Refs) : Prop :=
  canvasRef r1 = canvasRef r2 /\ playerYRef r1 = playerYRef r2
  /\ playerVyRef r1 = playerVyRef r2 /\ isOnGroundRef r1 = isOnGroundRef r2
  /\ speedRef r1 = speedRef r2 /\ obstaclesRef r1 = obstaclesRef r2
  /\ spawnTimerRef r1 = spawnTimerRef r2 /\ lastTimeRef r1 = lastTimeRef r2
  /\ imagesRef r1 = imagesRef r2.

(** ** Callbacks and the renders they were created in

    The effect of lines 203-408 creates a new [step] each time it runs.
    The callback closes over [isRunning], [score], [highScore] and
    [endGame] of that render, and [endGame] over the same [score]
    (line 141).  Line 403 asks for the next frame with the same callback
    and drops the request id, so the callback of an earlier render goes on
    running after the effect has run again. *)
Record Closure : Type := mkClosure {
  capturedRunning : bool;
  capturedScore : Z;
  capturedHighScore : Js.num
}.

Definition closureOf (s : State) : Closure :=
  mkClosure (isRunning s) (score s) (highScore s).

(** Lines 209-404 for the callback with closure [c], called in world [w]:
    [setScore] updates the current score (line 215 passes a function),
    [endGame] records the captured one. *)
Definition callback (c : Closure) (time : Q) (rnd : Randoms) (w : World)
  : Tick :=
  match canvasRef (refs w) with
  | None => mkTick w false false
  | Some canvas =>
      let running := capturedRunning c in
      let dt := elapsed time (lastTimeRef (refs w)) in
      let st :=
        if running
        then setScore (score (state w) + Qfloor (dt * 100))%Z (state w)
        else state w in
      let r := simulate canvas time rnd (refs w) in
      let player := playerHitbox canvas (imagesRef r) (playerYRef r) in
      let w' := mkWorld st r (localStorage w) in
      if running && existsb (collides canvas player) (obstaclesRef r)
      then mkTick (endGame (capturedScore c) w') true false
      else mkTick w' false running
  end.

(** The same tick with its drawing: lines 400-401 print the captured score
    and high score. *)
Definition callbackAndDraw (c : Closure) (theme : Theme) (time : Q)
           (rnd : Randoms) (w : World) (p : Paint)
  : Tick * Paint * list Command :=
  let t := callback c time rnd w in
  match canvasRef (refs w) with
  | Some canvas =>
      if endGameCalled t then (t, p, [])
      else let '(p', calls) :=
             render theme canvas (elapsed time (lastTimeRef (refs w)))
                    (refs (world t)) (capturedScore c) (capturedHighScore c)
                    p in
           (t, p', calls)
  | None => (t, p, [])
  end.

(** [Object.is] on two numbers, by which React compares a dependency with
    its value at the render before (the sign of zero aside). *)
Definition sameValue (a b : Js.num) : bool :=
  match a, b with
  | Js.Num p, Js.Num q => Qeq_bool p q
  | Js.NaN, Js.NaN => true
  | Js.Infinity s, Js.Infinity s' => Bool.eqb s s'
  | _, _ => false
  end.

(** Line 408: after a render the effect runs again when one of [endGame],
    [highScore], [isRunning], [score] is not what it was at the render
    before; [endGame] is another function exactly when [score] is another
    number (line 141).  [showMenu] is not on the list. *)
Definition effectRuns (before after : State) : bool :=
  negb ((score before =? score after)%Z
        && sameValue (highScore before) (highScore after)
        && Bool.eqb (isRunning before) (isRunning after)).

(** A pending [requestAnimationFrame]: the callback to run, and whether it
    is the request of line 406 made by the latest run of the effect, the
    only one whose id is kept (for the clean-up of line 407). *)
Record Request : Type := mkRequest {
  requested : Closure;
  firstOfEffect : bool
}.

(** The mounted component and the frame requests that wait for the next
    animation frame, oldest first. *)
Record Page : Type := mkPage {
  current : World;
  pending : list Request
}.

(** One run of the effect: the clean-up of the run before cancels the
    request whose id it has kept, if that is still pending; then lines
    204-208 and 406. *)
Definition runEffect (w : World) (queue : list Request) : list Request :=
  filter (fun q => negb (firstOfEffect q)) queue
  ++ (if renderLoopStarts w
      then [mkRequest (closureOf (state w)) true]
      else []).

(** The render that follows a change of state. *)
Definition commit (before : State) (w : World) (queue : list Request)
  : list Request :=
  if effectRuns before (state w) then runEffect w queue else queue.

(** Mounting: the effects that run once, then the first run of the effect
    of lines 203-408. *)
Definition mountPage (parentWidth parentHeight : Z) (w : World) : Page :=
  let m := mount parentWidth parentHeight w in
  mkPage m (runEffect m []).

(** A handler of the component runs, and the component renders again. *)
Definition afterHandler (h : World -> World) (p : Page) : Page :=
  let w := h (current p) in
  mkPage w (commit (state (current p)) w (pending p)).

(** The callbacks of one animation frame, in the order they were requested,
    all with the time stamp of the frame; [rnds n] are the random draws of
    the [n]-th of them.  A callback that reaches line 403 is pending again,
    with an id nobody keeps. *)
Fixpoint runCallbacks (time : Q) (rnds : nat -> Randoms) (n : nat)
         (queue : list Request) (w : World) : World * list Request :=
  match queue with
  | [] => (w, [])
  | q :: rest =>
      let t := callback (requested q) time (rnds n) w in
      let (w', again) := runCallbacks time rnds (S n) rest (world t) in
      (w', if frameRequested t
           then mkRequest (requested q) false :: again
           else again)
  end.

(** One animation frame, and the render that follows it. *)
Definition animationFrame (time : Q) (rnds : nat -> Randoms) (p : Page)
  : Page :=
  let (w, again) := runCallbacks time rnds 0 (pending p) (current p) in
  mkPage w (commit (state (current p)) w again).

(** Animation frames with the given time stamps, one after the other. *)
Definition animationFrames (times : list Q) (rnds : nat -> Randoms)
           (p : Page) : Page :=
  fold_left (fun p' time => animationFrame time rnds p') times p.

(** How many callbacks each of these frames runs. *)
Fixpoint callbacksPerFrame (times : list Q) (rnds : nat -> Randoms)
         (p : Page) : list nat :=
  match times with
  | [] => []
  | time :: rest =>
      List.length (pending p)
      :: callbacksPerFrame rest rnds (animationFrame time rnds p)
  end.

(** A session begun with START in which an obstacle is a few frames ahead
    of the player, and its page right after START: one request, the one the
    effect has made. *)
Definition approaching : World :=
  mkWorld (state (clickStart mounted))
          (mkRefs (Some demoCanvas) 576 0 true 260
                  [Obstacle.mk 398 18 62 None] 1 [] 1 None
                  (imagesRef (refs mounted)))
          emptyStore.
Definition approachingPage : Page :=
  mkPage approaching [mkRequest (closureOf (state approaching)) true].

(** A session one tick old whose score has reached 7. *)
Definition scored : World := withState (setScore 7%Z) started.

(** ** The leaderboard overlay (lines 463-476)

    The rows of the list, rank and score (for an empty list the overlay
    shows the line "No scores yet" and no row).  [topScores.map] is not a
    function when [topScores] is a string, so rendering the overlay
    throws. *)
Definition leaderboardRows (s : State) : Js.result (list (Z * Z)) :=
  if showLeaderboard s
  then match topScores s with
       | Nums arr =>
           Js.Ok (combine (map (fun i => Z.of_nat (S i))
                               (seq 0 (List.length arr)))
                          arr)
       | Chars _ => Js.Throw
       end
  else Js.Ok [].

(** * Properties *)

(** ** Comparisons *)

Lemma leb_le (a b : Q) : Js.leb a b = true <-> a <= b.
Proof. apply Qle_bool_iff. Qed.

Lemma leb_gt (a b : Q) : Js.leb a b = false <-> b < a.
Proof.
  unfold Js.leb. split; intro H.
  - apply Qnot_le_lt. intro L. apply Qle_bool_iff in L. congruence.
  - destruct (Qle_bool a b) eqn:E; [|reflexivity].
    apply Qle_bool_iff in E. exfalso. exact (Qlt_not_le _ _ H E).
Qed.

Lemma ltb_lt (a b : Q) : Js.ltb a b = true <-> a < b.
Proof.
  unfold Js.ltb. rewrite negb_true_iff. apply (leb_gt b a).
Qed.

(** ** Jump *)

(** C9: a jump changes nothing unless the player is on the ground, the
    session is running and the game is not over; in particular an airborne
    player keeps velocity, position and grounded flag. *)
Theorem jump_gated (w : World) :
  isOnGroundRef (refs w) = false \/ isRunning (state w) = false
  \/ isGameOver (state w) = true ->
  jump w = w
  /\ playerVyRef (refs (jump w)) = playerVyRef (refs w)
  /\ playerYRef (refs (jump w)) = playerYRef (refs w)
  /\ isOnGroundRef (refs (jump w)) = isOnGroundRef (refs w).
Proof.
  intro H.
  assert (E : jump w = w).
  { unfold jump.
    destruct H as [H | [H | H]]; rewrite H;
      rewrite ?andb_false_r; reflexivity. }
  rewrite E. repeat split.
Qed.

Lemma jump_gated_witness :
  jump airborne = airborne
  /\ playerVyRef (refs (jump airborne)) = playerVyRef (refs airborne)
  /\ playerYRef (refs (jump airborne)) = playerYRef (refs airborne)
  /\ isOnGroundRef (refs (jump airborne)) = isOnGroundRef (refs airborne).
Proof.
  apply (jump_gated airborne). left. reflexivity.
Defined.

(** The same through the input handlers: while the session runs, a key
    press or a pointer press with the player in the air changes nothing. *)
Lemma press_while_airborne (code : KeyCode) (w : World) :
  isOnGroundRef (refs w) = false ->
  isRunning (state w) = true ->
  handleKeyDown code w = w /\ handlePointer w = w.
Proof.
  intros G R.
  assert (E : restartOrJump w = w).
  { unfold restartOrJump, jump. rewrite G, R. reflexivity. }
  unfold handleKeyDown, handlePointer. rewrite E.
  destruct (showMenu (state w) || showLeaderboard (state w)), code;
    split; reflexivity.
Qed.

(** C10: a jump of a grounded player in a running session that is not over
    sets the vertical velocity to -560 and clears the grounded flag; every
    other ref, the React state and the store stay as they were. *)
Theorem jump_takes_off (w : World) :
  isOnGroundRef (refs w) = true ->
  isRunning (state w) = true ->
  isGameOver (state w) = false ->
  jump w =
  mkWorld (state w)
          (mkRefs (canvasRef (refs w)) (playerYRef (refs w)) (-560) false
                  (speedRef (refs w)) (obstaclesRef (refs w))
                  (spawnTimerRef (refs w)) (cloudsRef (refs w))
                  (cloudSpawnTimerRef (refs w)) (lastTimeRef (refs w))
                  (imagesRef (refs w)))
          (localStorage w).
Proof.
  intros G R O. unfold jump. rewrite G, R, O. reflexivity.
Qed.

Lemma jump_takes_off_witness :
  playerVyRef (refs (jump (resetGame mounted))) = -560
  /\ isOnGroundRef (refs (jump (resetGame mounted))) = false.
Proof.
  rewrite (jump_takes_off (resetGame mounted));
    [split; reflexivity | reflexivity ..].
Defined.

(** ** What a tick leaves alone *)

Lemma recordScore_refs (s : Z) (w : World) : refs (recordScore s w) = refs w.
Proof.
  unfold recordScore, Storage.getScores, Storage.setScores.
  destruct (Storage.readable (localStorage w)); [|reflexivity].
  cbn. destruct (parseScores _) as [[l | t | ] | ]; cbn; try reflexivity.
  destruct (Storage.writable (localStorage w)); reflexivity.
Qed.

Lemma endGame_refs (s : Z) (w : World) : refs (endGame s w) = refs w.
Proof. unfold endGame. rewrite recordScore_refs. reflexivity. Qed.

Lemma recordScore_score (s : Z) (w : World) :
  score (state (recordScore s w)) = score (state w).
Proof.
  unfold recordScore, Storage.getScores, Storage.setScores.
  destruct (Storage.readable (localStorage w)); [|reflexivity].
  cbn. destruct (parseScores _) as [[l | t | ] | ]; cbn; try reflexivity.
  destruct (Storage.writable (localStorage w)); reflexivity.
Qed.

Lemma endGame_score (s : Z) (w : World) :
  score (state (endGame s w)) = score (state w).
Proof. unfold endGame. rewrite recordScore_score. reflexivity. Qed.

(** The refs after a tick are those [simulate] computes, whether or not the
    tick ended the game. *)
Lemma step_refs (canvas : Canvas.t) (time : Q) (rnd : Randoms) (w : World) :
  canvasRef (refs w) = Some canvas ->
  refs (world (step time rnd w)) = simulate canvas time rnd (refs w).
Proof.
  intro C. unfold step. rewrite C.
  destruct (isRunning (state w) && existsb _ _); cbn [world].
  - rewrite endGame_refs. reflexivity.
  - reflexivity.
Qed.

Lemma simulate_canvas (canvas : Canvas.t) (time : Q) (rnd : Randoms)
      (r : Refs) :
  canvasRef (simulate canvas time rnd r) = canvasRef r.
Proof.
  unfold simulate. destruct (integrate _ _ _ _ _) as [[y vy] g]. reflexivity.
Qed.

Lemma step_canvas (canvas : Canvas.t) (time : Q) (rnd : Randoms) (w : World) :
  canvasRef (refs w) = Some canvas ->
  canvasRef (refs (world (step time rnd w))) = Some canvas.
Proof.
  intro C. rewrite (step_refs canvas), simulate_canvas; assumption.
Qed.

Lemma simulate_speed (canvas : Canvas.t) (time : Q) (rnd : Randoms)
      (r : Refs) :
  speedRef (simulate canvas time rnd r)
  = Js.min 560 (speedRef r + elapsed time (lastTimeRef r) * 8).
Proof.
  unfold simulate. destruct (integrate _ _ _ _ _) as [[y vy] g]. reflexivity.
Qed.

Lemma simulate_player (canvas : Canvas.t) (time : Q) (rnd : Randoms)
      (r : Refs) :
  (playerYRef (simulate canvas time rnd r),
   playerVyRef (simulate canvas time rnd r),
   isOnGroundRef (simulate canvas time rnd r))
  = integrate (elapsed time (lastTimeRef r)) (groundLine canvas)
              (playerYRef r) (playerVyRef r) (isOnGroundRef r).
Proof.
  unfold simulate, groundLine.
  destruct (integrate _ _ _ _ _) as [[y vy] g]. reflexivity.
Qed.

(** ** The ground clamp *)

(** C6: after a tick the player is never below the ground line
    [floor(canvas.height / 2) - 64]; and when the integrated position
    reaches the line, the tick leaves the player on it with zero vertical
    velocity and the grounded flag set. *)
Theorem player_stays_above_ground (canvas : Canvas.t) (time : Q)
        (rnd : Randoms) (w : World) :
  canvasRef (refs w) = Some canvas ->
  let groundY :=
    inject_Z (Qfloor (inject_Z (Canvas.height canvas) / 2)) - 64 in
  let dt := elapsed time (lastTimeRef (refs w)) in
  let vy := playerVyRef (refs w) + 1350 * dt in
  let y := playerYRef (refs w) + vy * dt in
  let r' := refs (world (step time rnd w)) in
  playerYRef r' <= groundY
  /\ (groundY <= y ->
      playerYRef r' = groundY /\ playerVyRef r' = 0
      /\ isOnGroundRef r' = true)
  /\ (y < groundY ->
      playerYRef r' = y /\ playerVyRef r' = vy
      /\ isOnGroundRef r' = isOnGroundRef (refs w)).
Proof.
  intros C groundY dt vy y r'.
  pose proof (simulate_player canvas time rnd (refs w)) as P.
  rewrite <- (step_refs canvas time rnd w C) in P.
  fold r' in P. unfold integrate in P.
  fold dt in P. change (groundLine canvas) with groundY in P.
  change (playerVyRef (refs w) + gravityRef * dt) with vy in P.
  change (playerYRef (refs w) + vy * dt) with y in P.
  destruct (Js.leb groundY y) eqn:E; injection P as Ey Ev Eg;
    rewrite Ey, Ev, Eg.
  - apply leb_le in E. split; [apply Qle_refl|].
    split; [intros _; repeat split|].
    intro L. exfalso. exact (Qlt_not_le _ _ L E).
  - apply leb_gt in E. split; [apply Qlt_le_weak, E|].
    split; [|intros _; repeat split].
    intro L. exfalso. exact (Qlt_not_le _ _ E L).
Qed.

Lemma player_stays_above_ground_witness :
  playerYRef (refs (world (step 1000 draws (resetGame mounted)))) <= 576.
Proof.
  exact (proj1 (player_stays_above_ground demoCanvas 1000 draws
                  (resetGame mounted) eq_refl)).
Defined.

(** ** Score *)

Lemma step_score (canvas : Canvas.t) (time : Q) (rnd : Randoms) (w : World) :
  canvasRef (refs w) = Some canvas ->
  isRunning (state w) = true ->
  score (state (world (step time rnd w)))
  = (score (state w)
     + Qfloor (elapsed time (lastTimeRef (refs w)) * 100))%Z.
Proof.
  intros C R. unfold step. rewrite C, R.
  destruct (true && existsb _ _); cbn [world].
  - rewrite endGame_score. reflexivity.
  - reflexivity.
Qed.

Lemma ticks_score (canvas : Canvas.t) (dt : Q) (inputs : list (Q * Randoms)) :
  forall w : World,
    canvasRef (refs w) = Some canvas ->
    runningTicks dt inputs w = true ->
    score (state (ticks inputs w))
    = (score (state w) + Z.of_nat (List.length inputs) * Qfloor (dt * 100))%Z.
Proof.
  induction inputs as [|[time rnd] rest IH]; intros w C H.
  - cbn. lia.
  - cbn [runningTicks] in H.
    apply andb_prop in H. destruct H as [H Hrest].
    apply andb_prop in H. destruct H as [R E].
    apply Qeq_bool_eq in E.
    cbn [ticks]. rewrite (IH _ (step_canvas canvas time rnd w C) Hrest).
    rewrite (step_score canvas time rnd w C R).
    rewrite (Qfloor_comp (_ * 100) (dt * 100)) by (rewrite E; reflexivity).
    cbn [List.length]. lia.
Qed.

(** C3: a tick of a running session with elapsed time [dt], [0 <= dt <=
    0.032], adds exactly [floor(dt * 100)] to the score, so the score does
    not decrease; and 50 consecutive running ticks with [dt = 0.02] add 100. *)
Theorem score_rate (canvas : Canvas.t) (w : World) :
  canvasRef (refs w) = Some canvas ->
  (forall (time : Q) (rnd : Randoms) (dt : Q),
      isRunning (state w) = true ->
      elapsed time (lastTimeRef (refs w)) == dt ->
      0 <= dt -> dt <= 0.032 ->
      score (state (world (step time rnd w)))
      = (score (state w) + Qfloor (dt * 100))%Z
      /\ (score (state w) <= score (state (world (step time rnd w))))%Z)
  /\ (forall inputs : list (Q * Randoms),
         List.length inputs = 50%nat ->
         runningTicks 0.02 inputs w = true ->
         score (state (ticks inputs w)) = (score (state w) + 100)%Z).
Proof.
  intro C. split.
  - intros time rnd dt R E L U.
    rewrite (step_score canvas time rnd w C R).
    rewrite (Qfloor_comp (_ * 100) (dt * 100)) by (rewrite E; reflexivity).
    split; [reflexivity|].
    assert (0 <= Qfloor (dt * 100))%Z; [|lia].
    change 0%Z with (Qfloor 0). apply Qfloor_resp_le.
    apply Qmult_le_0_compat; [exact L | discriminate].
  - intros inputs N H.
    rewrite (ticks_score canvas 0.02 inputs w C H), N. reflexivity.
Qed.

(** A session one tick old, and the 50 frames that follow, 20 ms apart. *)
Lemma score_rate_witness :
  score (state (world (step 1020 draws started))) = 2%Z
  /\ score (state (ticks (every20ms 1020 50) started)) = 100%Z.
Proof.
  destruct (score_rate demoCanvas started eq_refl) as [one fifty].
  split.
  - apply (one 1020 draws 0.02); [reflexivity | reflexivity | discriminate ..].
  - apply (fifty (every20ms 1020 50)); vm_compute; reflexivity.
Defined.

(** ** Scroll speed *)

Lemma step_speed (canvas : Canvas.t) (time : Q) (rnd : Randoms) (w : World) :
  canvasRef (refs w) = Some canvas ->
  speedRef (refs (world (step time rnd w)))
  = Js.min 560 (speedRef (refs w) + elapsed time (lastTimeRef (refs w)) * 8).
Proof.
  intro C. rewrite (step_refs canvas time rnd w C). apply simulate_speed.
Qed.

Lemma speed_grows (v dt : Q) :
  v <= 560 -> 0 <= dt ->
  v <= Js.min 560 (v + dt * 8) /\ Js.min 560 (v + dt * 8) <= 560.
Proof.
  intros B D. unfold Js.min. split.
  - apply Q.min_glb; [exact B|]. lra.
  - apply Q.le_min_l.
Qed.

Lemma speeds_head (inputs : list (Q * Randoms)) (w : World) :
  hd 0 (speeds inputs w) = speedRef (refs w).
Proof. destruct inputs; reflexivity. Qed.

Lemma speeds_sorted (canvas : Canvas.t) (inputs : list (Q * Randoms)) :
  forall w : World,
    canvasRef (refs w) = Some canvas ->
    speedRef (refs w) <= 560 ->
    forward inputs w ->
    Sorted Qle (speeds inputs w)
    /\ Forall (fun v => v <= 560) (speeds inputs w).
Proof.
  induction inputs as [|[time rnd] rest IH]; intros w C B F.
  - cbn. split; repeat constructor. exact B.
  - cbn [forward] in F. destruct F as [D F].
    pose proof (speed_grows _ _ B D) as [Up Bound].
    rewrite <- (step_speed canvas time rnd w C) in Up, Bound.
    destruct (IH _ (step_canvas canvas time rnd w C) Bound F) as [S A].
    cbn [speeds]. split.
    + constructor; [exact S|].
      pose proof (speeds_head rest (world (step time rnd w))) as Hd.
      destruct (speeds rest (world (step time rnd w))) as [|v vs];
        constructor.
      cbn in Hd. rewrite Hd. exact Up.
    + constructor; assumption.
Qed.

Lemma elapsed_nonneg (time : Q) (last : option Q) :
  match last with Some l => l <= time | None => True end ->
  0 <= elapsed time last.
Proof.
  intro H. unfold elapsed, Js.min. apply Q.min_glb; [discriminate|].
  assert (Z : 0 <= (time - time) / 1000).
  { setoid_replace (time - time) with 0 by ring. discriminate. }
  destruct last as [l|]; [|exact Z].
  destruct (Js.truthy l); [|exact Z].
  apply Qle_shift_div_l; [reflexivity|]. lra.
Qed.

Lemma simulate_lastTime (canvas : Canvas.t) (time : Q) (rnd : Randoms)
      (r : Refs) :
  lastTimeRef (simulate canvas time rnd r) = Some time.
Proof.
  unfold simulate. destruct (integrate _ _ _ _ _) as [[y vy] g]. reflexivity.
Qed.

(** Frames in chronological order make a forward run. *)
Lemma chronological_forward (canvas : Canvas.t)
      (inputs : list (Q * Randoms)) :
  forall w : World,
    canvasRef (refs w) = Some canvas ->
    chronological (lastTimeRef (refs w)) inputs ->
    forward inputs w.
Proof.
  induction inputs as [|[time rnd] rest IH]; intros w C H; [exact I|].
  destruct H as [H Hrest]. split; [apply elapsed_nonneg, H|].
  apply IH; [apply (step_canvas canvas), C|].
  rewrite (step_refs canvas time rnd w C), simulate_lastTime. exact Hrest.
Qed.

(** C4: a session starts with scroll speed 260; a tick with elapsed time
    [dt] sets it to [min(560, speed + dt * 8)]; along any run of ticks with
    [dt >= 0] the speed never decreases and never exceeds 560. *)
Theorem speed_session (canvas : Canvas.t) (inputs : list (Q * Randoms))
        (w : World) :
  canvasRef (refs w) = Some canvas ->
  forward inputs (resetGame w) ->
  speedRef (refs (resetGame w)) = 260
  /\ (forall (time : Q) (rnd : Randoms) (w' : World),
         canvasRef (refs w') = Some canvas ->
         speedRef (refs (world (step time rnd w')))
         = Qmin 560 (speedRef (refs w')
                     + elapsed time (lastTimeRef (refs w')) * 8))
  /\ Sorted Qle (speeds inputs (resetGame w))
  /\ Forall (fun v => v <= 560) (speeds inputs (resetGame w)).
Proof.
  intros C F.
  assert (S : speedRef (refs (resetGame w)) = 260).
  { unfold resetGame. rewrite C. reflexivity. }
  assert (C' : canvasRef (refs (resetGame w)) = Some canvas).
  { unfold resetGame. rewrite C. reflexivity. }
  split; [exact S|]. split.
  - intros time rnd w' Cw. apply (step_speed canvas time rnd w' Cw).
  - apply (speeds_sorted canvas inputs (resetGame w) C'); [|exact F].
    rewrite S. discriminate.
Qed.

Lemma speed_session_witness :
  Sorted Qle (speeds (every20ms 1000 3) (resetGame mounted))
  /\ Forall (fun v => v <= 560) (speeds (every20ms 1000 3) (resetGame mounted)).
Proof.
  apply (speed_session demoCanvas (every20ms 1000 3) mounted eq_refl).
  vm_compute. repeat split; discriminate.
Defined.

(** ** Collision *)

Lemma noOverlap_false (c o : Rect) : noOverlap c o = false <-> overlaps c o.
Proof.
  unfold noOverlap, overlaps.
  rewrite !orb_false_iff, !leb_gt. tauto.
Qed.

Lemma collides_overlaps (canvas : Canvas.t) (player : Rect) (o : Obstacle.t) :
  collides canvas player o = true
  <-> overlaps player (obstacleHitbox (obstacleRect canvas o)).
Proof.
  unfold collides. rewrite negb_true_iff. apply noOverlap_false.
Qed.

Lemma recordScore_flags (s : Z) (w : World) :
  isGameOver (state (recordScore s w)) = isGameOver (state w)
  /\ isRunning (state (recordScore s w)) = isRunning (state w).
Proof.
  unfold recordScore, Storage.getScores, Storage.setScores.
  destruct (Storage.readable (localStorage w)); [|split; reflexivity].
  cbn. destruct (parseScores _) as [[l | t | ] | ]; cbn;
    try (split; reflexivity).
  destruct (Storage.writable (localStorage w)); split; reflexivity.
Qed.

Lemma endGame_flags (s : Z) (w : World) :
  isGameOver (state (endGame s w)) = true
  /\ isRunning (state (endGame s w)) = false.
Proof.
  unfold endGame.
  destruct (recordScore_flags s
              (updateHighScore s
                 (withState (fun s0 => setIsRunning false
                                         (setIsGameOver true s0)) w)))
    as [G R].
  rewrite G, R. split; reflexivity.
Qed.

Lemma step_endGameCalled (canvas : Canvas.t) (time : Q) (rnd : Randoms)
      (w : World) :
  canvasRef (refs w) = Some canvas ->
  let r' := refs (world (step time rnd w)) in
  endGameCalled (step time rnd w)
  = isRunning (state w)
    && existsb (collides canvas
                  (playerHitbox canvas (imagesRef r') (playerYRef r')))
               (obstaclesRef r').
Proof.
  intros C r'. unfold r'. rewrite (step_refs canvas time rnd w C).
  unfold step. rewrite C.
  destruct (isRunning (state w) && existsb _ _); reflexivity.
Qed.

(** C2: in a tick of a running session the game ends exactly when the
    player's inset rectangle and the inset rectangle of some live obstacle
    overlap strictly on both axes; ending the game sets the game-over flag
    and stops the session; an obstacle whose inset rectangle lies entirely
    to the right or entirely to the left of the player's does not collide. *)
Theorem collision_iff_overlap (canvas : Canvas.t) (time : Q) (rnd : Randoms)
        (w : World) :
  canvasRef (refs w) = Some canvas ->
  isRunning (state w) = true ->
  let t := step time rnd w in
  let r' := refs (world t) in
  let player := playerHitbox canvas (imagesRef r') (playerYRef r') in
  (endGameCalled t = true
   <-> exists o : Obstacle.t,
         In o (obstaclesRef r')
         /\ overlaps player (obstacleHitbox (obstacleRect canvas o)))
  /\ (endGameCalled t = true ->
      isGameOver (state (world t)) = true
      /\ isRunning (state (world t)) = false)
  /\ (forall o : Obstacle.t,
         let box := obstacleHitbox (obstacleRect canvas o) in
         left player + wide player <= left box
         \/ left box + wide box <= left player ->
         collides canvas player o = false)
  /\ (Forall (fun o =>
                let box := obstacleHitbox (obstacleRect canvas o) in
                left player + wide player <= left box
                \/ left box + wide box <= left player)
             (obstaclesRef r') ->
      endGameCalled t = false).
Proof.
  intros C R t r' player.
  assert (Sep : forall o : Obstacle.t,
             let box := obstacleHitbox (obstacleRect canvas o) in
             left player + wide player <= left box
             \/ left box + wide box <= left player ->
             collides canvas player o = false).
  { intros o box H. unfold collides, noOverlap. fold box.
    destruct H as [H | H]; apply leb_le in H; rewrite H;
      rewrite ?orb_true_r; reflexivity. }
  assert (E : endGameCalled t
              = existsb (collides canvas player) (obstaclesRef r')).
  { unfold t, player, r'. rewrite (step_endGameCalled canvas time rnd w C), R.
    reflexivity. }
  split; [|split; [|split]].
  - rewrite E, existsb_exists. split; intros [o [I H]]; exists o; split;
      try assumption; apply collides_overlaps; assumption.
  - intro H. unfold t in *. unfold step in *. rewrite C in *.
    destruct (isRunning (state w) && existsb _ _); cbn [world endGameCalled] in *.
    + apply endGame_flags.
    + discriminate.
  - exact Sep.
  - intro A. rewrite E.
    destruct (existsb _ _) eqn:X; [|reflexivity].
    apply existsb_exists in X. destruct X as [o [I H]].
    rewrite Forall_forall in A. rewrite (Sep o (A o I)) in H. discriminate.
Qed.

Lemma collision_iff_overlap_witness :
  endGameCalled (step 1000 draws crashing) = true
  /\ isGameOver (state (world (step 1000 draws crashing))) = true
  /\ isRunning (state (world (step 1000 draws crashing))) = false.
Proof.
  split; [reflexivity|].
  exact (proj1 (proj2 (collision_iff_overlap demoCanvas 1000 draws crashing
                         eq_refl eq_refl)) eq_refl).
Defined.

(** ** Collision boxes without images *)

Lemma characterRect_fallback (img : option Image.t) (px py : Q) :
  usable img = false ->
  characterRect img px py = mkRect px py 56 64.
Proof.
  unfold usable, characterRect. destruct (loaded img); [discriminate|].
  reflexivity.
Qed.

(** C1, as the code has it: without a usable character image the player
    is drawn in the full rectangle [(px, py, 56, 64)], and the collision box
    is that rectangle inset by [floor(56 * 0.12) = 6] on either side and
    [floor(64 * 0.08) = 5] above and below; an obstacle spawned without a
    usable tree image is 18 wide, and its collision box is inset by
    [floor(18 * 0.15) = 2] on either side and by [floor(height * 0.05)]
    above and below.  The inset does not depend on the image. *)
Theorem fallback_boxes_are_inset (canvas : Canvas.t) (imgs : Assets)
        (py : Q) (rnd : Randoms) :
  usable (character imgs) = false ->
  usable (if Js.ltb (rTree rnd) 0.5 then tree1 imgs else tree2 imgs) = false ->
  let o := spawnObstacle rnd imgs canvas in
  let shrinkY := inject_Z (Qfloor (Obstacle.height o * 0.05)) in
  characterRect (character imgs) (playerX canvas) py
  = mkRect (playerX canvas) py 56 64
  /\ sameRect (playerHitbox canvas imgs py)
              (mkRect (playerX canvas + 6) (py + 5) 44 54)
  /\ Obstacle.img o = None
  /\ Obstacle.width o = 18
  /\ sameRect (obstacleHitbox (obstacleRect canvas o))
              (mkRect (Obstacle.x o + 2)
                      (groundTop canvas - Obstacle.height o + shrinkY)
                      14
                      (Qmax 1 (Obstacle.height o - shrinkY * 2))).
Proof.
  intros Hc Ht o shrinkY.
  split; [apply characterRect_fallback, Hc|].
  split.
  { unfold playerHitbox. rewrite (characterRect_fallback _ _ _ Hc).
    unfold characterHitbox, sameRect. cbn [left top wide high].
    repeat split; reflexivity. }
  assert (E : o = Obstacle.mk (inject_Z (Canvas.width canvas) + 10) 18
                              (48 + Js.floor (rHeight rnd * 28)) None).
  { unfold o, spawnObstacle. unfold usable in Ht.
    destruct (loaded _); [discriminate | reflexivity]. }
  unfold shrinkY. rewrite E. cbn [Obstacle.img Obstacle.width Obstacle.x Obstacle.height].
  split; [reflexivity|]. split; [reflexivity|].
  unfold obstacleHitbox, obstacleRect, sameRect.
  cbn [left top wide high Obstacle.img Obstacle.width Obstacle.x Obstacle.height].
  repeat split; reflexivity.
Qed.

Lemma fallback_boxes_are_inset_witness :
  sameRect (playerHitbox demoCanvas noImages 576)
           (mkRect (playerX demoCanvas + 6) (576 + 5) 44 54).
Proof.
  exact (proj1 (proj2 (fallback_boxes_are_inset demoCanvas noImages 576 draws
                         eq_refl eq_refl))).
Defined.

(** C1 as stated fails: with no image loaded, the player's collision box on
    a 720 x 1280 canvas is [(338, 581, 44, 54)], not the full rectangle
    [(332, 576, 56, 64)], and the box of the image-less obstacle of the first
    tick is 14 wide, not 18. *)
Lemma full_rectangle_refuted :
  usable (character noImages) = false
  /\ Obstacle.img (spawnObstacle draws noImages demoCanvas) = None
  /\ ~ sameRect (playerHitbox demoCanvas noImages 576)
                (mkRect (playerX demoCanvas) 576 56 64)
  /\ ~ sameRect (obstacleHitbox
                   (obstacleRect demoCanvas
                      (spawnObstacle draws noImages demoCanvas)))
                (obstacleRect demoCanvas
                   (spawnObstacle draws noImages demoCanvas)).
Proof.
  split; [reflexivity|]. split; [reflexivity|].
  split; intros [L _]; vm_compute in L; discriminate.
Qed.

(** ** Re-scheduling *)

Lemma step_frameRequested (canvas : Canvas.t) (time : Q) (rnd : Randoms)
      (w : World) :
  canvasRef (refs w) = Some canvas ->
  frameRequested (step time rnd w)
  = isRunning (state w) && negb (endGameCalled (step time rnd w)).
Proof.
  intro C. unfold step. rewrite C.
  destruct (isRunning (state w)); cbn [andb].
  - destruct (existsb _ _); reflexivity.
  - reflexivity.
Qed.

(** ** Loading from storage *)

(** Where the two loads do fall back on the defaults: when reading the
    store throws, neither load changes anything, so the high score stays 0
    and the score list empty as at mount; the same holds for the high score
    when its entry is missing or empty, and for the score list when its
    text is not JSON or is a JSON value without [slice]; a missing or empty
    score entry gives the empty list.  In each case the body of the [try]
    either throws, and the effect returns normally, or does not throw. *)
Theorem load_falls_back (w : World) :
  highScore (state w) = Js.Num 0 ->
  topScores (state w) = Nums [] ->
  (Storage.readable (localStorage w) = false ->
   tryLoadHighScore w = Js.Throw /\ tryLoadTopScores w = Js.Throw
   /\ loadHighScore w = w /\ loadTopScores w = w)
  /\ (Storage.dinoHighScore (localStorage w) = Storage.Absent
      \/ Storage.dinoHighScore (localStorage w) = Storage.Empty ->
      highScore (state (loadHighScore w)) = Js.Num 0)
  /\ (Storage.dinoScores (localStorage w) = Storage.Absent
      \/ Storage.dinoScores (localStorage w) = Storage.Empty
      \/ Storage.dinoScores (localStorage w) = Storage.Text Js.Throw
      \/ Storage.dinoScores (localStorage w)
         = Storage.Text (Js.Ok Js.OtherValue) ->
      topScores (state (loadTopScores w)) = Nums []).
Proof.
  intros H0 T0. split; [|split].
  - intro R.
    unfold loadHighScore, loadTopScores, tryLoadHighScore, tryLoadTopScores,
      Storage.getHighScore, Storage.getScores.
    rewrite R. repeat split.
  - intro A.
    unfold loadHighScore, tryLoadHighScore, Storage.getHighScore.
    destruct (Storage.readable (localStorage w)); [|exact H0].
    destruct A as [A | A]; rewrite A; exact H0.
  - intro A.
    unfold loadTopScores, tryLoadTopScores, Storage.getScores.
    destruct (Storage.readable (localStorage w)); [|exact T0].
    destruct A as [A | [A | [A | A]]]; rewrite A; cbn;
      first [exact T0 | reflexivity].
Qed.

Lemma load_falls_back_witness :
  loadHighScore (unmounted unreadable) = unmounted unreadable
  /\ loadTopScores (unmounted unreadable) = unmounted unreadable
  /\ topScores (state (loadTopScores (unmounted badScores))) = Nums [].
Proof.
  split; [|split].
  - apply (load_falls_back (unmounted unreadable) eq_refl eq_refl).
    reflexivity.
  - apply (load_falls_back (unmounted unreadable) eq_refl eq_refl).
    reflexivity.
  - apply (load_falls_back (unmounted badScores) eq_refl eq_refl).
    right. right. left. reflexivity.
Defined.

(** C8 fails on stored data that is not what the component writes, although
    every read is wrapped in [try]/[catch].  A stored high score that is not
    a number (the text "abc") is loaded as [NaN], not as 0, and stays [NaN]
    after a game however high its score.  A stored score list that is a
    JSON string is loaded into [topScores] as a string, not as the empty
    list, and rendering the leaderboard then throws. *)
Theorem corrupt_data_is_loaded :
  highScore (state (loadHighScore (unmounted badHighScore))) = Js.NaN
  /\ highScore (state (mount 720 1280 (unmounted badHighScore))) <> Js.Num 0
  /\ highScore (state (endGame 42 (mount 720 1280 (unmounted badHighScore))))
     = Js.NaN
  /\ topScores (state (loadTopScores (unmounted stringScores)))
     = Chars "oops"
  /\ topScores (state (mount 720 1280 (unmounted stringScores))) <> Nums []
  /\ leaderboardRows
       (state (clickLeaderboard (mount 720 1280 (unmounted stringScores))))
     = Js.Throw
  /\ leaderboardRows (state (clickLeaderboard mounted)) = Js.Ok [].
Proof. vm_compute. repeat split; discriminate. Qed.

(** ** The top-score list *)

Lemma insert_perm (a : Z) (arr : list Z) :
  Permutation (Js.insert descending a arr) (a :: arr).
Proof.
  induction arr as [|b rest IH]; cbn; [reflexivity|].
  destruct (descending a b <=? 0)%Z; [reflexivity|].
  rewrite IH. apply perm_swap.
Qed.

Lemma sort_perm (arr : list Z) : Permutation (Js.sort descending arr) arr.
Proof.
  induction arr as [|a rest IH]; cbn; [reflexivity|].
  fold (Js.sort descending rest). rewrite insert_perm, IH. reflexivity.
Qed.

Lemma insert_sorted (a : Z) (arr : list Z) :
  StronglySorted atLeast arr -> StronglySorted atLeast (Js.insert descending a arr).
Proof.
  induction 1 as [|b rest S IH F]; cbn; [repeat constructor|].
  unfold descending at 1.
  destruct (b - a <=? 0)%Z eqn:E.
  - apply Z.leb_le in E. constructor; [constructor; assumption|].
    constructor; [unfold atLeast; lia|].
    eapply Forall_impl; [|exact F]. unfold atLeast. intros; lia.
  - apply Z.leb_gt in E. constructor; [exact IH|].
    apply (Permutation_Forall (Permutation_sym (insert_perm a rest))).
    constructor; [unfold atLeast; lia | exact F].
Qed.

Lemma sort_sorted (arr : list Z) : StronglySorted atLeast (Js.sort descending arr).
Proof.
  induction arr as [|a rest IH]; cbn; [constructor|].
  apply insert_sorted, IH.
Qed.

(** A list has one descending arrangement. *)
Lemma sorted_unique (l1 : list Z) :
  forall l2 : list Z,
    StronglySorted atLeast l1 -> StronglySorted atLeast l2 -> Permutation l1 l2 ->
    l1 = l2.
Proof.
  induction l1 as [|a l1 IH]; intros l2 S1 S2 P.
  - apply Permutation_nil in P. congruence.
  - destruct l2 as [|b l2].
    + apply Permutation_sym, Permutation_nil in P. discriminate.
    + inversion S1 as [|? ? S1' F1]; inversion S2 as [|? ? S2' F2]; subst.
      assert (a = b).
      { rewrite Forall_forall in F1, F2. unfold atLeast in F1, F2.
        assert (Ia : In a (b :: l2))
          by (eapply Permutation_in; [exact P | left; reflexivity]).
        assert (Ib : In b (a :: l1))
          by (eapply Permutation_in;
              [apply Permutation_sym; exact P | left; reflexivity]).
        destruct Ia as [-> | Ia]; [reflexivity|].
        destruct Ib as [-> | Ib]; [reflexivity|].
        specialize (F1 _ Ib). specialize (F2 _ Ia). lia. }
      subst b. f_equal. apply IH; try assumption.
      eapply Permutation_cons_inv; exact P.
Qed.

Lemma sort_snoc (arr : list Z) (a : Z) :
  Js.sort descending (arr ++ [a])
  = Js.insert descending a (Js.sort descending arr).
Proof.
  apply sorted_unique.
  - apply sort_sorted.
  - apply insert_sorted, sort_sorted.
  - rewrite sort_perm, insert_perm, sort_perm.
    apply Permutation_sym, Permutation_cons_append.
Qed.

Lemma sort_of_sorted (arr : list Z) :
  StronglySorted atLeast arr -> Js.sort descending arr = arr.
Proof.
  intro S. apply sorted_unique; [apply sort_sorted | exact S | apply sort_perm].
Qed.

Lemma firstn_sorted (n : nat) (arr : list Z) :
  StronglySorted atLeast arr -> StronglySorted atLeast (firstn n arr).
Proof.
  intro S. revert n. induction S as [|a rest S IH F]; intro n.
  - rewrite firstn_nil. constructor.
  - destruct n; cbn; constructor; [apply IH|].
    rewrite Forall_forall in *. intros x I. apply F.
    rewrite <- (firstn_skipn n rest). apply in_or_app. left. exact I.
Qed.

(** What is cut off does not matter to where a new score goes. *)
Lemma firstn_insert (a : Z) (n : nat) :
  forall arr : list Z,
    firstn n (Js.insert descending a (firstn n arr))
    = firstn n (Js.insert descending a arr).
Proof.
  induction n as [|n IH]; intro arr; [reflexivity|].
  destruct arr as [|b rest]; [reflexivity|].
  cbn [firstn Js.insert].
  destruct (descending a b <=? 0)%Z; cbn [firstn]; f_equal.
  - destruct n; [reflexivity|]. rewrite !firstn_cons. f_equal.
    rewrite firstn_firstn. f_equal. lia.
  - apply IH.
Qed.

(** Cutting to ten after every score gives the ten first of the sorted
    list of all scores. *)
Lemma top10_step (seen : list Z) (a : Z) :
  firstn 10 (Js.sort descending (firstn 10 (Js.sort descending seen) ++ [a]))
  = firstn 10 (Js.sort descending (seen ++ [a])).
Proof.
  rewrite !sort_snoc.
  rewrite (sort_of_sorted (firstn 10 _))
    by (apply firstn_sorted, sort_sorted).
  apply firstn_insert.
Qed.

Lemma endGame_stored (s : Z) (l : list Z) (w : World) :
  storedScores (localStorage w) = Some l ->
  topScores (state (endGame s w))
  = Nums (firstn 10 (Js.sort descending (l ++ [s])))
  /\ storedScores (localStorage (endGame s w))
     = Some (firstn 10 (Js.sort descending (l ++ [s]))).
Proof.
  unfold storedScores. intro H.
  destruct (Storage.readable (localStorage w)) eqn:R; [|discriminate].
  destruct (Storage.writable (localStorage w)) eqn:W; [|discriminate].
  cbn [andb] in H.
  unfold endGame, recordScore, updateHighScore, Storage.getScores,
    Storage.setScores, Storage.setHighScore.
  cbn [localStorage withState withStorage]. rewrite W.
  cbn [Js.try_catch localStorage withStorage Storage.readable
         Storage.writable Storage.dinoScores].
  rewrite R.
  destruct (Storage.dinoScores (localStorage w)) as [| | [[arr | t | ] | ]];
    try discriminate; injection H as <-; split; reflexivity.
Qed.

Lemma endGames_stored (scores : list Z) :
  forall (seen : list Z) (w : World),
    storedScores (localStorage w)
    = Some (firstn 10 (Js.sort descending seen)) ->
    (scores <> [] ->
     topScores (state (endGames scores w))
     = Nums (firstn 10 (Js.sort descending (seen ++ scores))))
    /\ storedScores (localStorage (endGames scores w))
       = Some (firstn 10 (Js.sort descending (seen ++ scores))).
Proof.
  induction scores as [|s rest IH]; intros seen w H.
  - cbn. rewrite app_nil_r. split; [congruence | exact H].
  - destruct (endGame_stored s _ w H) as [T S].
    rewrite top10_step in T, S.
    destruct (IH (seen ++ [s]) (endGame s w) S) as [T' S'].
    rewrite <- app_assoc in T', S'. cbn [app] in T', S'.
    cbn [endGames fold_left]. fold (endGames rest (endGame s w)).
    split; [intros _ | exact S'].
    destruct rest as [|s' rest']; [|apply T'; discriminate].
    cbn. rewrite T. reflexivity.
Qed.

(** C5: ending a game with score [s] on a working store that holds the
    list [l] sorts [l] with [s] appended in descending order, keeps the first
    ten, and writes the result to the store and to the [topScores] state; on
    an empty list the result is [[s]]; after eleven games from an empty list
    the ten largest of the eleven scores remain, in descending order. *)
Theorem top_scores_recorded (w : World) (l : list Z) :
  storedScores (localStorage w) = Some l ->
  (forall s : Z,
      let top := firstn 10 (Js.sort descending (l ++ [s])) in
      topScores (state (endGame s w)) = Nums top
      /\ storedScores (localStorage (endGame s w)) = Some top
      /\ StronglySorted atLeast
                        (Js.sort descending (l ++ [s]))
      /\ Permutation (Js.sort descending (l ++ [s])) (l ++ [s])
      /\ (List.length top <= 10)%nat)
  /\ (l = [] ->
      (forall s : Z, topScores (state (endGame s w)) = Nums [s])
      /\ (forall scores : list Z,
             List.length scores = 11%nat ->
             exists (top : list Z) (least : Z),
               topScores (state (endGames scores w)) = Nums top
               /\ storedScores (localStorage (endGames scores w)) = Some top
               /\ List.length top = 10%nat
               /\ Permutation (top ++ [least]) scores
               /\ Forall (fun a => (least <= a)%Z) top
               /\ StronglySorted atLeast top)).
Proof.
  intro H. split.
  - intros s top. destruct (endGame_stored s l w H) as [T S].
    repeat split; try assumption.
    + apply sort_sorted.
    + apply sort_perm.
    + apply firstn_le_length.
  - intros ->. split.
    + intro s. destruct (endGame_stored s [] w H) as [T _]. exact T.
    + intros scores N.
      destruct (endGames_stored scores [] w H) as [T S]. cbn [app] in T, S.
      pose proof (sort_sorted scores) as Srt.
      pose proof (sort_perm scores) as P.
      assert (N' : List.length (Js.sort descending scores) = 11%nat)
        by (rewrite (Permutation_length P); exact N).
      rewrite <- (firstn_skipn 10 (Js.sort descending scores)) in Srt, P.
      destruct (skipn 10 (Js.sort descending scores)) as [|least tl] eqn:K.
      { apply (f_equal (@List.length Z)) in K. rewrite length_skipn, N' in K.
        discriminate. }
      destruct tl as [|x tl].
      2:{ apply (f_equal (@List.length Z)) in K. rewrite length_skipn, N' in K.
          discriminate. }
      exists (firstn 10 (Js.sort descending scores)), least.
      split; [apply T; intros ->; discriminate|].
      split; [exact S|].
      split; [rewrite length_firstn, N'; reflexivity|].
      split; [exact P|].
      split.
      * clear -Srt. induction (firstn 10 (Js.sort descending scores))
          as [|a rest IH]; [constructor|].
        cbn [app] in Srt. inversion Srt as [|? ? S' F]; subst.
        constructor; [|apply IH, S'].
        rewrite Forall_forall in F. apply F, in_or_app. right. left.
        reflexivity.
      * apply firstn_sorted, sort_sorted.
Qed.

Lemma top_scores_recorded_witness :
  topScores (state (endGame 5 mounted)) = Nums [5%Z]
  /\ exists (top : list Z) (least : Z),
       topScores
         (state (endGames [30; 10; 50; 20; 40; 70; 60; 90; 80; 110; 100]%Z
                          mounted))
       = Nums top
       /\ storedScores
            (localStorage
               (endGames [30; 10; 50; 20; 40; 70; 60; 90; 80; 110; 100]%Z
                         mounted))
          = Some top
       /\ List.length top = 10%nat
       /\ Permutation (top ++ [least])
                      [30; 10; 50; 20; 40; 70; 60; 90; 80; 110; 100]%Z
       /\ Forall (fun a => (least <= a)%Z) top
       /\ StronglySorted atLeast top.
Proof.
  destruct (top_scores_recorded mounted [] eq_refl) as [_ E].
  destruct (E eq_refl) as [One Eleven].
  split; [apply One | apply Eleven; reflexivity].
Defined.

(** The eleven games of the witness, evaluated: the score 10 is dropped. *)
Example eleven_games :
  topScores
    (state (endGames [30; 10; 50; 20; 40; 70; 60; 90; 80; 110; 100]%Z mounted))
  = Nums [110; 100; 90; 80; 70; 60; 50; 40; 30; 20]%Z.
Proof. reflexivity. Qed.

(** ** Agreement with double precision *)

(** The products the properties above rest on have the same integer part in
    binary64 as in exact arithmetic. *)
Example binary64_points :
  Binary64.points 0.02%float = Some (Qfloor (0.02 * 100))
  /\ Binary64.points (Binary64.elapsed 1040%float 1020%float) = Some 2%Z
  /\ Binary64.points (Binary64.elapsed 5000%float 1020%float)
     = Some (Qfloor (0.032 * 100)).
Proof. repeat split. Qed.

Example binary64_insets :
  Binary64.charShrinkX = Some (Qfloor (56 * 0.12))
  /\ Binary64.charShrinkY = Some (Qfloor (64 * 0.08))
  /\ Binary64.obsShrinkX = Some (Qfloor (18 * 0.15)).
Proof. repeat split. Qed.

(** * Further properties of the component *)

(** ** The shape of the persistence operations *)

Lemma recordScore_shape (s : Z) (w : World) :
  recordScore s w = w
  \/ exists (arr : list Z) (st : Storage.t),
       recordScore s w
       = withState (setTopScores (Nums (firstn 10 arr))) (withStorage st w)
       /\ Storage.readable (localStorage w) = true
       /\ Storage.writable (localStorage w) = true
       /\ st = Storage.mk true true (Storage.dinoHighScore (localStorage w))
                          (Storage.Text (Js.Ok (Js.Array (firstn 10 arr)))).
Proof.
  unfold recordScore, Storage.getScores, Storage.setScores, Js.bind,
    Js.try_catch, pushAndSort.
  destruct (Storage.readable (localStorage w)) eqn:R; [|left; reflexivity].
  destruct (parseScores _) as [[l | t | ] | ]; try (left; reflexivity).
  destruct (Storage.writable (localStorage w)) eqn:W; [|left; reflexivity].
  right. eexists. eexists. split; [reflexivity|]. repeat split.
Qed.

Lemma loadTopScores_shape (w : World) :
  loadTopScores w = w
  \/ exists top : TopScores,
       loadTopScores w = withState (setTopScores top) w
       /\ (entries top <= 10)%nat.
Proof.
  unfold loadTopScores, tryLoadTopScores, Storage.getScores, Js.bind,
    Js.try_catch, slice10.
  destruct (Storage.readable (localStorage w)); [|left; reflexivity].
  destruct (parseScores _) as [[l | t | ] | ];
    try (left; reflexivity); right; eexists; (split; [reflexivity|]);
    cbn [entries].
  - apply firstn_le_length.
  - clear. generalize 10%nat. induction t as [|c t IH]; intro n.
    + destruct n; cbn; lia.
    + destruct n; cbn; [lia|]. specialize (IH n). lia.
Qed.

Lemma loadHighScore_shape (w : World) :
  loadHighScore w = w
  \/ exists n : Js.num,
       Storage.dinoHighScore (localStorage w) = Storage.Text n
       /\ loadHighScore w = withState (setHighScore n) w.
Proof.
  unfold loadHighScore, tryLoadHighScore, Storage.getHighScore.
  destruct (Storage.readable (localStorage w)); [|left; reflexivity].
  cbn. destruct (Storage.dinoHighScore (localStorage w)) as [| | n];
    [left; reflexivity ..|].
  right. exists n. split; reflexivity.
Qed.

(** The world after a tick on a canvas: the refs are those of [simulate],
    the state has the new score, and [endGame] has run or not. *)
Lemma step_shape (canvas : Canvas.t) (time : Q) (rnd : Randoms) (w : World) :
  canvasRef (refs w) = Some canvas ->
  exists st : State,
    (st = state w
     \/ st = setScore (score (state w)
                       + Qfloor (elapsed time (lastTimeRef (refs w)) * 100))%Z
                      (state w))
    /\ let w' := mkWorld st (simulate canvas time rnd (refs w))
                         (localStorage w) in
       (world (step time rnd w) = w'
        /\ endGameCalled (step time rnd w) = false)
       \/ (world (step time rnd w) = endGame (score (state w)) w'
           /\ endGameCalled (step time rnd w) = true
           /\ isRunning (state w) = true).
Proof.
  intro C. unfold step. rewrite C.
  destruct (isRunning (state w)) eqn:R; cbn [andb].
  - eexists. split; [right; reflexivity|].
    destruct (existsb _ _); [right | left]; repeat split.
  - eexists. split; [left; reflexivity|]. left. split; reflexivity.
Qed.

Lemma step_no_canvas (time : Q) (rnd : Randoms) (w : World) :
  canvasRef (refs w) = None -> world (step time rnd w) = w.
Proof. intro C. unfold step. rewrite C. reflexivity. Qed.

Lemma run_invariant (P : World -> Prop) :
  (forall (e : Event) (w : World), P w -> P (handle e w)) ->
  forall (events : list Event) (w : World), P w -> P (run events w).
Proof.
  intros Step events. unfold run.
  induction events as [|e rest IH]; intros w H; [exact H|].
  cbn [fold_left]. apply IH, Step, H.
Qed.

Lemma endGame_state (s : Z) (w : World) :
  exists top : TopScores,
    state (endGame s w)
    = mkState true false (showMenu (state w)) (showLeaderboard (state w)) top
              (score (state w))
              (Js.max_num (highScore (state w)) (inject_Z s))
    /\ (top = topScores (state w)
        \/ exists arr : list Z, top = Nums (firstn 10 arr)).
Proof.
  unfold endGame.
  destruct (recordScore_shape s
              (updateHighScore s
                 (withState (fun s0 => setIsRunning false
                                         (setIsGameOver true s0)) w)))
    as [E | [arr [st [E _]]]]; rewrite E.
  - exists (topScores (state w)). split; [reflexivity | left; reflexivity].
  - exists (Nums (firstn 10 arr)). split; [reflexivity|].
    right. exists arr. reflexivity.
Qed.

(** ** Modes *)

Lemma handle_modes (e : Event) (w : World) :
  isRunning (state w) && (isGameOver (state w) || showMenu (state w)) = false ->
  isRunning (state (handle e w))
  && (isGameOver (state (handle e w)) || showMenu (state (handle e w)))
  = false.
Proof.
  intro H. destruct e; cbn [handle].
  - unfold handleKeyDown, restartOrJump, resetGame, jump.
    destruct (showMenu (state w)) eqn:M; cbn [orb]; [rewrite M; exact H|].
    destruct (showLeaderboard (state w)); [rewrite M; exact H|].
    destruct code; try exact H;
      repeat match goal with
             | |- context [if ?c then _ else _] => destruct c
             | |- context [match ?c with Some _ => _ | None => _ end] =>
                 destruct c
             end; cbn; rewrite ?M; try exact H; reflexivity.
  - unfold handlePointer, restartOrJump, resetGame, jump.
    destruct (showMenu (state w)) eqn:M; cbn [orb]; [rewrite M; exact H|].
    destruct (showLeaderboard (state w)); [rewrite M; exact H|].
    repeat match goal with
           | |- context [if ?c then _ else _] => destruct c
           | |- context [match ?c with Some _ => _ | None => _ end] =>
               destruct c
           end; cbn; rewrite ?M; try exact H; reflexivity.
  - destruct (canvasRef (refs w)) as [canvas|] eqn:C;
      [|rewrite (step_no_canvas _ _ _ C); exact H].
    destruct (step_shape canvas time rnd w C) as [st [Hst [[E _] | [E _]]]];
      rewrite E.
    + destruct Hst as [-> | ->]; exact H.
    + destruct (endGame_state (score (state w))
                  (mkWorld st (simulate canvas time rnd (refs w))
                           (localStorage w))) as [top [S _]].
      rewrite S. reflexivity.
  - unfold clickStart, resetGame. cbn.
    destruct (canvasRef (refs w)); cbn; [reflexivity|].
    destruct (isRunning (state w)); [|reflexivity].
    cbn in H. cbn. rewrite orb_false_r.
    apply orb_false_iff in H. apply H.
  - unfold clickLeaderboard.
    destruct (loadTopScores_shape (withState (setShowLeaderboard true) w))
      as [E | [top [E _]]]; rewrite E; exact H.
  - exact H.
  - reflexivity.
  - unfold resize. destruct (canvasRef (refs w)); exact H.
  - exact H.
Qed.

Lemma mount_state (parentWidth parentHeight : Z) (st : Storage.t) :
  exists (top : TopScores) (high : Js.num),
    state (mount parentWidth parentHeight (unmounted st))
    = mkState false false true false top 0 high
    /\ (entries top <= 10)%nat
    /\ (high = Js.Num 0
        \/ Storage.dinoHighScore st = Storage.Text high).
Proof.
  unfold mount.
  destruct (loadHighScore_shape (unmounted st)) as [E | [n [D E]]]; rewrite E.
  - destruct (loadTopScores_shape
                (resize parentWidth parentHeight (loadImages (unmounted st))))
      as [E' | [top [E' L]]]; rewrite E'.
    + exists (Nums []), (Js.Num 0). repeat split; [cbn; lia | left; reflexivity].
    + exists top, (Js.Num 0). repeat split; [exact L | left; reflexivity].
  - destruct (loadTopScores_shape
                (resize parentWidth parentHeight
                   (loadImages (withState (setHighScore n) (unmounted st)))))
      as [E' | [top [E' L]]]; rewrite E'.
    + exists (Nums []), n. repeat split; [cbn; lia | right; exact D].
    + exists top, n. repeat split; [exact L | right; exact D].
Qed.

(** X1: whatever happens to a mounted component, a running session is never
    over and never has the menu open. *)
Theorem running_excludes_over_and_menu (parentWidth parentHeight : Z)
        (st : Storage.t) (events : list Event) :
  isRunning
    (state (run events (mount parentWidth parentHeight (unmounted st))))
  = true ->
  isGameOver
    (state (run events (mount parentWidth parentHeight (unmounted st))))
  = false
  /\ showMenu
       (state (run events (mount parentWidth parentHeight (unmounted st))))
     = false.
Proof.
  intro R.
  assert (H : (fun w => isRunning (state w)
                        && (isGameOver (state w) || showMenu (state w))
                        = false)
                (run events (mount parentWidth parentHeight (unmounted st)))).
  { apply run_invariant; [exact handle_modes|].
    destruct (mount_state parentWidth parentHeight st) as [top [high [E _]]].
    rewrite E. reflexivity. }
  cbv beta in H. rewrite R in H. cbn [andb] in H.
  apply orb_false_iff in H. exact H.
Qed.

Lemma running_excludes_over_and_menu_witness :
  isGameOver
    (state (run [Start; AnimationFrame 1000 draws]
                (mount 720 1280 (unmounted emptyStore))))
  = false
  /\ showMenu
       (state (run [Start; AnimationFrame 1000 draws]
                   (mount 720 1280 (unmounted emptyStore))))
     = false.
Proof.
  apply (running_excludes_over_and_menu 720 1280 emptyStore
           [Start; AnimationFrame 1000 draws]).
  reflexivity.
Defined.

(** ** The jump arc *)

Lemma integrate_arc (dt G y vy : Q) (onGround : bool) :
  arcOk G y vy onGround ->
  arcOk G (fst (fst (integrate dt G y vy onGround)))
          (snd (fst (integrate dt G y vy onGround)))
          (snd (integrate dt G y vy onGround)).
Proof.
  intros [Hy [Hv Hg]]. unfold integrate, gravityRef.
  destruct (Js.leb G (y + (vy + 1350 * dt) * dt)) eqn:E; cbn [fst snd].
  - repeat split; try reflexivity; [apply Qle_refl|].
    setoid_replace (G - G) with 0 by ring. discriminate.
  - apply leb_gt in E. split; [apply Qlt_le_weak, E|]. split.
    + nra.
    + intro O. destruct (Hg O) as [Ey Ev]. exfalso.
      rewrite Ey, Ev in E. nra.
Qed.

Lemma arcOk_grounded (G : Q) : arcOk G G 0 true.
Proof.
  repeat split; try reflexivity; [apply Qle_refl|].
  setoid_replace (G - G) with 0 by ring. discriminate.
Qed.

Lemma resetGame_physics (w : World) : physicsOk (resetGame w).
Proof.
  unfold physicsOk, resetGame.
  destruct (canvasRef (refs w)) as [canvas|] eqn:C; cbn; [|rewrite C; exact I].
  apply arcOk_grounded.
Qed.

Lemma jump_physics (w : World) : physicsOk w -> physicsOk (jump w).
Proof.
  unfold physicsOk, jump. intro H.
  destruct (isOnGroundRef (refs w) && isRunning (state w)
            && negb (isGameOver (state w))) eqn:Cnd; [|exact H].
  apply andb_prop in Cnd. destruct Cnd as [Cnd _].
  apply andb_prop in Cnd. destruct Cnd as [O _].
  cbn. destruct (canvasRef (refs w)); [|exact I].
  destruct H as [Hy [Hv Hg]]. destruct (Hg O) as [Ey Ev].
  unfold jumpVelocityRef. repeat split; try discriminate; [exact Hy|].
  rewrite Ey. setoid_replace (groundLine t - groundLine t) with 0 by ring.
  discriminate.
Qed.

Lemma handle_physics (e : Event) (w : World) :
  physicsOk w -> physicsOk (handle e w).
Proof.
  intro H. destruct e; cbn [handle].
  - unfold handleKeyDown, restartOrJump.
    destruct (showMenu (state w) || showLeaderboard (state w)); [exact H|].
    destruct code; try exact H;
      (destruct (negb (isRunning (state w)) && isGameOver (state w));
       [apply resetGame_physics | apply jump_physics, H]).
  - unfold handlePointer, restartOrJump.
    destruct (showMenu (state w) || showLeaderboard (state w)); [exact H|].
    destruct (negb (isRunning (state w)) && isGameOver (state w));
      [apply resetGame_physics | apply jump_physics, H].
  - destruct (canvasRef (refs w)) as [canvas|] eqn:C;
      [|rewrite (step_no_canvas _ _ _ C); exact H].
    unfold physicsOk in *.
    rewrite (step_canvas canvas time rnd w C). rewrite C in H.
    pose proof (simulate_player canvas time rnd (refs w)) as P.
    rewrite <- (step_refs canvas time rnd w C) in P.
    pose proof (integrate_arc (elapsed time (lastTimeRef (refs w)))
                  (groundLine canvas) _ _ _ H) as A.
    rewrite <- P in A. exact A.
  - apply resetGame_physics.
  - unfold clickLeaderboard.
    destruct (loadTopScores_shape (withState (setShowLeaderboard true) w))
      as [E | [top [E _]]]; rewrite E; exact H.
  - exact H.
  - exact H.
  - unfold physicsOk, resize in *.
    destruct (canvasRef (refs w)) as [canvas|] eqn:C; [|rewrite C; exact I].
    cbn. destruct H as [Hy [Hv Hg]]. unfold groundLine. split; [apply Qle_refl|].
    split.
    + setoid_replace (groundTop
                        {| Canvas.width :=
                             Qfloor (Js.min (inject_Z parentWidth)
                                       (Js.floor (inject_Z parentHeight
                                                  * (9 / 16))));
                           Canvas.height := parentHeight;
                           Canvas.context2d := Canvas.context2d canvas |}
                      - PLAYER_HEIGHT
                      - (groundTop
                           {| Canvas.width :=
                                Qfloor (Js.min (inject_Z parentWidth)
                                          (Js.floor (inject_Z parentHeight
                                                     * (9 / 16))));
                              Canvas.height := parentHeight;
                              Canvas.context2d := Canvas.context2d canvas |}
                         - PLAYER_HEIGHT))
        with 0 by ring.
      assert (2700 * (playerYRef (refs w) - groundLine canvas) <= 0);
        [|lra].
      assert (playerYRef (refs w) - groundLine canvas <= 0) by lra. lra.
    + intro O. split; [reflexivity | apply (Hg O)].
  - exact H.
Qed.

Lemma loadTopScores_refs (w : World) : refs (loadTopScores w) = refs w.
Proof.
  destruct (loadTopScores_shape w) as [E | [top [E _]]]; rewrite E;
    reflexivity.
Qed.

Lemma loadHighScore_refs (w : World) : refs (loadHighScore w) = refs w.
Proof.
  destruct (loadHighScore_shape w) as [E | [n [_ E]]]; rewrite E;
    reflexivity.
Qed.

(** The refs after mount: the canvas fitted to the parent, the player at rest
    on the ground line, the five image objects created. *)
Lemma mount_refs (parentWidth parentHeight : Z) (st : Storage.t) :
  exists canvas : Canvas.t,
    Canvas.height canvas = parentHeight
    /\ refs (mount parentWidth parentHeight (unmounted st))
       = mkRefs (Some canvas) (groundLine canvas) 0 true 260 [] 0 [] 0 None
                (mkAssets (Some (Image.mk 0 0)) (Some (Image.mk 0 0))
                          (Some (Image.mk 0 0)) (Some (Image.mk 0 0))
                          (Some (Image.mk 0 0))).
Proof.
  unfold mount. rewrite loadTopScores_refs.
  unfold resize, loadImages, withRefs. cbn [refs].
  rewrite loadHighScore_refs. cbn.
  eexists. split; [|reflexivity]. reflexivity.
Qed.

Lemma mount_physics (parentWidth parentHeight : Z) (st : Storage.t) :
  physicsOk (mount parentWidth parentHeight (unmounted st)).
Proof.
  destruct (mount_refs parentWidth parentHeight st) as [canvas [_ E]].
  unfold physicsOk. rewrite E. cbn. apply arcOk_grounded.
Qed.

(** X2: whatever happens to a mounted component (ticks with any time
    stamps, jumps, restarts, resizes), the player is never below the ground
    line and never more than 560^2 / (2 * 1350) = 3136/27 pixels (about 116)
    above it, and its vertical speed never exceeds 560 in either
    direction. *)
Theorem jump_height_bounded (parentWidth parentHeight : Z) (st : Storage.t)
        (events : list Event) (canvas : Canvas.t) :
  let w := run events (mount parentWidth parentHeight (unmounted st)) in
  canvasRef (refs w) = Some canvas ->
  let groundY :=
    inject_Z (Qfloor (inject_Z (Canvas.height canvas) / 2)) - 64 in
  groundY - 3136 / 27 <= playerYRef (refs w)
  /\ playerYRef (refs w) <= groundY
  /\ - 560 <= playerVyRef (refs w)
  /\ playerVyRef (refs w) <= 560.
Proof.
  intros w C groundY.
  assert (H : physicsOk w).
  { apply run_invariant; [exact handle_physics | apply mount_physics]. }
  unfold physicsOk in H. rewrite C in H.
  change (groundLine canvas) with groundY in H.
  destruct H as [Hy [Hv _]]. clearbody groundY.
  generalize dependent (playerYRef (refs w)).
  generalize (playerVyRef (refs w)). intros vy y Hy Hv.
  assert (0 <= vy * vy) by nra.
  setoid_replace (3136 / 27) with (3136 # 27) by reflexivity.
  repeat split; [lra | exact Hy | nra | nra].
Qed.

Lemma jump_height_bounded_witness :
  576 - 3136 / 27
  <= playerYRef
       (refs (run [Start; AnimationFrame 1000 draws; PointerDown;
                   AnimationFrame 1020 draws; AnimationFrame 1040 draws]
                  (mount 720 1280 (unmounted emptyStore))))
  /\ playerYRef
       (refs (run [Start; AnimationFrame 1000 draws; PointerDown;
                   AnimationFrame 1020 draws; AnimationFrame 1040 draws]
                  (mount 720 1280 (unmounted emptyStore))))
     <= 576.
Proof.
  destruct (jump_height_bounded 720 1280 emptyStore
              [Start; AnimationFrame 1000 draws; PointerDown;
               AnimationFrame 1020 draws; AnimationFrame 1040 draws]
              demoCanvas eq_refl) as [Lo [Hi _]].
  split; [exact Lo | exact Hi].
Defined.

(** ** The render loop and the effect that starts it *)

Lemma callback_of_latest_render (time : Q) (rnd : Randoms) (w : World) :
  step time rnd w = callback (closureOf (state w)) time rnd w.
Proof. reflexivity. Qed.

Lemma callback_frameRequested (c : Closure) (canvas : Canvas.t) (time : Q)
      (rnd : Randoms) (w : World) :
  canvasRef (refs w) = Some canvas ->
  frameRequested (callback c time rnd w)
  = capturedRunning c && negb (endGameCalled (callback c time rnd w)).
Proof.
  intro C. unfold callback. rewrite C.
  destruct (capturedRunning c); cbn [andb].
  - destruct (existsb _ _); reflexivity.
  - reflexivity.
Qed.

(** A callback created while the session was not running moves the scene
    and nothing else. *)
Lemma callback_idle (c : Closure) (canvas : Canvas.t) (time : Q)
      (rnd : Randoms) (w : World) :
  canvasRef (refs w) = Some canvas ->
  capturedRunning c = false ->
  callback c time rnd w
  = mkTick (mkWorld (state w) (simulate canvas time rnd (refs w))
                    (localStorage w))
           false false.
Proof. intros C R. unfold callback. rewrite C, R. reflexivity. Qed.

Lemma sameValue_refl (n : Js.num) : sameValue n n = true.
Proof.
  destruct n as [q | | negative]; cbn.
  - apply Qeq_bool_iff. reflexivity.
  - reflexivity.
  - destruct negative; reflexivity.
Qed.

Lemma effectRuns_same (before after : State) :
  score after = score before ->
  highScore after = highScore before ->
  isRunning after = isRunning before ->
  effectRuns before after = false.
Proof.
  intros S H R. unfold effectRuns. rewrite S, H, R.
  rewrite Z.eqb_refl, sameValue_refl, eqb_reflx. reflexivity.
Qed.

Lemma mount_canvas (parentWidth parentHeight : Z) (st : Storage.t) :
  exists canvas : Canvas.t,
    canvasRef (refs (mount parentWidth parentHeight (unmounted st)))
    = Some canvas
    /\ Canvas.context2d canvas = true.
Proof.
  unfold mount. rewrite loadTopScores_refs.
  unfold resize, loadImages, withRefs. cbn [refs].
  rewrite loadHighScore_refs. cbn.
  eexists. split; reflexivity.
Qed.

(** C7, as the code has it: a tick asks for the next animation frame
    exactly when the session was running at the render its callback comes
    from and the tick did not end the game; the menu plays no part.  So a
    tick of a session that is not running asks for none, and however many
    frames follow, one tick runs.  Opening the menu from such a session
    changes no dependency of the effect: no frame is requested and none is
    cancelled.  At mount the menu is open, the session is not running, and
    the effect requests one frame; after its tick nothing is pending. *)
Theorem next_frame_only_while_running (canvas : Canvas.t) (time : Q)
        (rnd : Randoms) (w : World) (queue : list Request)
        (parentWidth parentHeight : Z) (st : Storage.t)
        (rnds : nat -> Randoms) :
  canvasRef (refs w) = Some canvas ->
  frameRequested (step time rnd w)
  = isRunning (state w) && negb (endGameCalled (step time rnd w))
  /\ (forall c : Closure,
        frameRequested (callback c time rnd w)
        = capturedRunning c && negb (endGameCalled (callback c time rnd w)))
  /\ (isRunning (state w) = false ->
      frameRequested (step time rnd w) = false
      /\ (forall rest : list (Q * Randoms),
            snd (frames ((time, rnd) :: rest) w) = 1%nat)
      /\ pending (afterHandler clickMenu (mkPage w queue)) = queue)
  /\ showMenu (state (current (mountPage parentWidth parentHeight
                                         (unmounted st)))) = true
  /\ pending (mountPage parentWidth parentHeight (unmounted st))
     = [mkRequest (mkClosure false 0
                     (highScore (state (mount parentWidth parentHeight
                                              (unmounted st)))))
                  true]
  /\ pending (animationFrame time rnds
                (mountPage parentWidth parentHeight (unmounted st)))
     = [].
Proof.
  intro C. pose proof (step_frameRequested canvas time rnd w C) as E.
  split; [exact E|].
  split; [intro c; apply (callback_frameRequested c canvas), C|].
  split.
  { intro R. rewrite R in E. cbn [andb] in E. split; [exact E|]. split.
    - intro rest. cbn [frames]. rewrite E. reflexivity.
    - unfold afterHandler, commit. cbn [current pending].
      rewrite effectRuns_same; [reflexivity | reflexivity | reflexivity |].
      cbn. symmetry. exact R. }
  destruct (mount_state parentWidth parentHeight st)
    as [top [high [S _]]].
  destruct (mount_canvas parentWidth parentHeight st) as [cv [Cv Ctx]].
  assert (pending (mountPage parentWidth parentHeight (unmounted st))
          = [mkRequest (mkClosure false 0 high) true]) as P.
  { unfold mountPage, runEffect, renderLoopStarts, closureOf.
    cbn [pending filter app]. rewrite S, Cv, Ctx. reflexivity. }
  split; [unfold mountPage; cbn [current]; rewrite S; reflexivity|].
  split; [rewrite P, S; reflexivity|].
  unfold animationFrame. rewrite P.
  unfold mountPage. cbn [current runCallbacks requested].
  rewrite (callback_idle _ cv) by (exact Cv || reflexivity).
  cbn [world frameRequested]. unfold commit. cbn [pending state].
  rewrite effectRuns_same by reflexivity. reflexivity.
Qed.

Lemma next_frame_only_while_running_witness :
  frameRequested (step 1000 draws (resetGame mounted)) = true
  /\ snd (frames (every20ms 1000 3) mounted) = 1%nat
  /\ pending (afterHandler clickMenu (mkPage crashed [])) = [].
Proof.
  destruct (next_frame_only_while_running demoCanvas 1000 draws
              (resetGame mounted) [] 720 1280 emptyStore (fun _ => draws)
              eq_refl) as [E _].
  destruct (next_frame_only_while_running demoCanvas 1000 draws
              mounted [] 720 1280 emptyStore (fun _ => draws) eq_refl)
    as [_ [_ [Once _]]].
  destruct (next_frame_only_while_running demoCanvas 1000 draws
              crashed [] 720 1280 emptyStore (fun _ => draws) eq_refl)
    as [_ [_ [Over _]]].
  split; [|split].
  - rewrite E. reflexivity.
  - exact (proj1 (proj2 (Once eq_refl)) (tl (every20ms 1000 3))).
  - exact (proj2 (proj2 (Over eq_refl))).
Defined.

(** C7 as stated fails: with the menu open and the session not running,
    the effect starts the loop, the first tick asks for no further frame,
    and of three animation frames only one runs a tick. *)
Lemma menu_loop_stops :
  showMenu (state mounted) = true
  /\ isRunning (state mounted) = false
  /\ renderLoopStarts mounted = true
  /\ frameRequested (step 1000 draws mounted) = false
  /\ snd (renderLoop (every20ms 1000 3) mounted) = 1%nat.
Proof. repeat split. Qed.

(** ** What stays on the lists *)

Lemma filter_all {A : Type} (f : A -> bool) (l : list A) :
  Forall (fun a => f a = true) (filter f l).
Proof.
  apply Forall_forall. intros a H. apply filter_In in H. apply H.
Qed.

Lemma simulate_lists (canvas : Canvas.t) (time : Q) (rnd : Randoms)
      (r : Refs) :
  let dt := elapsed time (lastTimeRef r) in
  let speed := Js.min 560 (speedRef r + dt * 8) in
  let spawns := Js.leb (spawnTimerRef r - dt) 0 in
  let cloudSpawns := Js.leb (cloudSpawnTimerRef r - dt) 0 in
  obstaclesRef (simulate canvas time rnd r)
  = filter onScreen
      (map (moveObstacle (speed * dt))
           (if spawns
            then obstaclesRef r ++ [spawnObstacle rnd (imagesRef r) canvas]
            else obstaclesRef r))
  /\ cloudsRef (simulate canvas time rnd r)
     = filter cloudVisible
         (map (moveCloud dt)
              (if cloudSpawns
               then cloudsRef r ++ [spawnCloud rnd speed canvas]
               else cloudsRef r))
  /\ spawnTimerRef (simulate canvas time rnd r)
     = (if spawns then 0.9 + rSpawn rnd * 0.9 else spawnTimerRef r - dt)
  /\ cloudSpawnTimerRef (simulate canvas time rnd r)
     = (if cloudSpawns then 2 + rCloudSpawn rnd * 3
        else cloudSpawnTimerRef r - dt).
Proof.
  unfold simulate. destruct (integrate _ _ _ _ _) as [[y vy] g].
  repeat split.
Qed.

Lemma handle_refs_cases (e : Event) (w : World) :
  (exists (time : Q) (rnd : Randoms) (canvas : Canvas.t),
      canvasRef (refs w) = Some canvas
      /\ refs (handle e w) = simulate canvas time rnd (refs w))
  \/ (exists canvas : Canvas.t,
         canvasRef (refs w) = Some canvas
         /\ refs (handle e w) = refs (resetGame w))
  \/ (obstaclesRef (refs (handle e w)) = obstaclesRef (refs w)
      /\ cloudsRef (refs (handle e w)) = cloudsRef (refs w)
      /\ speedRef (refs (handle e w)) = speedRef (refs w)).
Proof.
  assert (R : forall w0 : World,
             (exists canvas : Canvas.t,
                 canvasRef (refs w0) = Some canvas)
             \/ resetGame w0 = w0).
  { intro w0. unfold resetGame. destruct (canvasRef (refs w0)) as [c|];
      [left; exists c; reflexivity | right; reflexivity]. }
  assert (RJ : (exists canvas : Canvas.t,
                   canvasRef (refs w) = Some canvas
                   /\ refs (restartOrJump w) = refs (resetGame w))
               \/ (obstaclesRef (refs (restartOrJump w))
                   = obstaclesRef (refs w)
                   /\ cloudsRef (refs (restartOrJump w)) = cloudsRef (refs w)
                   /\ speedRef (refs (restartOrJump w)) = speedRef (refs w))).
  { unfold restartOrJump.
    destruct (negb (isRunning (state w)) && isGameOver (state w)).
    - destruct (R w) as [[c C] | E];
        [left; exists c; split; [exact C | reflexivity]
        | right; rewrite E; repeat split].
    - right. unfold jump. destruct (_ && _); repeat split. }
  destruct e; cbn [handle].
  - unfold handleKeyDown.
    destruct (showMenu (state w) || showLeaderboard (state w));
      [right; right; repeat split|].
    destruct code;
      [destruct RJ as [RJ | RJ];
       [right; left; exact RJ | right; right; exact RJ] ..
      | right; right; repeat split].
  - unfold handlePointer.
    destruct (showMenu (state w) || showLeaderboard (state w));
      [right; right; repeat split|].
    destruct RJ as [RJ | RJ]; [right; left; exact RJ | right; right; exact RJ].
  - destruct (canvasRef (refs w)) as [canvas|] eqn:C.
    + left. exists time, rnd, canvas. split; [reflexivity|].
      apply step_refs, C.
    + right. right. rewrite (step_no_canvas _ _ _ C). repeat split.
  - unfold clickStart.
    destruct (R (withState (setShowMenu false) w)) as [[c C] | E].
    + right. left. exists c. split; [exact C|].
      unfold resetGame. cbn [refs withState] in *. rewrite C. reflexivity.
    + right. right. rewrite E. repeat split.
  - right. right. unfold clickLeaderboard. rewrite loadTopScores_refs.
    repeat split.
  - right. right. repeat split.
  - right. right. repeat split.
  - right. right. unfold resize. destruct (canvasRef (refs w)); repeat split.
  - right. right. repeat split.
Qed.

Lemma resetGame_lists (canvas : Canvas.t) (w : World) :
  canvasRef (refs w) = Some canvas ->
  obstaclesRef (refs (resetGame w)) = []
  /\ cloudsRef (refs (resetGame w)) = []
  /\ speedRef (refs (resetGame w)) = 260.
Proof. intro C. unfold resetGame. rewrite C. repeat split. Qed.

(** X3: whatever happens to a mounted component, every obstacle on the list
    still reaches into the canvas ([x + width > 0]) and every cloud is right
    of the cut-off ([x > -200]). *)
Theorem lists_hold_only_visible (parentWidth parentHeight : Z)
        (st : Storage.t) (events : list Event) :
  let w := run events (mount parentWidth parentHeight (unmounted st)) in
  Forall (fun o => 0 < Obstacle.x o + Obstacle.width o) (obstaclesRef (refs w))
  /\ Forall (fun c => - 200 < Cloud.x c) (cloudsRef (refs w)).
Proof.
  cbv zeta.
  apply (run_invariant
           (fun w => Forall (fun o => 0 < Obstacle.x o + Obstacle.width o)
                            (obstaclesRef (refs w))
                     /\ Forall (fun c => - 200 < Cloud.x c)
                               (cloudsRef (refs w)))).
  - intros e w [Ho Hc].
    destruct (handle_refs_cases e w)
      as [[time [rnd [canvas [C E]]]] | [[canvas [C E]] | [Eo [Ec _]]]].
    + rewrite E.
      destruct (simulate_lists canvas time rnd (refs w)) as [-> [-> _]].
      split.
      * eapply Forall_impl; [|apply filter_all].
        intros o H. apply ltb_lt in H. exact H.
      * eapply Forall_impl; [|apply filter_all].
        intros c H. apply ltb_lt in H. exact H.
    + rewrite E. destruct (resetGame_lists canvas w C) as [-> [-> _]].
      split; constructor.
    + rewrite Eo, Ec. split; assumption.
  - destruct (mount_refs parentWidth parentHeight st) as [canvas [_ E]].
    rewrite E. split; constructor.
Qed.

(** X4: whatever happens to a mounted component, and whatever time stamps
    the frames carry, the scroll speed never exceeds 560. *)
Theorem speed_never_exceeds_560 (parentWidth parentHeight : Z)
        (st : Storage.t) (events : list Event) :
  speedRef (refs (run events (mount parentWidth parentHeight (unmounted st))))
  <= 560.
Proof.
  apply (run_invariant (fun w => speedRef (refs w) <= 560)).
  - intros e w H.
    destruct (handle_refs_cases e w)
      as [[time [rnd [canvas [C E]]]] | [[canvas [C E]] | [_ [_ Es]]]].
    + rewrite E, simulate_speed. apply Q.le_min_l.
    + rewrite E. destruct (resetGame_lists canvas w C) as [_ [_ ->]].
      discriminate.
    + rewrite Es. exact H.
  - destruct (mount_refs parentWidth parentHeight st) as [canvas [_ E]].
    rewrite E. discriminate.
Qed.

(** ** Scores that are kept *)

Lemma resetGame_keeps (w : World) :
  topScores (state (resetGame w)) = topScores (state w)
  /\ highScore (state (resetGame w)) = highScore (state w)
  /\ localStorage (resetGame w) = localStorage w.
Proof.
  unfold resetGame. destruct (canvasRef (refs w)); repeat split.
Qed.

Lemma restartOrJump_keeps (w : World) :
  topScores (state (restartOrJump w)) = topScores (state w)
  /\ highScore (state (restartOrJump w)) = highScore (state w)
  /\ localStorage (restartOrJump w) = localStorage w.
Proof.
  unfold restartOrJump.
  destruct (negb (isRunning (state w)) && isGameOver (state w));
    [apply resetGame_keeps|].
  unfold jump. destruct (_ && _); repeat split.
Qed.

Lemma highScoreKept_refl (a : Js.num) : highScoreKept a a.
Proof.
  destruct a as [p | | []]; cbn; try reflexivity; try exact I.
  exists p. split; [reflexivity | apply Qle_refl].
Qed.

Lemma highScoreKept_trans (a b c : Js.num) :
  highScoreKept a b -> highScoreKept b c -> highScoreKept a c.
Proof.
  destruct a as [p | | []]; cbn.
  - intros [q [-> L]] [q' [-> L']]. exists q'. split; [reflexivity|].
    exact (Qle_trans _ _ _ L L').
  - intros ->. exact (fun H => H).
  - intros _ _. exact I.
  - intros ->. exact (fun H => H).
Qed.

Lemma highScoreKept_max (a : Js.num) (s : Q) :
  highScoreKept a (Js.max_num a s).
Proof.
  destruct a as [p | | []]; cbn; try reflexivity; try exact I.
  exists (Js.max p s). split; [reflexivity | apply Q.le_max_l].
Qed.

(** What an event does to the two score cells of the state. *)
Lemma handle_scores (e : Event) (w : World) :
  (topScores (state (handle e w)) = topScores (state w)
   \/ (entries (topScores (state (handle e w))) <= 10)%nat)
  /\ highScoreKept (highScore (state w)) (highScore (state (handle e w))).
Proof.
  assert (Same : forall w' : World,
             topScores (state w') = topScores (state w) ->
             highScore (state w') = highScore (state w) ->
             (topScores (state w') = topScores (state w)
              \/ (entries (topScores (state w')) <= 10)%nat)
             /\ highScoreKept (highScore (state w)) (highScore (state w'))).
  { intros w' T H. split; [left; exact T|]. rewrite H.
    apply highScoreKept_refl. }
  destruct e; cbn [handle].
  - unfold handleKeyDown.
    destruct (showMenu (state w) || showLeaderboard (state w));
      [apply Same; reflexivity|].
    destruct code; try (apply Same; reflexivity);
      apply Same; apply restartOrJump_keeps.
  - unfold handlePointer.
    destruct (showMenu (state w) || showLeaderboard (state w));
      [apply Same; reflexivity|].
    apply Same; apply restartOrJump_keeps.
  - destruct (canvasRef (refs w)) as [canvas|] eqn:C;
      [|rewrite (step_no_canvas _ _ _ C); apply Same; reflexivity].
    destruct (step_shape canvas time rnd w C) as [st0 [Hst [[E _] | [E _]]]];
      rewrite E.
    + destruct Hst as [-> | ->]; apply Same; reflexivity.
    + destruct (endGame_state (score (state w))
                  (mkWorld st0 (simulate canvas time rnd (refs w))
                           (localStorage w))) as [top [S T]].
      rewrite S. cbn [topScores highScore state].
      assert (Ht : topScores st0 = topScores (state w))
        by (destruct Hst as [-> | ->]; reflexivity).
      assert (Hh : highScore st0 = highScore (state w))
        by (destruct Hst as [-> | ->]; reflexivity).
      rewrite Hh. split; [|apply highScoreKept_max].
      destruct T as [-> | [arr ->]];
        [left; exact Ht | right; cbn [entries]; apply firstn_le_length].
  - unfold clickStart. apply Same;
      apply (resetGame_keeps (withState (setShowMenu false) w)).
  - unfold clickLeaderboard.
    destruct (loadTopScores_shape (withState (setShowLeaderboard true) w))
      as [E | [top [E L]]]; rewrite E.
    + apply Same; reflexivity.
    + split; [right; exact L | apply highScoreKept_refl].
  - apply Same; reflexivity.
  - apply Same; reflexivity.
  - unfold resize. destruct (canvasRef (refs w)); apply Same; reflexivity.
  - apply Same; reflexivity.
Qed.

(** X5: whatever happens to a mounted component and whatever the store
    holds, the leaderboard state never has more than ten entries. *)
Theorem leaderboard_at_most_ten (parentWidth parentHeight : Z)
        (st : Storage.t) (events : list Event) :
  (entries
     (topScores
        (state (run events (mount parentWidth parentHeight (unmounted st)))))
   <= 10)%nat.
Proof.
  apply (run_invariant
           (fun w => (entries (topScores (state w)) <= 10)%nat)).
  - intros e w H. destruct (handle_scores e w) as [[E | L] _];
      [rewrite E; exact H | exact L].
  - destruct (mount_state parentWidth parentHeight st) as [top [high [E [L _]]]].
    rewrite E. exact L.
Qed.

(** X6: no event lowers the high score: a high score that is a number is
    followed only by numbers at least as large, and a high score that is
    [NaN] stays [NaN], however many games are played. *)
Theorem high_score_never_drops (events : list Event) (w : World) :
  highScoreKept (highScore (state w)) (highScore (state (run events w))).
Proof.
  revert w. unfold run.
  induction events as [|e rest IH]; intro w; [apply highScoreKept_refl|].
  cbn [fold_left].
  eapply highScoreKept_trans; [apply handle_scores | apply IH].
Qed.

(** ** Persistence *)

Lemma updateHighScore_storage (s : Z) (w : World) :
  (Storage.writable (localStorage w) = false /\
   localStorage (updateHighScore s w) = localStorage w)
  \/ (Storage.writable (localStorage w) = true /\
      localStorage (updateHighScore s w)
      = Storage.mk (Storage.readable (localStorage w)) true
                   (Storage.Text (Js.max_num (highScore (state w))
                                             (inject_Z s)))
                   (Storage.dinoScores (localStorage w))).
Proof.
  unfold updateHighScore, Storage.setHighScore.
  destruct (Storage.writable (localStorage w)) eqn:W; cbn;
    [right | left]; split; reflexivity.
Qed.

(** X7: the store is written by nothing but the end of a game: an event
    that is not a tick ending the game leaves [localStorage] as it was. *)
Theorem only_game_over_writes_storage (e : Event) (w : World) :
  (forall (time : Q) (rnd : Randoms),
      e = AnimationFrame time rnd ->
      endGameCalled (step time rnd w) = false) ->
  localStorage (handle e w) = localStorage w.
Proof.
  intro H. destruct e; cbn [handle].
  - unfold handleKeyDown.
    destruct (showMenu (state w) || showLeaderboard (state w));
      [reflexivity|].
    destruct code; try reflexivity; apply restartOrJump_keeps.
  - unfold handlePointer.
    destruct (showMenu (state w) || showLeaderboard (state w));
      [reflexivity|].
    apply restartOrJump_keeps.
  - specialize (H time rnd eq_refl).
    destruct (canvasRef (refs w)) as [canvas|] eqn:C;
      [|rewrite (step_no_canvas _ _ _ C); reflexivity].
    destruct (step_shape canvas time rnd w C)
      as [st0 [_ [[E _] | [_ [E _]]]]]; [|congruence].
    rewrite E. reflexivity.
  - unfold clickStart.
    apply (resetGame_keeps (withState (setShowMenu false) w)).
  - unfold clickLeaderboard.
    destruct (loadTopScores_shape (withState (setShowLeaderboard true) w))
      as [E | [top [E _]]]; rewrite E; reflexivity.
  - reflexivity.
  - reflexivity.
  - unfold resize. destruct (canvasRef (refs w)); reflexivity.
  - reflexivity.
Qed.

Lemma only_game_over_writes_storage_witness :
  localStorage (handle (AnimationFrame 1000 draws) (resetGame mounted))
  = localStorage (resetGame mounted).
Proof.
  apply (only_game_over_writes_storage (AnimationFrame 1000 draws)
           (resetGame mounted)).
  intros time rnd E. injection E as <- <-. reflexivity.
Defined.

Lemma endGame_storage_working (s : Z) (l : list Z) (w : World) :
  storedScores (localStorage w) = Some l ->
  localStorage (endGame s w)
  = Storage.mk true true
      (Storage.Text (Js.max_num (highScore (state w)) (inject_Z s)))
      (Storage.Text
         (Js.Ok (Js.Array (firstn 10 (Js.sort descending (l ++ [s])))))).
Proof.
  unfold storedScores. intro H.
  destruct (Storage.readable (localStorage w)) eqn:R; [|discriminate].
  destruct (Storage.writable (localStorage w)) eqn:W; [|discriminate].
  cbn [andb] in H.
  unfold endGame, recordScore, updateHighScore, Storage.getScores,
    Storage.setScores, Storage.setHighScore.
  cbn [localStorage withState withStorage]. rewrite W.
  cbn [Js.try_catch localStorage withStorage Storage.readable
         Storage.writable Storage.dinoScores].
  rewrite R.
  destruct (Storage.dinoScores (localStorage w)) as [| | [[arr | t | ] | ]];
    try discriminate; injection H as <-; reflexivity.
Qed.

Lemma mount_reads (parentWidth parentHeight : Z) (high : Js.num)
      (arr : list Z) :
  state (mount parentWidth parentHeight
               (unmounted
                  (Storage.mk true true (Storage.Text high)
                              (Storage.Text (Js.Ok (Js.Array arr))))))
  = mkState false false true false (Nums (firstn 10 arr)) 0 high.
Proof. reflexivity. Qed.

(** X8: what the end of a game writes to a working store, the next mount
    reads back: a component mounted over the store afterwards starts with
    the high score and the leaderboard the finished game ended with. *)
Theorem scores_survive_remount (s : Z) (l : list Z) (w : World)
        (parentWidth parentHeight : Z) :
  storedScores (localStorage w) = Some l ->
  let again :=
    mount parentWidth parentHeight (unmounted (localStorage (endGame s w))) in
  highScore (state again) = highScore (state (endGame s w))
  /\ topScores (state again) = topScores (state (endGame s w)).
Proof.
  intros H again. unfold again.
  rewrite (endGame_storage_working s l w H), mount_reads.
  destruct (endGame_stored s l w H) as [T _].
  destruct (endGame_state s w) as [top [S _]].
  rewrite T, S. cbn [highScore topScores]. split; [reflexivity|].
  rewrite firstn_firstn. reflexivity.
Qed.

Lemma scores_survive_remount_witness :
  highScore (state (mount 360 640
                          (unmounted (localStorage (endGame 42 mounted)))))
  = highScore (state (endGame 42 mounted))
  /\ topScores (state (mount 360 640
                             (unmounted (localStorage (endGame 42 mounted)))))
     = topScores (state (endGame 42 mounted)).
Proof.
  exact (scores_survive_remount 42 [] mounted 360 640 eq_refl).
Defined.

(** X9: a store that cannot be written does not keep a game from ending:
    [endGame] still sets game-over, stops the session and raises the high
    score in memory; the store and the leaderboard stay as they were.  When
    only reading fails the leaderboard and its stored list stay as they
    were. *)
Theorem game_ends_without_storage (s : Z) (w : World) :
  Storage.readable (localStorage w) = false
  \/ Storage.writable (localStorage w) = false ->
  isGameOver (state (endGame s w)) = true
  /\ isRunning (state (endGame s w)) = false
  /\ highScore (state (endGame s w))
     = Js.max_num (highScore (state w)) (inject_Z s)
  /\ topScores (state (endGame s w)) = topScores (state w)
  /\ Storage.dinoScores (localStorage (endGame s w))
     = Storage.dinoScores (localStorage w)
  /\ (Storage.writable (localStorage w) = false ->
      localStorage (endGame s w) = localStorage w).
Proof.
  intro H. unfold endGame.
  set (w0 := withState (fun s0 => setIsRunning false (setIsGameOver true s0)) w).
  assert (E : recordScore s (updateHighScore s w0) = updateHighScore s w0).
  { destruct (recordScore_shape s (updateHighScore s w0))
      as [E | [arr [st [_ [R [W _]]]]]]; [exact E|].
    exfalso.
    destruct (updateHighScore_storage s w0) as [[Wf U] | [Wt U]];
      rewrite U in R, W; subst w0;
      cbn [localStorage withState Storage.readable Storage.writable] in *;
      destruct H as [H | H]; congruence. }
  rewrite E. repeat split.
  - destruct (updateHighScore_storage s w0) as [[Wf U] | [Wt U]];
      rewrite U; reflexivity.
  - intro Wf.
    destruct (updateHighScore_storage s w0) as [[_ U] | [Wt _]];
      [exact U |].
    subst w0. cbn [localStorage withState] in Wt. congruence.
Qed.

Lemma game_ends_without_storage_witness :
  isGameOver (state (endGame 42 (withStorage unreadable mounted))) = true
  /\ localStorage (endGame 42 (withStorage unreadable mounted)) = unreadable.
Proof.
  destruct (game_ends_without_storage 42 (withStorage unreadable mounted)
              (or_introl eq_refl)) as [G [_ [_ [_ [_ S]]]]].
  split; [exact G | exact (S eq_refl)].
Defined.

(** The world after a tick of the callback with closure [c]: as after
    [step], with the captured values in place of the current ones. *)
Lemma callback_shape (c : Closure) (canvas : Canvas.t) (time : Q)
      (rnd : Randoms) (w : World) :
  canvasRef (refs w) = Some canvas ->
  exists st : State,
    (st = state w
     \/ st = setScore (score (state w)
                       + Qfloor (elapsed time (lastTimeRef (refs w)) * 100))%Z
                      (state w))
    /\ let w' := mkWorld st (simulate canvas time rnd (refs w))
                         (localStorage w) in
       (world (callback c time rnd w) = w'
        /\ endGameCalled (callback c time rnd w) = false)
       \/ (world (callback c time rnd w) = endGame (capturedScore c) w'
           /\ endGameCalled (callback c time rnd w) = true
           /\ st = setScore
                     (score (state w)
                      + Qfloor (elapsed time (lastTimeRef (refs w)) * 100))%Z
                     (state w)).
Proof.
  intro C. unfold callback. rewrite C.
  destruct (capturedRunning c) eqn:R; cbn [andb].
  - eexists. split; [right; reflexivity|].
    destruct (existsb _ _); [right | left]; repeat split.
  - eexists. split; [left; reflexivity|]. left. split; reflexivity.
Qed.

(** X10: the score a colliding tick records is the score its callback has
    captured, that of the render the callback was created in, whatever the
    score is by now.  On a working store holding [l], the leaderboard, the
    stored list and the high score are computed from the captured score,
    while the score shown afterwards is the current score plus
    [floor(dt * 100)], the points of the last tick. *)
Theorem game_over_records_captured_score (c : Closure) (canvas : Canvas.t)
        (time : Q) (rnd : Randoms) (w : World) (l : list Z) :
  canvasRef (refs w) = Some canvas ->
  endGameCalled (callback c time rnd w) = true ->
  storedScores (localStorage w) = Some l ->
  score (state (world (callback c time rnd w)))
  = (score (state w) + Qfloor (elapsed time (lastTimeRef (refs w)) * 100))%Z
  /\ topScores (state (world (callback c time rnd w)))
     = Nums (firstn 10 (Js.sort descending (l ++ [capturedScore c])))
  /\ storedScores (localStorage (world (callback c time rnd w)))
     = Some (firstn 10 (Js.sort descending (l ++ [capturedScore c])))
  /\ highScore (state (world (callback c time rnd w)))
     = Js.max_num (highScore (state w)) (inject_Z (capturedScore c)).
Proof.
  intros C Called H.
  destruct (callback_shape c canvas time rnd w C)
    as [st0 [_ [[_ E] | [E [_ Hst]]]]]; [congruence|].
  rewrite E. subst st0.
  set (w0 := mkWorld _ (simulate canvas time rnd (refs w)) (localStorage w)).
  destruct (endGame_state (capturedScore c) w0) as [top [S _]].
  destruct (endGame_stored (capturedScore c) l w0 H) as [T St].
  split; [rewrite S; reflexivity|].
  split; [exact T|]. split; [exact St|].
  rewrite S. reflexivity.
Qed.

Lemma game_over_records_captured_score_witness :
  score (state (world (callback (mkClosure true 0 (Js.Num 0)) 1020 draws
                                lateCrash))) = 9%Z
  /\ topScores (state (world (callback (mkClosure true 0 (Js.Num 0)) 1020
                                       draws lateCrash))) = Nums [0%Z]
  /\ topScores (state (world (step 1020 draws lateCrash))) = Nums [7%Z].
Proof.
  destruct (game_over_records_captured_score (mkClosure true 0 (Js.Num 0))
              demoCanvas 1020 draws lateCrash [] eq_refl eq_refl eq_refl)
    as [S [T _]].
  destruct (game_over_records_captured_score (closureOf (state lateCrash))
              demoCanvas 1020 draws lateCrash [] eq_refl eq_refl eq_refl)
    as [_ [T' _]].
  split; [exact S|]. split; [exact T | exact T'].
Defined.

(** The callbacks the effect leaves behind, on one run: a session begun with
    START and drawn every 20 ms, in which the player runs into an obstacle
    in the fifth frame.  The score changes in frames two, three and four,
    each time the effect runs again and one more callback is alive, so the
    five frames run 1, 1, 2, 3 and 4 callbacks.  In the fifth frame each of
    the four ends the game with the score it has captured: the leaderboard
    reads 6, 4, 2, 0, the high score is 6 and the score shown is 8. *)
Lemma callbacks_left_over :
  callbacksPerFrame [1000; 1020; 1040; 1060; 1080] (fun _ => draws)
                    approachingPage
  = [1; 1; 2; 3; 4]%nat
  /\ map capturedScore
         (map requested
              (pending (animationFrames [1000; 1020; 1040; 1060]
                                        (fun _ => draws) approachingPage)))
     = [0; 2; 4; 6]%Z
  /\ pending (animationFrames [1000; 1020; 1040; 1060; 1080]
                              (fun _ => draws) approachingPage)
     = []
  /\ state (current (animationFrames [1000; 1020; 1040; 1060; 1080]
                                     (fun _ => draws) approachingPage))
     = mkState true false false false (Nums [6; 4; 2; 0]%Z) 8 (Js.Num 6).
Proof. vm_compute. repeat split. Qed.

(** ** Rounding down *)

Lemma floor_le (x : Q) : Js.floor x <= x.
Proof. apply Qfloor_le. Qed.

Lemma floor_nonneg (x : Q) : 0 <= x -> 0 <= Js.floor x.
Proof.
  intro H. unfold Js.floor. change 0 with (inject_Z 0).
  rewrite <- Zle_Qle. change 0%Z with (Qfloor 0).
  apply Qfloor_resp_le, H.
Qed.

Lemma floor_gt (x : Q) : x - 1 < Js.floor x.
Proof.
  pose proof (Qlt_floor x) as H. rewrite inject_Z_plus in H.
  unfold Js.floor. change (inject_Z 1) with 1 in H. lra.
Qed.

(** Rounding down a number below an integer bound stays a full unit below. *)
Lemma floor_below (x : Q) (n : Z) :
  x < inject_Z n -> Js.floor x <= inject_Z n - 1.
Proof.
  intro H. unfold Js.floor.
  assert (L : (Qfloor x < n)%Z).
  { rewrite Zlt_Qlt. eapply Qle_lt_trans; [apply Qfloor_le | exact H]. }
  assert (L' : (Qfloor x + 1 <= n)%Z) by lia.
  rewrite Zle_Qle, inject_Z_plus in L'.
  change (inject_Z 1) with 1 in L'. lra.
Qed.

(** ** Collision boxes lie inside what is drawn *)

Lemma obstacleHitbox_inside (r : Rect) :
  2 <= wide r -> 2 <= high r -> inside (obstacleHitbox r) r.
Proof.
  intros W H. unfold inside, obstacleHitbox. cbn [left top wide high].
  pose proof (floor_le (wide r * 0.15)) as Fx.
  pose proof (floor_le (high r * 0.05)) as Fy.
  assert (Nx : 0 <= Js.floor (wide r * 0.15)) by (apply floor_nonneg; lra).
  assert (Ny : 0 <= Js.floor (high r * 0.05)) by (apply floor_nonneg; lra).
  unfold Js.max.
  rewrite (Q.max_r 1 (wide r - _)) by lra.
  rewrite (Q.max_r 1 (high r - _)) by lra.
  repeat split; lra.
Qed.

Lemma characterHitbox_inside (r : Rect) :
  2 <= wide r -> 2 <= high r -> inside (characterHitbox r) r.
Proof.
  intros W H. unfold inside, characterHitbox. cbn [left top wide high].
  pose proof (floor_le (wide r * 0.12)) as Fx.
  pose proof (floor_le (high r * 0.08)) as Fy.
  assert (Nx : 0 <= Js.floor (wide r * 0.12)) by (apply floor_nonneg; lra).
  assert (Ny : 0 <= Js.floor (high r * 0.08)) by (apply floor_nonneg; lra).
  unfold Js.max.
  rewrite (Q.max_r 1 (wide r - _)) by lra.
  rewrite (Q.max_r 1 (high r - _)) by lra.
  repeat split; lra.
Qed.

(** X11: an obstacle spawned with a draw in [0, 1) for its height starts 10
    pixels right of the canvas, is between 48 and 75 high and at least 10
    wide, whatever the tree image is; and its collision box lies inside the
    rectangle it is drawn in. *)
Theorem spawned_obstacle_bounds (rnd : Randoms) (imgs : Assets)
        (canvas : Canvas.t) :
  0 <= rHeight rnd -> rHeight rnd < 1 ->
  let o := spawnObstacle rnd imgs canvas in
  Obstacle.x o = inject_Z (Canvas.width canvas) + 10
  /\ 48 <= Obstacle.height o /\ Obstacle.height o <= 75
  /\ 10 <= Obstacle.width o
  /\ inside (obstacleHitbox (obstacleRect canvas o)) (obstacleRect canvas o).
Proof.
  intros Lo Hi o.
  assert (Hh : 48 <= 48 + Js.floor (rHeight rnd * 28)
               /\ 48 + Js.floor (rHeight rnd * 28) <= 75).
  { pose proof (floor_nonneg (rHeight rnd * 28)) as N.
    pose proof (floor_below (rHeight rnd * 28) 28) as B.
    change (inject_Z 28) with 28 in B. split; [|assert (rHeight rnd * 28 < 28) by lra]; lra. }
  assert (Hx : Obstacle.x o = inject_Z (Canvas.width canvas) + 10
               /\ Obstacle.height o = 48 + Js.floor (rHeight rnd * 28)
               /\ 10 <= Obstacle.width o).
  { unfold o, spawnObstacle. destruct (loaded _); cbn;
      repeat split; try discriminate. apply Q.le_max_l. }
  destruct Hx as [Ex [Eh Ew]]. rewrite Eh.
  split; [exact Ex|]. split; [apply Hh|]. split; [apply Hh|].
  split; [exact Ew|].
  apply obstacleHitbox_inside; cbn [wide high obstacleRect]; [lra|].
  rewrite Eh. lra.
Qed.

Lemma spawned_obstacle_bounds_witness :
  48 <= Obstacle.height (spawnObstacle draws noImages demoCanvas)
  /\ Obstacle.height (spawnObstacle draws noImages demoCanvas) <= 75.
Proof.
  destruct (spawned_obstacle_bounds draws noImages demoCanvas)
    as [_ [Lo [Hi _]]]; [discriminate | reflexivity |].
  split; [exact Lo | exact Hi].
Defined.

(** ** The rectangle the character is drawn in *)

Lemma floor_above_int (z : Z) (t : Q) :
  0 <= t -> inject_Z z <= Js.floor (inject_Z z + t).
Proof.
  intro H. unfold Js.floor. rewrite <- Zle_Qle.
  rewrite <- (Qfloor_Z z) at 1. apply Qfloor_resp_le. lra.
Qed.

Lemma scaled_fits (size limit other : Q) :
  0 < size -> 0 <= other ->
  let scale := Js.min (limit / size) other in
  size * scale <= limit.
Proof.
  intros P O scale.
  assert (E : size * (limit / size) == limit)
    by (apply Qmult_div_r; lra).
  assert (L : scale <= limit / size) by apply Q.le_min_l.
  rewrite <- E. apply Qmult_le_l; assumption.
Qed.

(** X12: a loaded character sheet is drawn contain-fitted: the rectangle is
    at most 56 wide and 64 high, lies between the left and right edge of the
    player's 56-wide box, and its bottom edge is within one pixel above the
    bottom of the box, never below it. *)
Theorem character_fits_player_box (canvas : Canvas.t) (img : Image.t)
        (py : Q) :
  (0 < Image.width img)%Z -> (0 < Image.height img)%Z ->
  let px := playerX canvas in
  let d := characterRect (Some img) px py in
  (0 <= wide d /\ wide d <= 56)
  /\ (0 <= high d /\ high d <= 64)
  /\ px <= left d
  /\ left d + wide d <= px + 56
  /\ top d + high d <= py + 64
  /\ py + 63 < top d + high d.
Proof.
  intros Wp Hp px d.
  assert (L : loaded (Some img) = Some img).
  { unfold loaded.
    destruct (Z.eqb_spec (Image.width img) 0); [lia|].
    destruct (Z.eqb_spec (Image.height img) 0); [lia|]. reflexivity. }
  unfold d, characterRect. rewrite L. cbn [left top wide high].
  unfold PLAYER_WIDTH, PLAYER_HEIGHT, RUN_FRAMES.
  set (swb := Js.floor (inject_Z (Image.width img) / 4)).
  set (shb := inject_Z (Image.height img)).
  assert (Hs : 0 < shb).
  { unfold shb. change 0 with (inject_Z 0). rewrite <- Zlt_Qlt. exact Hp. }
  assert (Sw : 0 <= swb).
  { apply floor_nonneg. apply Qle_shift_div_l; [reflexivity|].
    assert (0 <= inject_Z (Image.width img)); [|lra].
    change 0 with (inject_Z 0). rewrite <- Zle_Qle. lia. }
  set (scaleB := if Js.truthy swb then Js.min (56 / swb) (64 / shb)
                 else 64 / shb).
  assert (P64 : 0 < 64 / shb) by (apply Qlt_shift_div_l; lra).
  assert (Fit : 0 <= swb * scaleB /\ swb * scaleB <= 56
                /\ 0 <= shb * scaleB /\ shb * scaleB <= 64).
  { unfold scaleB, Js.truthy.
    destruct (Qeq_bool swb 0) eqn:Z0; cbn [negb].
    - apply Qeq_bool_eq in Z0.
      assert (E : shb * (64 / shb) == 64) by (apply Qmult_div_r; lra).
      rewrite Z0, E. repeat split; lra.
    - apply Qeq_bool_neq in Z0.
      assert (Sp : 0 < swb).
      { destruct (Qlt_le_dec 0 swb) as [Lt | Le]; [exact Lt|].
        exfalso. apply Z0. lra. }
      assert (P56 : 0 < 56 / swb) by (apply Qlt_shift_div_l; lra).
      assert (Pm : 0 < Js.min (56 / swb) (64 / shb))
        by (apply Q.min_glb_lt; assumption).
      pose proof (scaled_fits swb 56 (64 / shb) Sp (Qlt_le_weak _ _ P64))
        as Fw. cbv zeta in Fw.
      assert (Fh : shb * Js.min (56 / swb) (64 / shb) <= 64).
      { assert (E : shb * (64 / shb) == 64) by (apply Qmult_div_r; lra).
        rewrite <- E at 2. apply Qmult_le_l; [exact Hs | apply Q.le_min_r]. }
      repeat split; try assumption;
        apply Qmult_le_0_compat; lra. }
  destruct Fit as [W0 [W56 [H0 H64]]].
  set (cdw := Js.floor (swb * scaleB)) in *.
  set (cdh := Js.floor (shb * scaleB)) in *.
  assert (Cw : 0 <= cdw /\ cdw <= 56).
  { split; [apply floor_nonneg, W0|].
    eapply Qle_trans; [apply floor_le | exact W56]. }
  assert (Ch : 0 <= cdh /\ cdh <= 64).
  { split; [apply floor_nonneg, H0|].
    eapply Qle_trans; [apply floor_le | exact H64]. }
  split; [exact Cw|]. split; [exact Ch|].
  change ((56 - cdw) / 2) with ((56 - cdw) * (1 # 2)).
  pose proof (floor_le (px + (56 - cdw) * (1 # 2))) as Fx.
  pose proof (floor_le (py + (64 - cdh))) as Fy.
  pose proof (floor_gt (py + (64 - cdh))) as Gy.
  split.
  { unfold px, playerX. apply floor_above_int. lra. }
  repeat split; lra.
Qed.

Lemma character_fits_player_box_witness :
  wide (characterRect (Some (Image.mk 400 100)) (playerX demoCanvas) 576)
  <= 56
  /\ high (characterRect (Some (Image.mk 400 100)) (playerX demoCanvas) 576)
     <= 64.
Proof.
  destruct (character_fits_player_box demoCanvas (Image.mk 400 100) 576)
    as [[_ W] [[_ H] _]]; [reflexivity | reflexivity |].
  split; [exact W | exact H].
Defined.

(** ** The overlap test *)

(** X13: the overlap test of line 307 does not depend on which rectangle is
    the player's: it gives the same answer with the two rectangles
    exchanged, and a rectangle of positive size overlaps itself. *)
Theorem noOverlap_symmetric (a b : Rect) :
  noOverlap a b = noOverlap b a
  /\ (0 < wide a -> 0 < high a -> noOverlap a a = false).
Proof.
  split.
  - unfold noOverlap.
    destruct (Js.leb (left a + wide a) (left b)),
             (Js.leb (left b + wide b) (left a)),
             (Js.leb (top a + high a) (top b)),
             (Js.leb (top b + high b) (top a)); reflexivity.
  - intros W H. apply noOverlap_false. unfold overlaps.
    repeat split; lra.
Qed.

Lemma noOverlap_symmetric_witness :
  noOverlap (mkRect 338 581 44 54) (mkRect 732 583 14 54)
  = noOverlap (mkRect 732 583 14 54) (mkRect 338 581 44 54)
  /\ noOverlap (mkRect 338 581 44 54) (mkRect 338 581 44 54) = false.
Proof.
  destruct (noOverlap_symmetric (mkRect 338 581 44 54) (mkRect 732 583 14 54))
    as [S R].
  split; [exact S | apply R; reflexivity].
Defined.

(** ** The clamp on elapsed time *)

Lemma elapsed_le (time : Q) (last : option Q) : elapsed time last <= 0.032.
Proof. unfold elapsed. apply Q.le_min_l. Qed.

Lemma elapsed_first (time : Q) (last : option Q) :
  last = None \/ last = Some 0 -> elapsed time last == 0.
Proof.
  intros [-> | ->]; unfold elapsed; cbn;
    setoid_replace ((time - time) / 1000) with 0 by field; reflexivity.
Qed.

(** X14: the elapsed time of a tick is never more than 0.032 s, however far
    apart the frames are, and it is 0 on the first tick of a session (no
    previous time stamp, or a previous time stamp of 0).  With time stamps
    that do not go back and a scroll speed between 0 and 560, the obstacles
    that stay on the list have moved left by one common distance between 0
    and 17.92 pixels. *)
Theorem tick_is_clamped (canvas : Canvas.t) (time : Q) (rnd : Randoms)
        (w : World) :
  canvasRef (refs w) = Some canvas ->
  match lastTimeRef (refs w) with Some l => l <= time | None => True end ->
  0 <= speedRef (refs w) -> speedRef (refs w) <= 560 ->
  let dt := elapsed time (lastTimeRef (refs w)) in
  let r' := refs (world (step time rnd w)) in
  (0 <= dt /\ dt <= 0.032)
  /\ (lastTimeRef (refs w) = None \/ lastTimeRef (refs w) = Some 0 ->
      dt == 0)
  /\ exists distance : Q,
       0 <= distance /\ distance <= 17.92
       /\ exists spawned : list Obstacle.t,
            (spawned = [] \/
             spawned = [spawnObstacle rnd (imagesRef (refs w)) canvas])
            /\ obstaclesRef r'
               = filter onScreen
                   (map (moveObstacle distance)
                        (obstaclesRef (refs w) ++ spawned)).
Proof.
  intros C T S0 S560 dt r'.
  assert (D0 : 0 <= dt) by (apply elapsed_nonneg, T).
  assert (D1 : dt <= 0.032) by apply elapsed_le.
  split; [split; assumption|]. split; [apply elapsed_first|].
  exists (Js.min 560 (speedRef (refs w) + dt * 8) * dt).
  assert (V : 0 <= Js.min 560 (speedRef (refs w) + dt * 8)
              /\ Js.min 560 (speedRef (refs w) + dt * 8) <= 560).
  { split; [apply Q.min_glb; lra | apply Q.le_min_l]. }
  split; [apply Qmult_le_0_compat; [apply V | exact D0]|].
  split.
  { apply Qle_trans with (560 * dt).
    - apply Qmult_le_compat_r; [apply V | exact D0].
    - lra. }
  unfold r'. rewrite (step_refs canvas time rnd w C).
  destruct (simulate_lists canvas time rnd (refs w)) as [-> _].
  fold dt.
  destruct (Js.leb (spawnTimerRef (refs w) - dt) 0).
  - eexists. split; [right; reflexivity | reflexivity].
  - exists []. split; [left; reflexivity|]. rewrite app_nil_r. reflexivity.
Qed.

Lemma tick_is_clamped_witness :
  0 <= elapsed 9000 (lastTimeRef (refs started))
  /\ elapsed 9000 (lastTimeRef (refs started)) <= 0.032.
Proof.
  destruct (tick_is_clamped demoCanvas 9000 draws started eq_refl)
    as [B _]; [vm_compute; discriminate ..|].
  exact B.
Defined.

(** ** Spawning *)

Lemma filter_shorter {A : Type} (f : A -> bool) (l : list A) :
  (List.length (filter f l) <= List.length l)%nat.
Proof.
  induction l as [|a l IH]; cbn; [lia|]. destruct (f a); cbn; lia.
Qed.

(** X15: with draws in [0, 1), both spawn timers are positive after every
    tick; a timer that ran out is set anew, to between 0.9 and 1.8 s for
    obstacles and between 2 and 5 s for clouds; and a tick adds at most one
    obstacle and at most one cloud. *)
Theorem spawning_is_paced (canvas : Canvas.t) (time : Q) (rnd : Randoms)
        (w : World) :
  canvasRef (refs w) = Some canvas ->
  fraction (rSpawn rnd) -> fraction (rCloudSpawn rnd) ->
  let dt := elapsed time (lastTimeRef (refs w)) in
  let r' := refs (world (step time rnd w)) in
  0 < spawnTimerRef r' /\ 0 < cloudSpawnTimerRef r'
  /\ (spawnTimerRef (refs w) - dt <= 0 ->
      0.9 <= spawnTimerRef r' /\ spawnTimerRef r' < 1.8)
  /\ (cloudSpawnTimerRef (refs w) - dt <= 0 ->
      2 <= cloudSpawnTimerRef r' /\ cloudSpawnTimerRef r' < 5)
  /\ (List.length (obstaclesRef r')
      <= List.length (obstaclesRef (refs w)) + 1)%nat
  /\ (List.length (cloudsRef r') <= List.length (cloudsRef (refs w)) + 1)%nat.
Proof.
  intros C [S0 S1] [K0 K1] dt r'.
  unfold r'. rewrite (step_refs canvas time rnd w C).
  destruct (simulate_lists canvas time rnd (refs w)) as [-> [-> [-> ->]]].
  fold dt.
  destruct (Js.leb (spawnTimerRef (refs w) - dt) 0) eqn:E1;
    [apply leb_le in E1 | apply leb_gt in E1];
    (destruct (Js.leb (cloudSpawnTimerRef (refs w) - dt) 0) eqn:E2;
     [apply leb_le in E2 | apply leb_gt in E2]);
    (repeat split;
     try lra;
     try (intro; exfalso; lra);
     try (eapply Nat.le_trans; [apply filter_shorter|];
          rewrite length_map, ?length_app; cbn; lia)).
Qed.

Lemma spawning_is_paced_witness :
  0 < spawnTimerRef (refs (world (step 1000 draws (resetGame mounted))))
  /\ 0 < cloudSpawnTimerRef
           (refs (world (step 1000 draws (resetGame mounted)))).
Proof.
  destruct (spawning_is_paced demoCanvas 1000 draws (resetGame mounted)
              eq_refl) as [A [B _]];
    [split; [discriminate | reflexivity] ..|].
  split; [exact A | exact B].
Defined.

(** ** The canvas *)

(** X16: after a resize the canvas is as high as its parent, no wider than
    the parent and no wider than 9/16 of its height; its width is one of the
    two; the 2d context is kept; and the player stands on the new ground
    line. *)
Theorem resize_fits_portrait (canvas : Canvas.t)
        (parentWidth parentHeight : Z) (w : World) :
  canvasRef (refs w) = Some canvas ->
  exists canvas' : Canvas.t,
    canvasRef (refs (resize parentWidth parentHeight w)) = Some canvas'
    /\ Canvas.height canvas' = parentHeight
    /\ (Canvas.width canvas' <= parentWidth)%Z
    /\ (16 * Canvas.width canvas' <= 9 * parentHeight)%Z
    /\ (Canvas.width canvas' = parentWidth
        \/ Canvas.width canvas' = (9 * parentHeight / 16)%Z)
    /\ Canvas.context2d canvas' = Canvas.context2d canvas
    /\ playerYRef (refs (resize parentWidth parentHeight w))
       = inject_Z (Qfloor (inject_Z parentHeight / 2)) - 64.
Proof.
  intro C. unfold resize. rewrite C. cbn [refs withRefs canvasRef setPlayerY setCanvas playerYRef].
  eexists. split; [reflexivity|]. cbn [Canvas.height Canvas.width Canvas.context2d].
  assert (F : Qfloor (inject_Z parentHeight * (9 / 16))
              = (9 * parentHeight / 16)%Z).
  { rewrite Zdiv_Qdiv. apply Qfloor_comp.
    rewrite inject_Z_mult. change (inject_Z 9) with 9.
    change (inject_Z 16) with 16. field. }
  assert (M : Qfloor (Js.min (inject_Z parentWidth)
                             (Js.floor (inject_Z parentHeight * (9 / 16))))
              = Z.min parentWidth (9 * parentHeight / 16)).
  { unfold Js.floor, Js.min. rewrite F.
    destruct (Z.le_ge_cases parentWidth (9 * parentHeight / 16)) as [L | L].
    - rewrite Z.min_l by exact L.
      rewrite (Qfloor_comp _ (inject_Z parentWidth)); [apply Qfloor_Z|].
      apply Q.min_l. rewrite <- Zle_Qle. exact L.
    - rewrite Z.min_r by exact L.
      rewrite (Qfloor_comp _ (inject_Z (9 * parentHeight / 16)));
        [apply Qfloor_Z|].
      apply Q.min_r. rewrite <- Zle_Qle. exact L. }
  rewrite M.
  pose proof (Z.mul_div_le (9 * parentHeight) 16 eq_refl) as D.
  repeat split; try lia.
Qed.

Lemma resize_fits_portrait_witness :
  exists canvas' : Canvas.t,
    canvasRef (refs (resize 500 640 mounted)) = Some canvas'
    /\ Canvas.height canvas' = 640%Z
    /\ (Canvas.width canvas' <= 500)%Z
    /\ (16 * Canvas.width canvas' <= 9 * 640)%Z
    /\ (Canvas.width canvas' = 500%Z
        \/ Canvas.width canvas' = (9 * 640 / 16)%Z)
    /\ Canvas.context2d canvas' = Canvas.context2d demoCanvas
    /\ playerYRef (refs (resize 500 640 mounted))
       = inject_Z (Qfloor (inject_Z 640 / 2)) - 64.
Proof.
  exact (resize_fits_portrait demoCanvas 500 640 mounted eq_refl).
Defined.

(** ** The loop and the session *)

(** X17: on a canvas, the loop of a running session runs a tick in every
    animation frame for as long as the session runs, and stops only by
    ending the game: either every frame ran a tick and the session is
    still running, or the loop stopped with the session over and not
    running. *)
Theorem loop_stops_only_at_game_over (canvas : Canvas.t)
        (inputs : list (Q * Randoms)) :
  forall w : World,
    canvasRef (refs w) = Some canvas ->
    isRunning (state w) = true ->
    (snd (frames inputs w) = List.length inputs
     /\ isRunning (state (fst (frames inputs w))) = true)
    \/ ((1 <= snd (frames inputs w) <= List.length inputs)%nat
        /\ isRunning (state (fst (frames inputs w))) = false
        /\ isGameOver (state (fst (frames inputs w))) = true).
Proof.
  induction inputs as [|[time rnd] rest IH]; intros w C R.
  - left. split; [reflexivity | exact R].
  - cbn [frames].
    rewrite (step_frameRequested canvas time rnd w C), R. cbn [andb].
    destruct (step_shape canvas time rnd w C)
      as [st0 [Hst [[E N] | [E [Y _]]]]].
    + rewrite N. cbn [negb].
      assert (R' : isRunning (state (world (step time rnd w))) = true).
      { rewrite E. destruct Hst as [-> | ->]; exact R. }
      destruct (IH _ (step_canvas canvas time rnd w C) R')
        as [[Hn Hr] | [Hn Hr]];
        destruct (frames rest (world (step time rnd w))) as [w' n];
        cbn [fst snd List.length] in *.
      * left. split; [lia | exact Hr].
      * right. split; [lia | exact Hr].
    + rewrite Y. cbn [negb fst snd List.length]. right.
      split; [lia|]. rewrite E.
      destruct (endGame_flags (score (state w))
                  (mkWorld st0 (simulate canvas time rnd (refs w))
                           (localStorage w))) as [G F].
      split; assumption.
Qed.

Lemma loop_stops_only_at_game_over_witness :
  snd (frames (every20ms 1000 3) (resetGame mounted)) = 3%nat
  /\ snd (frames (every20ms 1000 3) crashing) = 1%nat.
Proof.
  destruct (loop_stops_only_at_game_over demoCanvas (every20ms 1000 3)
              (resetGame mounted) eq_refl eq_refl) as [[N _] | [_ [R _]]];
    [|vm_compute in R; discriminate R].
  split; [exact N | vm_compute; reflexivity].
Defined.

(** ** Input *)

(** X18: while the menu or the leaderboard is open, a key or pointer press
    changes nothing; a key other than Space and ArrowUp never does.  With no
    overlay open and the game over, a pointer press, Space or ArrowUp starts
    a new session on the canvas: running, not over, score 0, no obstacles or
    clouds, speed 260, the player at rest on the ground line; the high
    score, the leaderboard, the images and the store are kept. *)
Theorem press_is_gated_and_restarts (canvas : Canvas.t) (w : World) :
  canvasRef (refs w) = Some canvas ->
  (showMenu (state w) = true \/ showLeaderboard (state w) = true ->
   handlePointer w = w /\ forall code : KeyCode, handleKeyDown code w = w)
  /\ handleKeyDown OtherKey w = w
  /\ (showMenu (state w) = false -> showLeaderboard (state w) = false ->
      isRunning (state w) = false -> isGameOver (state w) = true ->
      handleKeyDown Space w = handlePointer w
      /\ handleKeyDown ArrowUp w = handlePointer w
      /\ handlePointer w =
         mkWorld
           (mkState false true false false (topScores (state w)) 0
                    (highScore (state w)))
           (mkRefs (Some canvas)
                   (inject_Z (Qfloor (inject_Z (Canvas.height canvas) / 2))
                    - 64)
                   0 true 260 [] 0 [] 0 None (imagesRef (refs w)))
           (localStorage w)).
Proof.
  intro C. split; [|split].
  - intro H. unfold handlePointer, handleKeyDown.
    assert (E : showMenu (state w) || showLeaderboard (state w) = true).
    { destruct H as [H | H]; rewrite H; [reflexivity | apply orb_true_r]. }
    rewrite E. split; [reflexivity | intro; reflexivity].
  - unfold handleKeyDown. destruct (_ || _); reflexivity.
  - intros M L R G. unfold handleKeyDown, handlePointer, restartOrJump.
    rewrite M, L, R, G. cbn [orb negb andb].
    split; [reflexivity|]. split; [reflexivity|].
    unfold resetGame, setIsRunning, setScore, setIsGameOver. rewrite C.
    cbn [isGameOver isRunning showMenu showLeaderboard topScores score
           highScore].
    rewrite M, L. reflexivity.
Qed.

Lemma press_is_gated_and_restarts_witness :
  isRunning (state (handlePointer crashed)) = true
  /\ score (state (handlePointer crashed)) = 0%Z
  /\ obstaclesRef (refs (handlePointer crashed)) = [].
Proof.
  destruct (press_is_gated_and_restarts demoCanvas crashed eq_refl)
    as [_ [_ R]].
  destruct R as [_ [_ E]]; [vm_compute; reflexivity ..|].
  rewrite E. repeat split.
Defined.

(** X19: resetting twice is resetting once, and a reset never touches the
    high score, the leaderboard, the two overlay flags, the images, the
    canvas or the store. *)
Theorem resetGame_idempotent (w : World) :
  resetGame (resetGame w) = resetGame w
  /\ highScore (state (resetGame w)) = highScore (state w)
  /\ topScores (state (resetGame w)) = topScores (state w)
  /\ showMenu (state (resetGame w)) = showMenu (state w)
  /\ showLeaderboard (state (resetGame w)) = showLeaderboard (state w)
  /\ imagesRef (refs (resetGame w)) = imagesRef (refs w)
  /\ canvasRef (refs (resetGame w)) = canvasRef (refs w)
  /\ localStorage (resetGame w) = localStorage w.
Proof.
  unfold resetGame.
  destruct (canvasRef (refs w)) as [canvas|] eqn:C; cbn; rewrite ?C;
    repeat split.
Qed.

(** ** Clouds *)

Lemma endGame_withRefs (s : Z) (f : Refs -> Refs) (w : World) :
  endGame s (withRefs f w) = withRefs f (endGame s w).
Proof.
  destruct w as [st r [rd wr hs sc]].
  unfold endGame, recordScore, updateHighScore, Storage.getScores,
    Storage.setScores, Storage.setHighScore, Js.bind, Js.try_catch,
    pushAndSort, parseScores.
  destruct rd, wr; cbn -[firstn Js.sort]; try reflexivity;
    destruct sc as [| | [[l | t | ] | ]]; reflexivity.
Qed.

Lemma simulate_sameGame (canvas : Canvas.t) (time : Q) (rnd : Randoms)
      (r : Refs) (clouds : list Cloud.t) (timer a b c d : Q) :
  sameGame (simulate canvas time (withCloudDraws a b c d rnd)
                     (withClouds clouds timer r))
           (simulate canvas time rnd r).
Proof.
  unfold simulate, withClouds, withCloudDraws.
  cbn [canvasRef playerYRef playerVyRef isOnGroundRef speedRef obstaclesRef
         spawnTimerRef lastTimeRef imagesRef rSpawn].
  destruct (integrate _ _ _ _ _) as [[y vy] g].
  unfold sameGame, spawnObstacle. cbn. repeat split.
Qed.

(** X20: clouds are decoration: the clouds on the list, their timer and the
    four random draws for a new cloud have no effect on what a tick does to
    the state, the store, the player, the speed, the obstacles, or on
    whether the game ends and another frame is requested. *)
Theorem clouds_are_decoration (time : Q) (rnd : Randoms) (w : World)
        (clouds : list Cloud.t) (timer a b c d : Q) :
  let t := step time rnd w in
  let t' := step time (withCloudDraws a b c d rnd)
                 (withRefs (withClouds clouds timer) w) in
  state (world t') = state (world t)
  /\ localStorage (world t') = localStorage (world t)
  /\ endGameCalled t' = endGameCalled t
  /\ frameRequested t' = frameRequested t
  /\ sameGame (refs (world t')) (refs (world t)).
Proof.
  cbv zeta. unfold step.
  cbn [refs withRefs state localStorage].
  change (canvasRef (withClouds clouds timer (refs w)))
    with (canvasRef (refs w)).
  change (lastTimeRef (withClouds clouds timer (refs w)))
    with (lastTimeRef (refs w)).
  destruct (canvasRef (refs w)) as [canvas|] eqn:C;
    [|cbn; unfold sameGame; cbn; repeat split].
  pose proof (simulate_sameGame canvas time rnd (refs w) clouds timer a b c d)
    as S.
  set (r1 := simulate canvas time (withCloudDraws a b c d rnd)
                      (withClouds clouds timer (refs w))) in *.
  set (r2 := simulate canvas time rnd (refs w)) in *.
  set (st0 := if isRunning (state w) then _ else state w).
  destruct S as [Sc [Sy [Sv [Sg [Ss [So [St [Sl Si]]]]]]]].
  rewrite Si, Sy, So.
  destruct (isRunning (state w)
            && existsb (collides canvas
                          (playerHitbox canvas (imagesRef r2) (playerYRef r2)))
                       (obstaclesRef r2));
    cbn [world endGameCalled frameRequested state localStorage refs].
  - change (mkWorld st0 r1 (localStorage w))
      with (withRefs (fun _ => r1) (mkWorld st0 r2 (localStorage w))).
    rewrite endGame_withRefs.
    cbn [state localStorage refs withRefs]. rewrite endGame_refs.
    cbn [refs]. repeat split; first [reflexivity | assumption].
  - repeat split; first [reflexivity | assumption].
Qed.

(** X21: a cloud spawned with draws in [0, 1) at a scroll speed between 0
    and 560 starts 20 pixels right of the canvas, at least 10 pixels from
    the top and less than [10 + max(10, height / 4)], with a scale between
    0.6 and 1.2 and a drift speed between 20 and 182. *)
Theorem spawned_cloud_bounds (rnd : Randoms) (speed : Q)
        (canvas : Canvas.t) :
  validDraws rnd -> 0 <= speed -> speed <= 560 ->
  let c := spawnCloud rnd speed canvas in
  Cloud.x c = inject_Z (Canvas.width canvas) + 20
  /\ (10 <= Cloud.y c
      /\ Cloud.y c < 10 + Qmax 10 (inject_Z (Canvas.height canvas) * 0.25))
  /\ (0.6 <= Cloud.scale c /\ Cloud.scale c < 1.2)
  /\ (20 <= Cloud.speed c /\ Cloud.speed c <= 182).
Proof.
  intros [_ [_ [_ [[A0 A1] [[B0 B1] [[C0 C1] _]]]]]] S0 S1 c.
  unfold c, spawnCloud. cbn [Cloud.x Cloud.y Cloud.scale Cloud.speed].
  unfold Js.max.
  set (m := Qmax 10 (inject_Z (Canvas.height canvas) * 0.25)).
  assert (M : 10 <= m) by apply Q.le_max_l.
  split; [reflexivity|]. split; [|split].
  - split; [assert (0 <= rCloudY rnd * m) by (apply Qmult_le_0_compat; lra);
            lra|].
    assert (rCloudY rnd * m < 1 * m) by (apply Qmult_lt_compat_r; lra). lra.
  - split; lra.
  - split; [apply Q.le_max_l|].
    apply Q.max_lub; [discriminate|].
    assert (F : 0.7 + rCloudSpeed rnd * 0.6 <= 1.3) by lra.
    assert (F0 : 0 <= 0.7 + rCloudSpeed rnd * 0.6) by lra.
    apply Qle_trans with (560 * 0.25 * 1.3); [|discriminate].
    apply Qmult_le_compat_nonneg; split; try lra.
Qed.

Lemma spawned_cloud_bounds_witness :
  20 <= Cloud.speed (spawnCloud draws 260 demoCanvas)
  /\ Cloud.speed (spawnCloud draws 260 demoCanvas) <= 182.
Proof.
  destruct (spawned_cloud_bounds draws 260 demoCanvas) as [_ [_ [_ S]]];
    [vm_compute; repeat split; discriminate | discriminate ..|].
  exact S.
Defined.

(** * The drawing phase *)

Lemma render_calls (theme : Theme) (canvas : Canvas.t) (dt : Q) (r : Refs)
      (score : Z) (highScore : Js.num) (p : Paint) :
  snd (render theme canvas dt r score highScore p)
  = [clearRect 0 0 (inject_Z (Canvas.width canvas))
               (inject_Z (Canvas.height canvas));
     fillStyle "#a6cff9";
     fillRect 0 0 (inject_Z (Canvas.width canvas))
              (inject_Z (Canvas.height canvas));
     imageSmoothingEnabled false]
    ++ drawClouds (imagesRef r) (cloudsRef r)
    ++ snd (drawGround (orDefault (cardBorder theme) "#e5e7eb") canvas
                       (imagesRef r) (speedRef r) dt (groundScrollRef p))
    ++ snd (drawPlayer (orDefault (accent theme) "#0052FF") (imagesRef r) dt
                       (playerX canvas) (playerYRef r) (runFrameRef p)
                       (runFrameTimerRef p))
    ++ flat_map (drawObstacle (orDefault (foreground theme) "#111111") canvas
                              (imagesRef r))
                (obstaclesRef r)
    ++ [fillStyle (orDefault (foreground theme) "#111111");
        textBaseline "top";
        font "14px 'Press Start 2P', monospace";
        fillText (ScoreLabel score) 12 12;
        fillText (HighLabel highScore) 12 32].
Proof.
  unfold render.
  destruct (drawGround _ _ _ _ _ _) as [scroll groundCalls].
  destruct (drawPlayer _ _ _ _ _ _ _) as [[frame timer] playerCalls].
  reflexivity.
Qed.

Lemma stepAndDraw_cases (theme : Theme) (canvas : Canvas.t) (time : Q)
      (rnd : Randoms) (w : World) (p : Paint) :
  canvasRef (refs w) = Some canvas ->
  (endGameCalled (step time rnd w) = true
   /\ stepAndDraw theme time rnd w p = (step time rnd w, p, []))
  \/ (endGameCalled (step time rnd w) = false
      /\ stepAndDraw theme time rnd w p
         = (step time rnd w,
            fst (render theme canvas (elapsed time (lastTimeRef (refs w)))
                        (refs (world (step time rnd w))) (score (state w))
                        (highScore (state w)) p),
            snd (render theme canvas (elapsed time (lastTimeRef (refs w)))
                        (refs (world (step time rnd w))) (score (state w))
                        (highScore (state w)) p))).
Proof.
  intro C. unfold stepAndDraw. rewrite C.
  destruct (endGameCalled (step time rnd w)); [left | right];
    (split; [reflexivity|]); [reflexivity|].
  destruct (render _ _ _ _ _ _ _) as [p' calls]. reflexivity.
Qed.

Lemma callbackAndDraw_cases (c : Closure) (theme : Theme)
      (canvas : Canvas.t) (time : Q) (rnd : Randoms) (w : World) (p : Paint) :
  canvasRef (refs w) = Some canvas ->
  (endGameCalled (callback c time rnd w) = true
   /\ callbackAndDraw c theme time rnd w p = (callback c time rnd w, p, []))
  \/ (endGameCalled (callback c time rnd w) = false
      /\ callbackAndDraw c theme time rnd w p
         = (callback c time rnd w,
            fst (render theme canvas (elapsed time (lastTimeRef (refs w)))
                        (refs (world (callback c time rnd w)))
                        (capturedScore c) (capturedHighScore c) p),
            snd (render theme canvas (elapsed time (lastTimeRef (refs w)))
                        (refs (world (callback c time rnd w)))
                        (capturedScore c) (capturedHighScore c) p))).
Proof.
  intro C. unfold callbackAndDraw. rewrite C.
  destruct (endGameCalled (callback c time rnd w)); [left | right];
    (split; [reflexivity|]); [reflexivity|].
  destruct (render _ _ _ _ _ _ _) as [p' calls]. reflexivity.
Qed.

Lemma stepAndDraw_of_latest_render (theme : Theme) (time : Q)
      (rnd : Randoms) (w : World) (p : Paint) :
  stepAndDraw theme time rnd w p
  = callbackAndDraw (closureOf (state w)) theme time rnd w p.
Proof. reflexivity. Qed.

(** X22: a tick that ends the game draws nothing and leaves the sprite
    frame, its timer and the ground offset as they were, so the canvas keeps
    the previous frame.  Every other tick on a canvas clears the whole
    canvas, paints the sky over all of it, and finishes with the two texts,
    which show the score and the high score its callback has captured:
    those of the render the callback was created in, not the score the tick
    has just set, and for a callback left over from an earlier render not
    the current score either. *)
Theorem game_over_tick_draws_nothing (c : Closure) (theme : Theme)
        (canvas : Canvas.t) (time : Q) (rnd : Randoms) (w : World)
        (p : Paint) :
  canvasRef (refs w) = Some canvas ->
  fst (fst (callbackAndDraw c theme time rnd w p)) = callback c time rnd w
  /\ (endGameCalled (callback c time rnd w) = true ->
      snd (callbackAndDraw c theme time rnd w p) = []
      /\ snd (fst (callbackAndDraw c theme time rnd w p)) = p)
  /\ (endGameCalled (callback c time rnd w) = false ->
      exists middle : list Command,
        snd (callbackAndDraw c theme time rnd w p)
        = [clearRect 0 0 (inject_Z (Canvas.width canvas))
                     (inject_Z (Canvas.height canvas));
           fillStyle "#a6cff9";
           fillRect 0 0 (inject_Z (Canvas.width canvas))
                    (inject_Z (Canvas.height canvas))]
          ++ middle
          ++ [fillText (ScoreLabel (capturedScore c)) 12 12;
              fillText (HighLabel (capturedHighScore c)) 12 32]).
Proof.
  intro C.
  destruct (callbackAndDraw_cases c theme canvas time rnd w p C)
    as [[E ->] | [E ->]]; cbn [fst snd].
  - split; [reflexivity|]. split; [intros _; split; reflexivity|].
    congruence.
  - split; [reflexivity|]. split; [congruence|]. intros _.
    rewrite render_calls.
    set (tree := flat_map _ _). set (player := snd (drawPlayer _ _ _ _ _ _ _)).
    set (ground := snd (drawGround _ _ _ _ _ _)). set (sky := drawClouds _ _).
    exists (imageSmoothingEnabled false
            :: sky ++ ground ++ player ++ tree
               ++ [fillStyle (orDefault (foreground theme) "#111111");
                   textBaseline "top";
                   font "14px 'Press Start 2P', monospace"]).
    cbn [app]. do 4 f_equal. rewrite <- !app_assoc. reflexivity.
Qed.

Lemma game_over_tick_draws_nothing_witness :
  snd (callbackAndDraw (mkClosure true 0 (Js.Num 0)) plainTheme 1020 draws
                       lateCrash resetPaint) = []
  /\ snd (fst (callbackAndDraw (mkClosure true 0 (Js.Num 0)) plainTheme 1020
                               draws lateCrash resetPaint))
     = resetPaint
  /\ exists middle : list Command,
       snd (callbackAndDraw (mkClosure true 0 (Js.Num 0)) plainTheme 1020
                            draws scored resetPaint)
       = [clearRect 0 0 720 1280; fillStyle "#a6cff9";
          fillRect 0 0 720 1280]
         ++ middle
         ++ [fillText (ScoreLabel 0) 12 12;
             fillText (HighLabel (Js.Num 0)) 12 32].
Proof.
  destruct (game_over_tick_draws_nothing (mkClosure true 0 (Js.Num 0))
              plainTheme demoCanvas 1020 draws lateCrash resetPaint eq_refl)
    as [_ [Over _]].
  destruct (game_over_tick_draws_nothing (mkClosure true 0 (Js.Num 0))
              plainTheme demoCanvas 1020 draws scored resetPaint eq_refl)
    as [_ [_ Draws]].
  split; [apply Over; vm_compute; reflexivity|].
  split; [apply Over; vm_compute; reflexivity|].
  apply Draws. vm_compute. reflexivity.
Defined.

Lemma drawObstacle_at_rect (color : string) (canvas : Canvas.t)
      (imgs : Assets) (o : Obstacle.t) :
  let b := obstacleRect canvas o in
  (exists key : AssetKey,
      In (drawImage key (left b) (top b) (wide b) (high b))
         (drawObstacle color canvas imgs o))
  \/ In (fillRect (left b) (top b) (wide b) (high b))
        (drawObstacle color canvas imgs o).
Proof.
  unfold drawObstacle, obstacleRect. cbn [left top wide high].
  destruct (Obstacle.img o) as [tree|].
  - destruct (usable (treeImage imgs tree)).
    + left. exists (treeKey tree). left. reflexivity.
    + right. right. left. reflexivity.
  - right. right. left. reflexivity.
Qed.

Lemma drawPlayer_at_rect (color : string) (imgs : Assets) (dt px py : Q)
      (frame timer : Q) :
  let d := characterRect (character imgs) px py in
  (exists sx sy sw sh : Q,
      In (drawImageFrame Character sx sy sw sh
                         (left d) (top d) (wide d) (high d))
         (snd (drawPlayer color imgs dt px py frame timer)))
  \/ In (fillRect (left d) (top d) (wide d) (high d))
        (snd (drawPlayer color imgs dt px py frame timer)).
Proof.
  unfold drawPlayer, characterRect, spriteFrame.
  destruct (loaded (character imgs)) as [img|]; cbn [left top wide high snd].
  - left. do 4 eexists. left. reflexivity.
  - right. right. left. reflexivity.
Qed.

(** X23: what is drawn is what collides.  In a tick that draws, every
    obstacle on the list is drawn, as its image or as a filled rectangle, at
    exactly the rectangle whose inset is its collision box, and the player
    is drawn, as a sprite frame or as a filled rectangle, at exactly the
    rectangle whose inset is the player's collision box. *)
Theorem drawn_where_it_collides (theme : Theme) (canvas : Canvas.t)
        (time : Q) (rnd : Randoms) (w : World) (p : Paint) :
  canvasRef (refs w) = Some canvas ->
  endGameCalled (step time rnd w) = false ->
  let r' := refs (world (step time rnd w)) in
  let calls := snd (stepAndDraw theme time rnd w p) in
  (forall o : Obstacle.t,
      In o (obstaclesRef r') ->
      let b := obstacleRect canvas o in
      collides canvas (playerHitbox canvas (imagesRef r') (playerYRef r')) o
      = negb (noOverlap (playerHitbox canvas (imagesRef r') (playerYRef r'))
                        (obstacleHitbox b))
      /\ ((exists key : AssetKey,
              In (drawImage key (left b) (top b) (wide b) (high b)) calls)
          \/ In (fillRect (left b) (top b) (wide b) (high b)) calls))
  /\ (let d := characterRect (character (imagesRef r')) (playerX canvas)
                             (playerYRef r') in
      playerHitbox canvas (imagesRef r') (playerYRef r') = characterHitbox d
      /\ ((exists sx sy sw sh : Q,
              In (drawImageFrame Character sx sy sw sh
                                 (left d) (top d) (wide d) (high d)) calls)
          \/ In (fillRect (left d) (top d) (wide d) (high d)) calls)).
Proof.
  intros C E r' calls. unfold calls.
  destruct (stepAndDraw_cases theme canvas time rnd w p C)
    as [[E' _] | [_ ->]]; [congruence|].
  cbn [snd]. rewrite render_calls. fold r'.
  split.
  - intros o I. set (b := obstacleRect canvas o). split; [reflexivity|].
    destruct (drawObstacle_at_rect (orDefault (foreground theme) "#111111")
                canvas (imagesRef r') o) as [[key H] | H]; fold b in H.
    + left. exists key.
      apply in_or_app. right. apply in_or_app. right. apply in_or_app. right.
      apply in_or_app. right. apply in_or_app. left.
      apply in_flat_map. exists o. split; assumption.
    + right.
      apply in_or_app. right. apply in_or_app. right. apply in_or_app. right.
      apply in_or_app. right. apply in_or_app. left.
      apply in_flat_map. exists o. split; assumption.
  - set (d := characterRect (character (imagesRef r')) (playerX canvas)
                            (playerYRef r')).
    split; [reflexivity|].
    destruct (drawPlayer_at_rect (orDefault (accent theme) "#0052FF")
                (imagesRef r') (elapsed time (lastTimeRef (refs w)))
                (playerX canvas) (playerYRef r') (runFrameRef p)
                (runFrameTimerRef p)) as [[sx [sy [sw [sh H]]]] | H];
      fold d in H.
    + left. exists sx, sy, sw, sh.
      apply in_or_app. right. apply in_or_app. right. apply in_or_app. right.
      apply in_or_app. left. exact H.
    + right.
      apply in_or_app. right. apply in_or_app. right. apply in_or_app. right.
      apply in_or_app. left. exact H.
Qed.

Lemma drawn_where_it_collides_witness :
  (exists sx sy sw sh : Q,
      In (drawImageFrame Character sx sy sw sh 332 576 56 64)
         (snd (stepAndDraw plainTheme 1020 draws started resetPaint)))
  \/ In (fillRect 332 576 56 64)
        (snd (stepAndDraw plainTheme 1020 draws started resetPaint)).
Proof.
  destruct (drawn_where_it_collides plainTheme demoCanvas 1020 draws started
              resetPaint eq_refl) as [_ [_ H]];
    [vm_compute; reflexivity|].
  exact H.
Defined.

(** ** Remainders *)

Lemma remainder_range (a b : Q) :
  0 <= a -> 0 < b ->
  (0 <= remainder a b /\ remainder a b < b)
  /\ exists k : Z, (0 <= k)%Z /\ a == remainder a b + b * inject_Z k.
Proof.
  intros A B. unfold remainder, trunc.
  assert (D : 0 <= a / b) by (apply Qle_shift_div_l; lra).
  apply leb_le in D. rewrite D. apply leb_le in D.
  pose proof (floor_le (a / b)) as L. pose proof (floor_gt (a / b)) as G.
  pose proof (floor_nonneg (a / b) D) as N.
  assert (E : b * (a / b) == a) by (apply Qmult_div_r; lra).
  set (f := Js.floor (a / b)) in *.
  assert (L' : b * f <= a).
  { rewrite <- E. apply Qmult_le_l; assumption. }
  assert (G' : a < b * f + b).
  { rewrite <- E at 1.
    setoid_replace (b * f + b) with (b * (f + 1)) by ring.
    apply Qmult_lt_l; [exact B | lra]. }
  split; [split; lra|].
  exists (Qfloor (a / b)). split.
  - change 0%Z with (Qfloor 0). apply Qfloor_resp_le, D.
  - fold (Js.floor (a / b)). fold f. ring.
Qed.

(** ** The sprite frame *)

(** X24: drawing the player with a loaded sheet keeps the frame counter one
    of 0, 1, 2, 3: it stays or goes to the next frame, 3 being followed by
    0; it advances exactly when the timer has reached 0.1 s, which resets
    the timer, so that the timer stays below 0.1; and the frame cut out of
    the sheet lies inside the sheet. *)
Theorem sprite_frame_stays_in_sheet (color : string) (imgs : Assets)
        (img : Image.t) (dt px py frame timer : Q) (n : Z) :
  loaded (character imgs) = Some img ->
  (0 < Image.width img)%Z ->
  (0 <= n <= 3)%Z -> frame == inject_Z n ->
  0 <= timer -> 0 <= dt ->
  let result := drawPlayer color imgs dt px py frame timer in
  let frame' := fst (fst result) in
  let timer' := snd (fst result) in
  let src := spriteFrame img frame' in
  (exists n' : Z,
      (0 <= n' <= 3)%Z /\ frame' == inject_Z n'
      /\ (timer + dt < 0.1 -> n' = n /\ timer' = timer + dt)
      /\ (0.1 <= timer + dt -> n' = ((n + 1) mod 4)%Z /\ timer' = 0))
  /\ (0 <= timer' /\ timer' < 0.1)
  /\ (0 <= left src /\ left src + wide src <= inject_Z (Image.width img)
      /\ top src = 0 /\ high src = inject_Z (Image.height img))
  /\ exists dx dy dw dh : Q,
       snd result
       = [drawImageFrame Character (left src) (top src) (wide src) (high src)
                         dx dy dw dh].
Proof.
  intros L Wp Hn Ef T0 D0 result frame' timer' src.
  unfold src, timer', frame', result, drawPlayer. rewrite L.
  change (1 / RUN_FPS) with 0.1. unfold RUN_FRAMES.
  cbn [fst snd].
  set (advance := Js.leb 0.1 (timer + dt)).
  assert (Fr : exists n' : Z,
             (0 <= n' <= 3)%Z
             /\ (if advance then remainder (frame + 1) 4 else frame)
                == inject_Z n'
             /\ (advance = false -> n' = n)
             /\ (advance = true -> n' = ((n + 1) mod 4)%Z)).
  { destruct advance.
    - destruct (remainder_range (frame + 1) 4) as [[R0 R1] [k [K E]]];
        [rewrite Ef; assert (0 <= inject_Z n); [|lra];
         change 0 with (inject_Z 0); rewrite <- Zle_Qle; lia
        | reflexivity |].
      exists (n + 1 - 4 * k)%Z.
      assert (Er : remainder (frame + 1) 4 == inject_Z (n + 1 - 4 * k)).
      { unfold Z.sub. rewrite !inject_Z_plus, inject_Z_opp, inject_Z_mult.
        change (inject_Z 4) with 4. change (inject_Z 1) with 1.
        rewrite <- Ef. lra. }
      rewrite Er in R0, R1.
      change 0 with (inject_Z 0) in R0. change 4 with (inject_Z 4) in R1.
      rewrite <- Zle_Qle in R0. rewrite <- Zlt_Qlt in R1.
      split; [lia|]. split; [exact Er|]. split; [discriminate|].
      intros _. apply (Z.mod_unique (n + 1) 4 k); lia.
    - exists n. split; [exact Hn|]. split; [exact Ef|].
      split; [reflexivity | discriminate]. }
  destruct Fr as [n' [Hn' [Ef' [Stay Next]]]].
  set (f2 := if advance then remainder (frame + 1) 4 else frame) in *.
  split; [|split; [|split]].
  - exists n'. split; [exact Hn'|]. split; [exact Ef'|]. split.
    + intro Lt. assert (A : advance = false) by (apply leb_gt; exact Lt).
      rewrite A. split; [apply Stay, A | reflexivity].
    + intro Ge. assert (A : advance = true) by (apply leb_le; exact Ge).
      rewrite A. split; [apply Next, A | reflexivity].
  - destruct advance eqn:A; [split; [apply Qle_refl | reflexivity]|].
    apply leb_gt in A. split; lra.
  - unfold spriteFrame, RUN_FRAMES. cbn [left top wide high].
    set (frameW := Js.floor (inject_Z (Image.width img) / 4)).
    assert (W4 : 0 <= inject_Z (Image.width img) / 4).
    { apply Qle_shift_div_l; [reflexivity|].
      assert (0 <= inject_Z (Image.width img)); [|lra].
      change 0 with (inject_Z 0). rewrite <- Zle_Qle. lia. }
    pose proof (floor_nonneg _ W4) as F0. pose proof (floor_le
      (inject_Z (Image.width img) / 4)) as F1. fold frameW in F0, F1.
    assert (W : inject_Z (Image.width img)
                == 4 * (inject_Z (Image.width img) / 4)) by field.
    assert (N0 : 0 <= inject_Z n' /\ inject_Z n' <= 3).
    { change 0 with (inject_Z 0). change 3 with (inject_Z 3).
      rewrite <- !Zle_Qle. lia. }
    rewrite Ef'. repeat split.
    + apply Qmult_le_0_compat; [apply N0 | exact F0].
    + assert (inject_Z n' * frameW <= 3 * frameW)
        by (apply Qmult_le_compat_r; [apply N0 | exact F0]).
      lra.
  - do 4 eexists. reflexivity.
Qed.

Lemma sprite_frame_stays_in_sheet_witness :
  exists n' : Z,
    (0 <= n' <= 3)%Z
    /\ fst (fst (drawPlayer "#0052FF"
                   (mkAssets None None None None (Some (Image.mk 400 100)))
                   0.02 332 576 3 0.09))
       == inject_Z n'
    /\ (0.09 + 0.02 < 0.1 ->
        n' = 3%Z
        /\ snd (fst (drawPlayer "#0052FF"
                       (mkAssets None None None None
                                 (Some (Image.mk 400 100)))
                       0.02 332 576 3 0.09))
           = 0.09 + 0.02)
    /\ (0.1 <= 0.09 + 0.02 ->
        n' = ((3 + 1) mod 4)%Z
        /\ snd (fst (drawPlayer "#0052FF"
                       (mkAssets None None None None
                                 (Some (Image.mk 400 100)))
                       0.02 332 576 3 0.09))
           = 0).
Proof.
  destruct (sprite_frame_stays_in_sheet "#0052FF"
              (mkAssets None None None None (Some (Image.mk 400 100)))
              (Image.mk 400 100) 0.02 332 576 3 0.09 3)
    as [H _]; [reflexivity | reflexivity | lia | reflexivity
               | discriminate | discriminate |].
  exact H.
Defined.

(** ** The ground strip *)

Lemma floor_comp (x y : Q) : x == y -> Js.floor x = Js.floor y.
Proof. intro E. unfold Js.floor. rewrite (Qfloor_comp x y E). reflexivity. Qed.

Lemma ceil_ge (x : Q) : x <= ceil x.
Proof. apply Qle_ceiling. Qed.

(** The [k]-th iteration of the loop draws at [floor(x + k * tileW)], if the
    loop gets that far. *)
Lemma tileColumns_in (limit tileW : Q) (fuel : nat) :
  0 < tileW ->
  forall (x : Q) (k : nat),
    (k < fuel)%nat ->
    x + inject_Z (Z.of_nat k) * tileW < limit ->
    In (Js.floor (x + inject_Z (Z.of_nat k) * tileW))
       (tileColumns fuel x limit tileW).
Proof.
  intro T. induction fuel as [|fuel IH]; intros x k K H; [lia|].
  assert (N : 0 <= inject_Z (Z.of_nat k)).
  { change 0 with (inject_Z 0). rewrite <- Zle_Qle. lia. }
  assert (X : x < limit).
  { assert (0 <= inject_Z (Z.of_nat k) * tileW)
      by (apply Qmult_le_0_compat; lra). lra. }
  cbn [tileColumns]. apply ltb_lt in X. rewrite X.
  destruct k as [|k].
  - left. apply floor_comp. cbn. ring.
  - right.
    assert (E : x + inject_Z (Z.of_nat (S k)) * tileW
                == x + tileW + inject_Z (Z.of_nat k) * tileW).
    { rewrite Nat2Z.inj_succ. unfold Z.succ. rewrite inject_Z_plus.
      change (inject_Z 1) with 1. ring. }
    rewrite (floor_comp _ _ E). apply IH; [lia|]. rewrite <- E. exact H.
Qed.

Lemma div_le_mult (a t c : Q) : 0 < t -> a / t <= c -> a <= c * t.
Proof.
  intros T H.
  assert (E : t * (a / t) == a) by (apply Qmult_div_r; lra).
  rewrite <- E. rewrite (Qmult_comm c t). apply Qmult_le_l; assumption.
Qed.

(** With that much fuel the loop stops because its condition fails. *)
Lemma tileColumns_complete (limit tileW : Q) (fuel : nat) :
  0 < tileW ->
  forall x : Q,
    (limit - x) / tileW <= inject_Z (Z.of_nat fuel) ->
    tileColumns (S fuel) x limit tileW = tileColumns fuel x limit tileW.
Proof.
  intro T. induction fuel as [|fuel IH]; intros x H.
  - cbn [tileColumns]. change (inject_Z (Z.of_nat 0)) with 0 in H.
    assert (L : limit - x <= 0).
    { apply (div_le_mult _ _ _ T) in H. lra. }
    destruct (Js.ltb x limit) eqn:E; [|reflexivity].
    apply ltb_lt in E. lra.
  - cbn [tileColumns]. destruct (Js.ltb x limit); [|reflexivity].
    f_equal. apply IH.
    rewrite Nat2Z.inj_succ in H. unfold Z.succ in H.
    rewrite inject_Z_plus in H. change (inject_Z 1) with 1 in H.
    setoid_replace ((limit - (x + tileW)) / tileW)
      with ((limit - x) / tileW - 1) by (field; lra).
    lra.
Qed.

Lemma tileFuel_enough (x limit tileW : Q) :
  (limit - x) / tileW <= inject_Z (Z.of_nat (tileFuel x limit tileW)).
Proof.
  unfold tileFuel.
  eapply Qle_trans; [apply Qle_ceiling|].
  rewrite <- Zle_Qle. lia.
Qed.

(** X25: with a loaded ground image, a canvas of positive height, a scroll
    offset that is a number not below 0 and a scroll distance not below 0,
    the tile width is positive, the new offset lies in [0, tileW), the loop
    over the tiles ends because its condition fails, and the tiles, each
    [tileW + 1] wide, leave no gap: every horizontal position of the canvas
    lies in a tile that is drawn. *)
Theorem ground_covers_canvas (color : string) (canvas : Canvas.t)
        (imgs : Assets) (img : Image.t) (speed dt g : Q) :
  loaded (ground imgs) = Some img ->
  (0 < Image.width img)%Z -> (0 < Image.height img)%Z ->
  (0 < Canvas.height canvas)%Z ->
  0 <= g -> 0 <= speed * dt ->
  let groundTopY := inject_Z (Qfloor (inject_Z (Canvas.height canvas) / 2)) in
  let groundHeight := inject_Z (Canvas.height canvas) - groundTopY in
  let tileW :=
    inject_Z (Qceiling (inject_Z (Image.width img)
                        * (groundHeight / inject_Z (Image.height img)))) in
  let limit := inject_Z (Canvas.width canvas) + tileW in
  exists (offset : Q) (columns : list Q),
    drawGround color canvas imgs speed dt (Js.Num g)
    = (Js.Num offset,
       map (fun drawX => drawImage Ground drawX groundTopY (tileW + 1)
                                   groundHeight)
           columns)
    /\ 0 < tileW
    /\ (0 <= offset /\ offset < tileW)
    /\ columns = tileColumns (tileFuel (- offset) limit tileW) (- offset)
                             limit tileW
    /\ tileColumns (S (tileFuel (- offset) limit tileW)) (- offset) limit
                   tileW
       = columns
    /\ forall q : Q,
         0 <= q -> q < inject_Z (Canvas.width canvas) ->
         exists drawX : Q,
           In drawX columns /\ drawX <= q /\ q < drawX + (tileW + 1).
Proof.
  intros L Wp Hp Cp G0 D0 groundTopY groundHeight tileW limit.
  assert (Hh : 0 < groundHeight).
  { unfold groundHeight, groundTopY.
    pose proof (floor_le (inject_Z (Canvas.height canvas) / 2)) as F.
    unfold Js.floor in F.
    assert (P : 0 < inject_Z (Canvas.height canvas)).
    { change 0 with (inject_Z 0). rewrite <- Zlt_Qlt. exact Cp. }
    change (inject_Z (Canvas.height canvas) / 2)
      with (inject_Z (Canvas.height canvas) * (1 # 2)) in F.
    change (inject_Z (Canvas.height canvas) / 2)
      with (inject_Z (Canvas.height canvas) * (1 # 2)). lra. }
  assert (Wq : 0 < inject_Z (Image.width img)).
  { change 0 with (inject_Z 0). rewrite <- Zlt_Qlt. exact Wp. }
  assert (Hq : 0 < inject_Z (Image.height img)).
  { change 0 with (inject_Z 0). rewrite <- Zlt_Qlt. exact Hp. }
  assert (T : 0 < tileW).
  { unfold tileW. eapply Qlt_le_trans; [|apply Qle_ceiling].
    apply Qmult_lt_0_compat; [exact Wq|].
    apply Qlt_shift_div_l; lra. }
  assert (Tt : Js.truthy tileW = true).
  { unfold Js.truthy. destruct (Qeq_bool tileW 0) eqn:E; [|reflexivity].
    apply Qeq_bool_eq in E. lra. }
  destruct (remainder_range (g + speed * dt) tileW) as [R _]; [lra | exact T|].
  set (offset := remainder (g + speed * dt) tileW) in *.
  exists offset,
    (tileColumns (tileFuel (- offset) limit tileW) (- offset) limit tileW).
  split.
  { unfold drawGround. rewrite L. cbn [addNum remNum].
    change (ceil (inject_Z (Image.width img)
                  * ((inject_Z (Canvas.height canvas) - groundTop canvas)
                     / inject_Z (Image.height img)))) with tileW.
    rewrite Tt. reflexivity. }
  split; [exact T|]. split; [exact R|]. split; [reflexivity|].
  split.
  { apply tileColumns_complete; [exact T | apply tileFuel_enough]. }
  intros q Q0 Q1.
  set (kz := Qfloor ((q + offset) / tileW)).
  assert (Pos : 0 <= (q + offset) / tileW)
    by (apply Qle_shift_div_l; lra).
  assert (K0 : (0 <= kz)%Z).
  { unfold kz. change 0%Z with (Qfloor 0). apply Qfloor_resp_le, Pos. }
  pose proof (floor_le ((q + offset) / tileW)) as Fl.
  pose proof (floor_gt ((q + offset) / tileW)) as Fg.
  unfold Js.floor in Fl, Fg. fold kz in Fl, Fg.
  assert (E : tileW * ((q + offset) / tileW) == q + offset)
    by (apply Qmult_div_r; lra).
  assert (Lo : inject_Z kz * tileW <= q + offset).
  { rewrite <- E, (Qmult_comm (inject_Z kz)).
    apply Qmult_le_l; assumption. }
  assert (Hi : q + offset < inject_Z kz * tileW + tileW).
  { rewrite <- E at 1.
    setoid_replace (inject_Z kz * tileW + tileW)
      with (tileW * (inject_Z kz + 1)) by ring.
    apply Qmult_lt_l; [exact T | lra]. }
  set (y := - offset + inject_Z (Z.of_nat (Z.to_nat kz)) * tileW).
  assert (Ey : y == - offset + inject_Z kz * tileW).
  { unfold y. rewrite Z2Nat.id by exact K0. reflexivity. }
  exists (Js.floor y).
  pose proof (floor_le y) as Yl. pose proof (floor_gt y) as Yg.
  split; [|split; lra].
  apply tileColumns_in; [exact T | | fold y; unfold limit; lra].
  unfold tileFuel.
  assert (Lt : (kz < Qceiling ((limit - - offset) / tileW))%Z).
  { rewrite Zlt_Qlt. eapply Qlt_le_trans; [|apply Qle_ceiling].
    apply Qlt_shift_div_l; [exact T|]. unfold limit. lra. }
  lia.
Qed.

Lemma ground_covers_canvas_witness :
  exists offset : Q,
    fst (drawGround "#e5e7eb" demoCanvas groundOnly 260 0.02 (Js.Num 0))
    = Js.Num offset
    /\ 0 <= offset.
Proof.
  destruct (ground_covers_canvas "#e5e7eb" demoCanvas groundOnly
              (Image.mk 128 64) 260 0.02 0)
    as [offset [columns [E [_ [[R _] _]]]]];
    [reflexivity | reflexivity | reflexivity | reflexivity
     | discriminate | discriminate |].
  exists offset. rewrite E. split; [reflexivity | exact R].
Defined.

(** X26: a tick drawn on a canvas of height 0 with a loaded ground image
    turns the scroll offset into [NaN] (the tile width is 0, and a remainder
    by 0 is not a number); and once the offset is [NaN] it stays [NaN] on
    every canvas, and no ground tile is drawn any more. *)
Theorem ground_offset_nan_sticks (color : string) (canvas : Canvas.t)
        (imgs : Assets) (img : Image.t) (speed dt : Q) :
  loaded (ground imgs) = Some img ->
  drawGround color canvas imgs speed dt Js.NaN = (Js.NaN, [])
  /\ (Canvas.height canvas = 0%Z ->
      forall g : Q,
        drawGround color canvas imgs speed dt (Js.Num g) = (Js.NaN, [])).
Proof.
  intro L. unfold drawGround. rewrite L. split; [reflexivity|].
  intros H g. cbn [addNum remNum]. unfold groundTop. rewrite H.
  assert (T : Js.truthy
                (ceil (inject_Z (Image.width img)
                       * ((inject_Z 0 - Js.floor (inject_Z 0 / 2))
                          / inject_Z (Image.height img))))
              = false).
  { unfold Js.truthy.
    assert (E : ceil (inject_Z (Image.width img)
                      * ((inject_Z 0 - Js.floor (inject_Z 0 / 2))
                         / inject_Z (Image.height img))) == 0).
    { unfold ceil. rewrite (Qceiling_comp _ 0); [reflexivity|].
      change (inject_Z 0 - Js.floor (inject_Z 0 / 2)) with (0 - 0).
      unfold Qdiv. ring. }
    apply Qeq_bool_iff in E. rewrite E. reflexivity. }
  rewrite T. reflexivity.
Qed.

Lemma ground_offset_nan_sticks_witness :
  drawGround "#e5e7eb" demoCanvas groundOnly 260 0.02 Js.NaN = (Js.NaN, []).
Proof.
  exact (proj1 (ground_offset_nan_sticks "#e5e7eb" demoCanvas groundOnly
                  (Image.mk 128 64) 260 0.02 eq_refl)).
Defined.
